(** * filigrane-ai: the interactive watermark-removal batch tool (src/index.ts)

    A shallow embedding of [src/index.ts] (the interactive variant, the one
    with the review loop) and the properties of its specification.

    - JavaScript strings are sequences of UTF-16 code units ([jsstring]).
    - A Node [Buffer] is a sequence of bytes.
    - The collaborators the program only consumes (the edit service, the
      re-encoder, the metadata tool, the failures of the file system, the
      base64 decoder of [Buffer.from]) are fields of a record [Env]; their
      answers are arbitrary, and may differ from one call to the next.
    - The file system, the console and the calls made are explicit state
      ([World]); the operator is a script of menu answers. *)

From Stdlib Require Import ZArith NArith Ascii String Strings.Byte.
From stdpp Require Import base option list gmap.

Local Open Scope N_scope.

(** ** Strings and buffers *)

(** A JavaScript string: its UTF-16 code units. *)
Definition jsstring := list N.

(** A Node [Buffer]. *)
Definition Buffer := list byte.

(** The code units of an ASCII literal of the source. *)
Definition lit (s : string) : jsstring :=
  map N_of_ascii (list_ascii_of_string s).

(** [buf[i]]: the byte as a number, [None] ([undefined]) out of range. *)
Definition at_index (buf : Buffer) (i : nat) : option N :=
  Byte.to_N <$> buf !! i.

(** [x === n] for [x] a byte read with [buf[i]] and [n] a number literal. *)
Definition strict_eq (x : option N) (n : N) : bool :=
  match x with
  | Some v => N.eqb v n
  | None => false
  end.

Definition jsstring_eqb (a b : jsstring) : bool :=
  bool_decide (a = b).

(** ** Library functions of JavaScript and Node used by the program *)

(** [WhiteSpace] and [LineTerminator] of ECMAScript: the code units that
    [String.prototype.trim] removes. *)
Definition isWhiteSpaceOrLineTerminator (c : N) : bool :=
  (c =? 0x0009) || (c =? 0x000A) || (c =? 0x000B) || (c =? 0x000C) ||
  (c =? 0x000D) || (c =? 0x0020) || (c =? 0x00A0) || (c =? 0x1680) ||
  ((0x2000 <=? c) && (c <=? 0x200A)) ||
  (c =? 0x2028) || (c =? 0x2029) || (c =? 0x202F) || (c =? 0x205F) ||
  (c =? 0x3000) || (c =? 0xFEFF).

Fixpoint trimStart (s : jsstring) : jsstring :=
  match s with
  | [] => []
  | c :: rest => if isWhiteSpaceOrLineTerminator c then trimStart rest else s
  end.

Definition trimEnd (s : jsstring) : jsstring :=
  rev (trimStart (rev s)).

(** [s.trim()]. *)
Definition trim (s : jsstring) : jsstring :=
  trimEnd (trimStart s).

(** [s.toLowerCase()] on the letters A-Z.  The program only compares the
    result with the ASCII literals [".jpg"] and [".jpeg"], and no code unit
    outside A-Z lowers to one of their letters, so the comparisons of the
    source are decided by this part of the mapping. *)
Definition toLowerCase (s : jsstring) : jsstring :=
  map (fun c => if (0x41 <=? c) && (c <=? 0x5A) then c + 0x20 else c) s.

(** The loop state of Node's [path.posix.extname]. *)
Record ExtState := mkExtState {
  startDot : Z;
  startPart : Z;
  endPos : Z;
  matchedSlash : bool;
  preDotState : Z;
  stopped : bool
}.

(** One turn of the loop of [extname], at index [i] on code unit [code]. *)
Definition extname_step (st : ExtState) (i : Z) (code : N) : ExtState :=
  if stopped st then st
  else if code =? 47 (* '/' *) then
    if negb (matchedSlash st)
    then mkExtState (startDot st) (i + 1)%Z (endPos st) (matchedSlash st)
                    (preDotState st) true
    else st
  else
    let st1 :=
      if (endPos st =? -1)%Z
      then mkExtState (startDot st) (startPart st) (i + 1)%Z false
                      (preDotState st) false
      else st in
    if code =? 46 (* '.' *) then
      if (startDot st1 =? -1)%Z
      then mkExtState i (startPart st1) (endPos st1) (matchedSlash st1)
                      (preDotState st1) false
      else if negb (preDotState st1 =? 1)%Z
      then mkExtState (startDot st1) (startPart st1) (endPos st1)
                      (matchedSlash st1) 1%Z false
      else st1
    else if negb (startDot st1 =? -1)%Z
    then mkExtState (startDot st1) (startPart st1) (endPos st1)
                    (matchedSlash st1) (-1)%Z false
    else st1.

(** The loop of [extname]: [i] runs from [path.length - 1] down to [0];
    [rpath] is the path reversed and [i] the index of its head. *)
Fixpoint extname_loop (rpath : list N) (i : Z) (st : ExtState) : ExtState :=
  match rpath with
  | [] => st
  | code :: rest => extname_loop rest (i - 1)%Z (extname_step st i code)
  end.

(** [path.slice(a, b)] for [0 <= a]. *)
Definition slice (s : jsstring) (a b : Z) : jsstring :=
  take (Z.to_nat b - Z.to_nat a) (drop (Z.to_nat a) s).

(** [path.extname(p)] (POSIX flavour of Node's [path]). *)
Definition extname (p : jsstring) : jsstring :=
  let st := extname_loop (rev p) (Z.of_nat (length p) - 1)%Z
                         (mkExtState (-1) 0 (-1) true 0 false) in
  if (startDot st =? -1)%Z || (endPos st =? -1)%Z || (preDotState st =? 0)%Z ||
     ((preDotState st =? 1)%Z && (startDot st =? endPos st - 1)%Z &&
      (startDot st =? startPart st + 1)%Z)
  then []
  else slice p (startDot st) (endPos st).

(** ** Constants of the program *)

Definition MODEL_NAME : jsstring := lit "gemini-2.5-flash-image".
Definition PROMPT_TEXT : jsstring :=
  lit "Peux tu enlever le filigrane sur cette image stp".

(** ** Pure functions of the program *)

Definition isJpegFilename (filename : jsstring) : bool :=
  let ext := toLowerCase (extname filename) in
  jsstring_eqb ext (lit ".jpg") || jsstring_eqb ext (lit ".jpeg").

Definition chooseMimeTypeFromFilename (filename : jsstring) : jsstring :=
  let ext := toLowerCase (extname filename) in
  if jsstring_eqb ext (lit ".jpg") || jsstring_eqb ext (lit ".jpeg")
  then lit "image/jpeg"
  else lit "application/octet-stream".

Definition detectMimeTypeFromBuffer (buf : Buffer) : jsstring :=
  (* PNG signature: 89 50 4E 47 0D 0A 1A 0A *)
  if (8 <=? N.of_nat (length buf)) &&
     strict_eq (at_index buf 0) 0x89 &&
     strict_eq (at_index buf 1) 0x50 &&
     strict_eq (at_index buf 2) 0x4e &&
     strict_eq (at_index buf 3) 0x47 &&
     strict_eq (at_index buf 4) 0x0d &&
     strict_eq (at_index buf 5) 0x0a &&
     strict_eq (at_index buf 6) 0x1a &&
     strict_eq (at_index buf 7) 0x0a
  then lit "image/png"
  (* JPEG signature: FF D8 FF *)
  else if (3 <=? N.of_nat (length buf)) &&
          strict_eq (at_index buf 0) 0xff &&
          strict_eq (at_index buf 1) 0xd8 &&
          strict_eq (at_index buf 2) 0xff
  then lit "image/jpeg"
  else lit "application/octet-stream".

(** [buf.toString("base64")]: the standard alphabet, with padding. *)
Definition base64_alphabet : jsstring :=
  lit "ABCDEFGHIJKLMNOPQRSTUVWXYZabcdefghijklmnopqrstuvwxyz0123456789+/".

Definition base64_char (sextet : N) : N :=
  nth (N.to_nat sextet) base64_alphabet 0.

Fixpoint toString_base64 (buf : Buffer) : jsstring :=
  match buf with
  | [] => []
  | [a] =>
      let x := Byte.to_N a in
      [base64_char (N.shiftr x 2); base64_char (N.shiftl (N.land x 3) 4);
       61; 61]
  | [a; b] =>
      let x := Byte.to_N a in
      let y := Byte.to_N b in
      [base64_char (N.shiftr x 2);
       base64_char (N.lor (N.shiftl (N.land x 3) 4) (N.shiftr y 4));
       base64_char (N.shiftl (N.land y 15) 2); 61]
  | a :: b :: c :: rest =>
      let x := Byte.to_N a in
      let y := Byte.to_N b in
      let z := Byte.to_N c in
      base64_char (N.shiftr x 2) ::
      base64_char (N.lor (N.shiftl (N.land x 3) 4) (N.shiftr y 4)) ::
      base64_char (N.lor (N.shiftl (N.land y 15) 2) (N.shiftr z 6)) ::
      base64_char (N.land z 63) :: toString_base64 rest
  end.

(** ** The wire format of the edit service *)

(** A property value as the loosely typed response parsing sees it: a
    string, or anything else. *)
Inductive JsValue :=
| JsString (s : jsstring)
| JsOther.

Record InlineData := mkInlineData {
  mimeType : option jsstring;
  data : option JsValue
}.

Record Part := mkPart {
  text : option jsstring;
  inlineData : option InlineData
}.

Record Content := mkContent {
  parts : option (list (option Part))
}.

Record Candidate := mkCandidate {
  content : option Content
}.

Record GenerateContentResponse := mkResponse {
  candidates : option (list (option Candidate))
}.

Record GenerateContentParameters := mkParameters {
  model : jsstring;
  contents : list Part
}.

(** ** Errors, paths, the console *)

Record JsError := Error { message : jsstring }.

(** How a call ends: it returns, or it throws (its promise rejects). *)
Inductive Completion (A : Type) :=
| Normal (a : A)
| Throw (e : JsError).
Arguments Normal {A} a.
Arguments Throw {A} e.

Inductive Dir := INPUT_DIR | OUTPUT_DIR.

(** [path.join(dir, filename)] for a directory entry [filename]. *)
Definition Path : Type := Dir * jsstring.
Definition path_join (dir : Dir) (filename : jsstring) : Path := (dir, filename).

#[global] Instance Dir_eq_dec : EqDecision Dir.
Proof. solve_decision. Defined.

#[global] Instance Dir_countable : Countable Dir.
Proof.
  refine (inj_countable' (fun d => match d with INPUT_DIR => true | OUTPUT_DIR => false end)
                         (fun b : bool => if b then INPUT_DIR else OUTPUT_DIR) _).
  intros []; reflexivity.
Defined.

(** An [fs.Dirent]. *)
Record Dirent := mkDirent {
  name : jsstring;
  isFile : bool
}.

(** An argument of a console call: a string or a caught error. *)
Inductive ConsoleArg :=
| Str (s : jsstring)
| Err (e : JsError).

(** What the program does to the outside, in order. *)
Inductive Event :=
| EditCall (promptText : jsstring) (imageBuffer : Buffer) (mime : jsstring)
| Mkdir (dir : Dir)
| Readdir (dir : Dir)
| ReadFile (p : Path)
| WriteFile (p : Path) (contents : Buffer)
| Rm (p : Path)
| ExifWrite (src dest : Path)
| ExifEnd
| PromptMenu (filename : jsstring)
| PromptComment
| ConsoleLog (args : list ConsoleArg)
| ConsoleWarn (args : list ConsoleArg)
| ConsoleError (args : list ConsoleArg).

(** ** The collaborators *)

Record Env := mkEnv {
  (** [process.env["GEMINI_API_KEY"]] *)
  GEMINI_API_KEY : option jsstring;
  (** [Buffer.from(s, "base64")] *)
  Buffer_from_base64 : jsstring -> Buffer;
  (** [genAI.models.generateContent], at a given time *)
  generateContent : nat -> GenerateContentParameters ->
                    Completion GenerateContentResponse;
  (** [sharp(b).jpeg({ quality: 95, mozjpeg: true }).toBuffer()] *)
  sharp_jpeg : Buffer -> Completion Buffer;
  (** the failure, if any, of [fsp.mkdir], [fsp.readFile], [fsp.writeFile]
      and [fsp.rm] at a given time *)
  fsp_mkdir_error : nat -> Dir -> option JsError;
  fsp_readFile_error : nat -> Path -> option JsError;
  fsp_writeFile_error : nat -> Path -> option JsError;
  fsp_rm_error : nat -> Path -> option JsError;
  (** [fsp.readdir(dir, { withFileTypes: true })] *)
  fsp_readdir : nat -> Dir -> Completion (list Dirent);
  (** [exiftool.write(dest, {}, ["-TagsFromFile", src, "-All:All",
      "-overwrite_original"])]: the new contents of [dest], or a failure
      that leaves [dest] as it was *)
  exiftool_write : nat -> gmap Path Buffer -> Path -> Path -> Completion Buffer;
  (** [exiftool.end()] *)
  exiftool_end_error : nat -> option JsError
}.

(** ** The state of the world *)

Record World := mkWorld {
  files : gmap Path Buffer;
  events : list Event;
  clock : nat
}.

(** An operator's answer to the menu; [Comment raw] carries what the
    follow-up input prompt returns in [answers.comment]. *)
Inductive Answer :=
| Accept
| Comment (raw : option jsstring)
| Retry
| Skip.

(** ** Effectful computations *)

Definition Async (A : Type) : Type := World -> Completion A * World.

Definition ret {A} (a : A) : Async A := fun w => (Normal a, w).

Definition throw {A} (e : JsError) : Async A := fun w => (Throw e, w).

Definition bind {A B} (m : Async A) (k : A -> Async B) : Async B :=
  fun w =>
    match m w with
    | (Normal a, w1) => k a w1
    | (Throw e, w1) => (Throw e, w1)
    end.

(** [try { m } catch (err) { h err }] *)
Definition try_catch {A} (m : Async A) (h : JsError -> Async A) : Async A :=
  fun w =>
    match m w with
    | (Normal a, w1) => (Normal a, w1)
    | (Throw e, w1) => h e w1
    end.

Notation "x <- m ;; k" := (bind m (fun x => k))
  (at level 100, m at level 50, right associativity).
Notation "m ;;; k" := (bind m (fun _ => k))
  (at level 100, right associativity).

(** Record an event. *)
Definition log_event (ev : Event) (w : World) : World :=
  mkWorld (files w) (events w ++ [ev]) (clock w).

Definition emit (ev : Event) : Async unit :=
  fun w => (Normal tt, log_event ev w).

(** The time of an external call; time moves on. *)
Definition tick : Async nat :=
  fun w => (Normal (clock w), mkWorld (files w) (events w) (S (clock w))).

Definition get_files : Async (gmap Path Buffer) :=
  fun w => (Normal (files w), w).

Definition set_files (fs : gmap Path Buffer) : Async unit :=
  fun w => (Normal tt, mkWorld fs (events w) (clock w)).

Definition lift {A} (c : Completion A) : Async A :=
  fun w => (c, w).

(** [try { m } catch {}] *)
Definition swallow (m : Async unit) : Async unit :=
  try_catch m (fun _ => ret tt).

Definition console_log (args : list ConsoleArg) : Async unit :=
  emit (ConsoleLog args).
Definition console_warn (args : list ConsoleArg) : Async unit :=
  emit (ConsoleWarn args).
Definition console_error (args : list ConsoleArg) : Async unit :=
  emit (ConsoleError args).

(** The working context of the review loop: the three [let] variables of
    [processOneFile]. *)
Record Context := mkContext {
  workingBuffer : Buffer;
  workingMime : jsstring;
  currentPrompt : jsstring
}.

(** How a job, or the run, ends: it finishes (returning or throwing), or it
    waits at a prompt that the operator never answers. *)
Inductive Ending :=
| Finished (c : Completion unit)
| AwaitingOperator.

(** [String(answers.comment ?? "").trim()] *)
Definition promptComment (raw : option jsstring) : jsstring :=
  trim (default [] raw).

(** [!apiKey]: the variable is unset or empty. *)
Definition falsy (v : option jsstring) : bool :=
  match v with
  | None => true
  | Some [] => true
  | Some (_ :: _) => false
  end.

(** ** The program *)

Section Program.

Variable env : Env.

(** *** File system calls *)

Definition mkdir_recursive (dir : Dir) : Async unit :=
  t <- tick ;;
  emit (Mkdir dir) ;;;
  match fsp_mkdir_error env t dir with
  | Some e => throw e
  | None => ret tt
  end.

Definition readdir (dir : Dir) : Async (list Dirent) :=
  t <- tick ;;
  emit (Readdir dir) ;;;
  lift (fsp_readdir env t dir).

Definition readFile (p : Path) : Async Buffer :=
  t <- tick ;;
  emit (ReadFile p) ;;;
  match fsp_readFile_error env t p with
  | Some e => throw e
  | None =>
      fs <- get_files ;;
      match fs !! p with
      | Some contents => ret contents
      | None => throw (Error (lit "ENOENT: no such file or directory"))
      end
  end.

Definition writeFile (p : Path) (contents : Buffer) : Async unit :=
  t <- tick ;;
  emit (WriteFile p contents) ;;;
  match fsp_writeFile_error env t p with
  | Some e => throw e
  | None => fs <- get_files ;; set_files (<[p := contents]> fs)
  end.

(** [fsp.rm(p, { force: true })]: no error when [p] does not exist. *)
Definition rm_force (p : Path) : Async unit :=
  t <- tick ;;
  emit (Rm p) ;;;
  match fsp_rm_error env t p with
  | Some e => throw e
  | None => fs <- get_files ;; set_files (delete p fs)
  end.

(** *** [ensureDirExists], [listJpegs] *)

Definition ensureDirExists (dir : Dir) : Async unit :=
  swallow (mkdir_recursive dir).

Definition listJpegs (dir : Dir) : Async (list jsstring) :=
  entries <- readdir dir ;;
  ret (map name
         (List.filter (fun e => isFile e && isJpegFilename (name e)) entries)).

(** *** [sendImageAndGetReturnedImage] *)

(** [result.candidates?.[0]?.content?.parts ?? []] *)
Definition responseParts (result : GenerateContentResponse)
  : list (option Part) :=
  match candidates result with
  | Some cs =>
      match cs !! 0%nat with
      | Some (Some candidate) =>
          match content candidate with
          | Some c =>
              match parts c with
              | Some ps => ps
              | None => []
              end
          | None => []
          end
      | _ => []
      end
  | None => []
  end.

(** [(part as any)?.inlineData] *)
Definition inlineData_of (part : option Part) : option InlineData :=
  match part with
  | Some p => inlineData p
  | None => None
  end.

(** The [for] loop over the parts: the first part whose [inlineData] has a
    string [data] is decoded and returned; [null] when there is none. *)
Fixpoint firstInlineImage (ps : list (option Part)) : option Buffer :=
  match ps with
  | [] => None
  | part :: rest =>
      match inlineData_of part with
      | Some inline =>
          match data inline with
          | Some (JsString s) => Some (Buffer_from_base64 env s)
          | _ => firstInlineImage rest
          end
      | None => firstInlineImage rest
      end
  end.

Definition sendImageAndGetReturnedImage
    (promptText : jsstring) (imageBuffer : Buffer) (mime : jsstring)
  : Async (option Buffer) :=
  emit (EditCall promptText imageBuffer mime) ;;;
  let base64 := toString_base64 imageBuffer in
  t <- tick ;;
  result <- lift (generateContent env t
              (mkParameters MODEL_NAME
                 [mkPart (Some promptText) None;
                  mkPart None
                    (Some (mkInlineData (Some mime) (Some (JsString base64))))])) ;;
  ret (firstInlineImage (responseParts result)).

(** *** [copyAllExifFromTo] *)

Definition copyAllExifFromTo (srcPath destPath : Path) : Async unit :=
  t <- tick ;;
  emit (ExifWrite srcPath destPath) ;;;
  fs <- get_files ;;
  contents <- lift (exiftool_write env t fs srcPath destPath) ;;
  set_files (<[destPath := contents]> fs).

(** *** [processOneFile] *)

Definition initialContext (filename : jsstring) (inputBuffer : Buffer)
  : Context :=
  mkContext inputBuffer (chooseMimeTypeFromFilename filename) PROMPT_TEXT.

(** One turn of the [while (true)] loop up to the menu: the edit call, and,
    when an image came back, the re-encoding, the write and the metadata
    copy.  [None] is the early [return] of the loop. *)
Definition generateAndSave (filename : jsstring) (ctx : Context)
  : Async (option Buffer) :=
  let inputPath := path_join INPUT_DIR filename in
  let outputPath := path_join OUTPUT_DIR filename in
  returned <- sendImageAndGetReturnedImage
                (currentPrompt ctx) (workingBuffer ctx) (workingMime ctx) ;;
  match returned with
  | None =>
      console_warn [Str (lit "No image returned by model for: " ++ filename)] ;;;
      ret None
  | Some returnedBuffer =>
      jpegBuffer <- lift (sharp_jpeg env returnedBuffer) ;;
      writeFile outputPath jpegBuffer ;;;
      try_catch (copyAllExifFromTo inputPath outputPath)
        (fun err =>
           console_warn
             [Str (lit "Failed to copy EXIF for " ++ filename ++ lit ":");
              Err err]) ;;;
      ret (Some returnedBuffer)
  end.

(** The [skip] branch: both deletions, each with its error swallowed. *)
Definition skipFiles (filename : jsstring) : Async unit :=
  swallow (rm_force (path_join OUTPUT_DIR filename)) ;;;
  swallow (rm_force (path_join INPUT_DIR filename)).

(** The working context after a [comment] answer. *)
Definition commentContext (ctx : Context) (returnedBuffer : Buffer)
    (comment : jsstring) : Context :=
  mkContext returnedBuffer (detectMimeTypeFromBuffer returnedBuffer)
            (currentPrompt ctx ++ [10] ++ comment).

(** The [while (true)] loop of [processOneFile].  Each turn that reaches the
    menu consumes one answer of the operator; the answers left over are
    returned for the next job. *)
Fixpoint reviewLoop (filename : jsstring) (inputBuffer : Buffer)
    (script : list Answer) (ctx : Context) (w : World)
  : Ending * list Answer * World :=
  match generateAndSave filename ctx w with
  | (Throw e, w1) => (Finished (Throw e), script, w1)
  | (Normal None, w1) => (Finished (Normal tt), script, w1)
  | (Normal (Some returnedBuffer), w1) =>
      let w2 := log_event (PromptMenu filename) w1 in
      match script with
      | [] => (AwaitingOperator, [], w2)
      | Accept :: rest => (Finished (Normal tt), rest, w2)
      | Comment raw :: rest =>
          let comment := promptComment raw in
          reviewLoop filename inputBuffer rest
            (commentContext ctx returnedBuffer comment)
            (log_event PromptComment w2)
      | Retry :: rest =>
          reviewLoop filename inputBuffer rest
            (initialContext filename inputBuffer) w2
      | Skip :: rest =>
          let '(c, w3) := skipFiles filename w2 in
          (Finished c, rest, w3)
      end
  end.

Definition processOneFile (filename : jsstring) (script : list Answer)
    (w : World) : Ending * list Answer * World :=
  match readFile (path_join INPUT_DIR filename) w with
  | (Throw e, w1) => (Finished (Throw e), script, w1)
  | (Normal inputBuffer, w1) =>
      reviewLoop filename inputBuffer script
        (initialContext filename inputBuffer) w1
  end.

(** *** [main] *)

(** The line the batch driver prints when a job has finished: the
    [console.log] after [processOneFile], or the [console.error] of the
    [catch]. *)
Definition report (file : jsstring) (c : Completion unit) : Event :=
  match c with
  | Normal _ => ConsoleLog [Str (lit "Processed: " ++ file)]
  | Throw err =>
      ConsoleError [Str (lit "Error processing " ++ file ++ lit ":"); Err err]
  end.

(** The [for (const file of files)] loop, each job in its [try]/[catch]. *)
Fixpoint processFiles (fileList : list jsstring) (script : list Answer)
    (w : World) : Ending * list Answer * World :=
  match fileList with
  | [] => (Finished (Normal tt), script, w)
  | file :: rest =>
      match processOneFile file script w with
      | (Finished c, script1, w1) =>
          processFiles rest script1 (log_event (report file c) w1)
      | (AwaitingOperator, script1, w1) => (AwaitingOperator, script1, w1)
      end
  end.

(** The first steps of [main] once the credential is there: both
    directories, then the inventory. *)
Definition inventoryOf : Async (list jsstring) :=
  ensureDirExists INPUT_DIR ;;;
  ensureDirExists OUTPUT_DIR ;;;
  listJpegs INPUT_DIR.

Definition main (script : list Answer) (w : World)
  : Ending * list Answer * World :=
  if falsy (GEMINI_API_KEY env)
  then (Finished (Throw (Error (lit "GEMINI_API_KEY is not set"))), script, w)
  else
    match inventoryOf w with
    | (Throw e, w1) => (Finished (Throw e), script, w1)
    | (Normal fileList, w1) =>
        if (length fileList =? 0)%nat
        then (Finished (Normal tt), script,
              log_event
                (ConsoleLog [Str (lit "No JPEG files found in input folder.")])
                w1)
        else processFiles fileList script w1
    end.

(** [exiftool.end()] *)
Definition exiftool_end : Async unit :=
  t <- tick ;;
  emit ExifEnd ;;;
  match exiftool_end_error env t with
  | Some e => throw e
  | None => ret tt
  end.

(** The module's top level:
    [main().catch((err) => { console.error(err); })
           .finally(async () => { try { await exiftool.end(); } catch {} })].
    The promise of [catch] is fulfilled once its handler has returned; the
    promise of [finally] is settled as the one before it unless its callback
    throws. *)
Definition program (script : list Answer) (w : World)
  : Ending * list Answer * World :=
  match main script w with
  | (AwaitingOperator, script1, w1) => (AwaitingOperator, script1, w1)
  | (Finished c, script1, w1) =>
      let '(caught, w2) :=
        match c with
        | Normal _ => (Normal tt, w1)
        | Throw err => console_error [Err err] w1
        end in
      let '(ended, w3) := swallow exiftool_end w2 in
      (Finished match ended with
                | Throw e => Throw e
                | Normal _ => caught
                end, script1, w3)
  end.

End Program.

(** The exit code of the Node process: [0] when the top-level promise chain
    is fulfilled (the program never sets [process.exitCode]), [1] for an
    unhandled rejection; no exit while a prompt is pending. *)
Definition exitCode (e : Ending) : option Z :=
  match e with
  | Finished (Normal _) => Some 0%Z
  | Finished (Throw _) => Some 1%Z
  | AwaitingOperator => None
  end.

(** ** Reading a trace *)

(** The edit calls of a trace, in order: prompt, image, MIME type. *)
Fixpoint editCalls (evs : list Event) : list (jsstring * Buffer * jsstring) :=
  match evs with
  | [] => []
  | EditCall promptText imageBuffer mime :: rest =>
      (promptText, imageBuffer, mime) :: editCalls rest
  | _ :: rest => editCalls rest
  end.

(** The events of a job that are not console reports of the batch driver. *)
Definition isJobEvent (ev : Event) : bool :=
  match ev with
  | ConsoleLog _ | ConsoleError _ => false
  | _ => true
  end.

(** The string a part offers as inline image data, if it offers one. *)
Definition inlinePayload (part : option Part) : option jsstring :=
  match inlineData_of part with
  | Some inline =>
      match data inline with
      | Some (JsString s) => Some s
      | _ => None
      end
  | None => None
  end.

Definition PNG_SIGNATURE : Buffer := [x89; x50; x4e; x47; x0d; x0a; x1a; x0a].
Definition JPEG_SOI : Buffer := [xff; xd8; xff].

(** The first condition of [detectMimeTypeFromBuffer]. *)
Definition pngTest (buf : Buffer) : bool :=
  (8 <=? N.of_nat (length buf)) &&
  strict_eq (at_index buf 0) 0x89 && strict_eq (at_index buf 1) 0x50 &&
  strict_eq (at_index buf 2) 0x4e && strict_eq (at_index buf 3) 0x47 &&
  strict_eq (at_index buf 4) 0x0d && strict_eq (at_index buf 5) 0x0a &&
  strict_eq (at_index buf 6) 0x1a && strict_eq (at_index buf 7) 0x0a.

(** Its second condition. *)
Definition jpegTest (buf : Buffer) : bool :=
  (3 <=? N.of_nat (length buf)) &&
  strict_eq (at_index buf 0) 0xff && strict_eq (at_index buf 1) 0xd8 &&
  strict_eq (at_index buf 2) 0xff.

(** A code unit that [trim] removes. *)
Definition blank (c : N) : Prop := isWhiteSpaceOrLineTerminator c = true.

(** [emits P m]: running [m] only adds events to the trace, all of them
    satisfying [P]. *)
Definition emits {A} (P : Event -> Prop) (m : Async A) : Prop :=
  forall w, exists new,
    events (snd (m w)) = events w ++ new /\ Forall P new.

(** An event that is not a report of the batch driver. *)
Definition jobEvent (ev : Event) : Prop := isJobEvent ev = true.

(** A job event other than an edit call. *)
Definition isQuietEvent (ev : Event) : bool :=
  match ev with
  | ConsoleLog _ | ConsoleError _ | EditCall _ _ _ => false
  | _ => true
  end.

Definition quietEvent (ev : Event) : Prop := isQuietEvent ev = true.

(** [CommentRounds env filename ctx w raws ctx' w']: starting from the
    working context [ctx] in the world [w], each of the comments [raws] in
    turn answers a turn of the loop that reached the menu; [ctx'] and [w']
    are the working context and the world in which the next turn starts. *)
Inductive CommentRounds (env : Env) (filename : jsstring)
  : Context -> World -> list (option jsstring) -> Context -> World -> Prop :=
| rounds_done ctx w : CommentRounds env filename ctx w [] ctx w
| rounds_more ctx w returned w1 raw raws ctx' w' :
    generateAndSave env filename ctx w = (Normal (Some returned), w1) ->
    CommentRounds env filename
      (commentContext ctx returned (promptComment raw))
      (log_event PromptComment (log_event (PromptMenu filename) w1))
      raws ctx' w' ->
    CommentRounds env filename ctx w (raw :: raws) ctx' w'.

(** The prompt after a series of comments. *)
Definition withComments (prompt : jsstring) (raws : list (option jsstring))
  : jsstring :=
  foldl (fun p raw => p ++ [10] ++ promptComment raw) prompt raws.

(** The file system after [fsp.rm(p, { force: true })] inside
    [try { ... } catch {}]: [p] is gone unless the call failed. *)
Definition removed (failure : option JsError) (p : Path)
    (fs : gmap Path Buffer) : gmap Path Buffer :=
  match failure with
  | Some _ => fs
  | None => delete p fs
  end.

(** The reports of the batch driver in a trace. *)
Definition reports (evs : list Event) : list Event :=
  List.filter (fun ev => negb (isJobEvent ev)) evs.

(** ** Concrete collaborators, for running the program *)

Module Scenario.

(** A decoder of RFC 4648 base64: symbols outside the alphabet are skipped,
    decoding stops at the padding. *)
Fixpoint index_in (c : N) (alphabet : list N) (i : N) : option N :=
  match alphabet with
  | [] => None
  | a :: rest => if c =? a then Some i else index_in c rest (i + 1)
  end.

Fixpoint sextets (s : jsstring) : list N :=
  match s with
  | [] => []
  | c :: rest =>
      if c =? 61 then []
      else match index_in c base64_alphabet 0 with
           | Some v => v :: sextets rest
           | None => sextets rest
           end
  end.

Definition octet (n : N) : byte :=
  default x00 (Byte.of_N (N.land n 255)).

Fixpoint octets (fuel : nat) (l : list N) : Buffer :=
  match fuel with
  | O => []
  | S fuel' =>
      match l with
      | a :: b :: c :: d :: rest =>
          octet (N.lor (N.shiftl a 2) (N.shiftr b 4)) ::
          octet (N.lor (N.shiftl b 4) (N.shiftr c 2)) ::
          octet (N.lor (N.shiftl c 6) d) :: octets fuel' rest
      | [a; b; c] =>
          [octet (N.lor (N.shiftl a 2) (N.shiftr b 4));
           octet (N.lor (N.shiftl b 4) (N.shiftr c 2))]
      | [a; b] => [octet (N.lor (N.shiftl a 2) (N.shiftr b 4))]
      | _ => []
      end
  end.

Definition decode_base64 (s : jsstring) : Buffer :=
  octets (length s) (sextets s).

(** The input file [a.jpg] (a JPEG header) and a second file [b.jpeg]. *)
Definition a_jpg : jsstring := lit "a.jpg".
Definition b_jpeg : jsstring := lit "b.jpeg".
Definition original : Buffer := [xff; xd8; xff; xe0; x00; x10].

(** The image the service returns at time [t]: a PNG header and a byte that
    tells the calls apart. *)
Definition edited (t : nat) : Buffer :=
  PNG_SIGNATURE ++ [octet (N.of_nat t)].

(** A response with a text part followed by an inline image. *)
Definition imageResponse (image : Buffer) : GenerateContentResponse :=
  mkResponse (Some [Some (mkCandidate (Some (mkContent (Some
    [Some (mkPart (Some (lit "Here is the image")) None);
     Some (mkPart None
             (Some (mkInlineData (Some (lit "image/png"))
                      (Some (JsString (toString_base64 image))))))]))))]).

(** A response with text only. *)
Definition textResponse : GenerateContentResponse :=
  mkResponse (Some [Some (mkCandidate (Some (mkContent (Some
    [Some (mkPart (Some (lit "I cannot edit this image")) None)]))))]).

Definition serviceWithImage (t : nat) (_ : GenerateContentParameters)
  : Completion GenerateContentResponse :=
  Normal (imageResponse (edited t)).

Definition serviceWithoutImage (t : nat) (_ : GenerateContentParameters)
  : Completion GenerateContentResponse :=
  Normal textResponse.

(** The re-encoder: a JPEG header in front of the bytes it was given. *)
Definition reencode (b : Buffer) : Completion Buffer :=
  Normal (JPEG_SOI ++ b).

(** The metadata tool: the destination with a trailer, when both files
    exist. *)
Definition exifCopies (_ : nat) (fs : gmap Path Buffer) (src dest : Path)
  : Completion Buffer :=
  match fs !! src, fs !! dest with
  | Some _, Some d => Normal (d ++ [x45])
  | _, _ => Throw (Error (lit "File not found"))
  end.

Definition exifFails (_ : nat) (_ : gmap Path Buffer) (_ _ : Path)
  : Completion Buffer :=
  Throw (Error (lit "exiftool: spawn ENOENT")).

Definition never {A} (_ : nat) (_ : A) : option JsError := None.

Definition always {A} (code : string) (_ : nat) (_ : A) : option JsError :=
  Some (Error (lit code)).

Definition inventory (_ : nat) (_ : Dir) : Completion (list Dirent) :=
  Normal [mkDirent a_jpg true; mkDirent (lit "c.png") true;
          mkDirent (lit "d.jpg") false; mkDirent b_jpeg true].

(** Everything works. *)
Definition healthy : Env :=
  mkEnv (Some (lit "secret")) decode_base64 serviceWithImage reencode
        never never never never inventory exifCopies (fun _ => None).

(** The credential is missing. *)
Definition noKey : Env :=
  mkEnv None decode_base64 serviceWithImage reencode
        never never never never inventory exifCopies (fun _ => None).

(** The service answers with text only. *)
Definition noImage : Env :=
  mkEnv (Some (lit "secret")) decode_base64 serviceWithoutImage reencode
        never never never never inventory exifCopies (fun _ => None).

(** Deleting a file fails. *)
Definition rmFails : Env :=
  mkEnv (Some (lit "secret")) decode_base64 serviceWithImage reencode
        never never never (always "EPERM: operation not permitted")
        inventory exifCopies (fun _ => None).

(** Writing a file fails. *)
Definition writeFails : Env :=
  mkEnv (Some (lit "secret")) decode_base64 serviceWithImage reencode
        never never (always "ENOSPC: no space left on device") never
        inventory exifCopies (fun _ => None).

(** The metadata tool fails. *)
Definition exifBroken : Env :=
  mkEnv (Some (lit "secret")) decode_base64 serviceWithImage reencode
        never never never never inventory exifFails (fun _ => None).

(** The file system at startup: the two input files, no output. *)
Definition start : World :=
  mkWorld (<[path_join INPUT_DIR a_jpg := original]>
             (<[path_join INPUT_DIR b_jpeg := original]> ∅)) [] 0.

End Scenario.

(** ** Further definitions for stating properties *)

(** The request [sendImageAndGetReturnedImage] hands to [generateContent]. *)
Definition editRequest (promptText : jsstring) (imageBuffer : Buffer)
    (mime : jsstring) : GenerateContentParameters :=
  mkParameters MODEL_NAME
    [mkPart (Some promptText) None;
     mkPart None
       (Some (mkInlineData (Some mime)
                (Some (JsString (toString_base64 imageBuffer)))))].

(** The warnings of a turn. *)
Definition noImageWarningFor (filename : jsstring) : Event :=
  ConsoleWarn [Str (lit "No image returned by model for: " ++ filename)].

Definition exifWarningFor (filename : jsstring) (err : JsError) : Event :=
  ConsoleWarn
    [Str (lit "Failed to copy EXIF for " ++ filename ++ lit ":"); Err err].

(** More collaborators that fail. *)
Module Faults.

(** The edit service is down. *)
Definition serviceDown : Env :=
  mkEnv (Some (lit "secret")) Scenario.decode_base64
        (fun _ _ => Throw (Error (lit "503 Service Unavailable")))
        Scenario.reencode Scenario.never Scenario.never Scenario.never
        Scenario.never Scenario.inventory Scenario.exifCopies (fun _ => None).

(** The re-encoder rejects what it is given. *)
Definition reencodeFails : Env :=
  mkEnv (Some (lit "secret")) Scenario.decode_base64 Scenario.serviceWithImage
        (fun _ => Throw (Error (lit "Input buffer contains unsupported image format")))
        Scenario.never Scenario.never Scenario.never Scenario.never
        Scenario.inventory Scenario.exifCopies (fun _ => None).

(** The input directory cannot be read. *)
Definition noDirectory : Env :=
  mkEnv (Some (lit "secret")) Scenario.decode_base64 Scenario.serviceWithImage
        Scenario.reencode Scenario.never Scenario.never Scenario.never
        Scenario.never
        (fun _ _ => Throw (Error (lit "EACCES: permission denied, scandir")))
        Scenario.exifCopies (fun _ => None).

(** The input directory holds no JPEG file. *)
Definition emptyInventory : Env :=
  mkEnv (Some (lit "secret")) Scenario.decode_base64 Scenario.serviceWithImage
        Scenario.reencode Scenario.never Scenario.never Scenario.never
        Scenario.never
        (fun _ _ => Normal [mkDirent (lit "notes.txt") true;
                            mkDirent (lit "old.jpg") false])
        Scenario.exifCopies (fun _ => None).

(** Creating the directories and shutting the metadata tool down fail. *)
Definition clumsy : Env :=
  mkEnv (Some (lit "secret")) Scenario.decode_base64 Scenario.serviceWithImage
        Scenario.reencode (Scenario.always "EEXIST: file already exists")
        Scenario.never Scenario.never Scenario.never Scenario.inventory
        Scenario.exifCopies
        (fun _ => Some (Error (lit "exiftool: process already ended"))).

End Faults.

(** What one job may do: the edit calls, the reading of its input file, the
    writing of its output file, the metadata copy between the two, their
    deletion, the two prompts and the warnings. *)
Definition isJobEventOf (filename : jsstring) (ev : Event) : bool :=
  match ev with
  | EditCall _ _ _ | PromptComment | ConsoleWarn _ => true
  | ReadFile p => bool_decide (p = path_join INPUT_DIR filename)
  | WriteFile p _ => bool_decide (p = path_join OUTPUT_DIR filename)
  | ExifWrite s d =>
      bool_decide (s = path_join INPUT_DIR filename) &&
      bool_decide (d = path_join OUTPUT_DIR filename)
  | Rm p =>
      bool_decide (p = path_join OUTPUT_DIR filename) ||
      bool_decide (p = path_join INPUT_DIR filename)
  | PromptMenu f => bool_decide (f = filename)
  | Mkdir _ | Readdir _ | ExifEnd | ConsoleLog _ | ConsoleError _ => false
  end.

Definition jobEventOf (filename : jsstring) (ev : Event) : Prop :=
  isJobEventOf filename ev = true.

(** An answer that ends the job. *)
Definition stops (a : Answer) : bool :=
  match a with
  | Accept | Skip => true
  | Comment _ | Retry => false
  end.

(** The two lineages of an edit call of a job on [filename] with input
    [inputBuffer]: the original image with the base prompt and the MIME type
    of the file name, or an image with the base prompt followed by at least
    one comment and the MIME type sniffed from that image. *)
Definition lineage (filename : jsstring) (inputBuffer : Buffer)
    (call : jsstring * Buffer * jsstring) : Prop :=
  let '(promptText, image, mime) := call in
  (promptText = PROMPT_TEXT /\ image = inputBuffer /\
   mime = chooseMimeTypeFromFilename filename) \/
  (exists raws, raws <> [] /\
     promptText = withComments PROMPT_TEXT raws /\
     mime = detectMimeTypeFromBuffer image).

(** ** The single-shot variant of the program

    The second [index.ts] of the repository: the same tool without the menu.
    Its [sendImageAndGetReturnedImage] takes the file name and always sends
    [PROMPT_TEXT]; its [processOneFile] makes one edit call and saves the
    result.  [isJpegFilename], [ensureDirExists],
    [chooseMimeTypeFromFilename], [listJpegs], [copyAllExifFromTo], [main]
    and the top level are as in the interactive variant. *)

Module SingleShot.

Section Program.

Variable env : Env.

Definition sendImageAndGetReturnedImage
    (filename : jsstring) (imageBuffer : Buffer) : Async (option Buffer) :=
  let base64 := toString_base64 imageBuffer in
  let mime := chooseMimeTypeFromFilename filename in
  emit (EditCall PROMPT_TEXT imageBuffer mime) ;;;
  t <- tick ;;
  result <- lift (generateContent env t
              (mkParameters MODEL_NAME
                 [mkPart (Some PROMPT_TEXT) None;
                  mkPart None
                    (Some (mkInlineData (Some mime) (Some (JsString base64))))])) ;;
  ret (firstInlineImage env (responseParts result)).

Definition processOneFile (filename : jsstring) : Async unit :=
  let inputPath := path_join INPUT_DIR filename in
  let outputPath := path_join OUTPUT_DIR filename in
  inputBuffer <- readFile env inputPath ;;
  returned <- sendImageAndGetReturnedImage filename inputBuffer ;;
  match returned with
  | None =>
      console_warn [Str (lit "No image returned by model for: " ++ filename)]
  | Some returnedBuffer =>
      jpegBuffer <- lift (sharp_jpeg env returnedBuffer) ;;
      writeFile env outputPath jpegBuffer ;;;
      try_catch (copyAllExifFromTo env inputPath outputPath)
        (fun err =>
           console_warn
             [Str (lit "Failed to copy EXIF for " ++ filename ++ lit ":");
              Err err])
  end.

(** The [for (const file of files)] loop, each job in its [try]/[catch]. *)
Fixpoint processFiles (fileList : list jsstring) : Async unit :=
  match fileList with
  | [] => ret tt
  | file :: rest =>
      try_catch
        (processOneFile file ;;;
         console_log [Str (lit "Processed: " ++ file)])
        (fun err =>
           console_error
             [Str (lit "Error processing " ++ file ++ lit ":"); Err err]) ;;;
      processFiles rest
  end.

Definition main : Async unit :=
  if falsy (GEMINI_API_KEY env)
  then throw (Error (lit "GEMINI_API_KEY is not set"))
  else
    fileList <- inventoryOf env ;;
    if (length fileList =? 0)%nat
    then console_log [Str (lit "No JPEG files found in input folder.")]
    else processFiles fileList.

(** [main().catch((err) => { console.error(err); })
           .finally(async () => { try { await exiftool.end(); } catch {} })] *)
Definition program : Async unit :=
  try_catch main (fun err => console_error [Err err]) ;;;
  swallow (exiftool_end env).

End Program.

End SingleShot.

(** A trace without the menus and the comment prompts. *)
Definition withoutPrompts (evs : list Event) : list Event :=
  List.filter
    (fun ev => match ev with
               | PromptMenu _ | PromptComment => false
               | _ => true
               end) evs.

(** Two worlds that differ at most in the prompts of their traces. *)
Definition samePrompts (w1 w2 : World) : Prop :=
  files w1 = files w2 /\ clock w1 = clock w2 /\
  withoutPrompts (events w1) = withoutPrompts (events w2).

(** What the loop of [extname] maintains on a name of length [n] without
    ['/'], before it looks at index [i]: the extension ends at the end of the
    name, the dot found, if any, is to the right of [i], and [preDotState]
    is still 0 exactly as long as nothing was seen to the left of the dot. *)
Definition extInv (n : Z) (st : ExtState) (i : Z) : Prop :=
  stopped st = false /\ startPart st = 0%Z /\
  (endPos st = (-1)%Z -> i = (n - 1)%Z /\ startDot st = (-1)%Z) /\
  (endPos st <> (-1)%Z -> endPos st = n) /\
  (startDot st = (-1)%Z -> preDotState st = 0%Z) /\
  (startDot st <> (-1)%Z -> (i < startDot st < n)%Z /\ endPos st = n) /\
  (startDot st = (i + 1)%Z -> preDotState st = 0%Z).

(** The part of a trace that belongs to one job of the batch: what the job
    did, then the report of the batch driver. *)
Definition jobBlock (file : jsstring) (s : list Event * Completion unit)
  : list Event :=
  fst s ++ [report file (snd s)].

(** * Properties *)

(** ** The model on samples *)

Example extname_samples :
  extname (lit "a.JPG") = lit ".JPG" /\ extname (lit "b.jpeg") = lit ".jpeg" /\
  extname (lit "d") = [] /\ extname (lit ".bashrc") = [] /\
  extname (lit "x.tar.gz") = lit ".gz" /\ extname (lit "..") = [] /\
  extname (lit "a.") = lit "." /\ extname (lit "dir.d/file") = [] /\
  extname (lit "a.b/") = lit ".b".
Proof. vm_compute. repeat split. Qed.

Example trim_samples :
  trim (lit "  make it brighter ") = lit "make it brighter" /\
  trim (lit "   ") = [] /\ trim (lit "a b") = lit "a b".
Proof. vm_compute. repeat split. Qed.

Example detect_samples :
  detectMimeTypeFromBuffer [x89; x50; x4e; x47; x0d; x0a; x1a; x0a; x00]
    = lit "image/png" /\
  detectMimeTypeFromBuffer [xff; xd8; xff; xe0] = lit "image/jpeg" /\
  detectMimeTypeFromBuffer [x89; x50; x4e; x47] = lit "application/octet-stream" /\
  detectMimeTypeFromBuffer [] = lit "application/octet-stream".
Proof. vm_compute. repeat split. Qed.

Example base64_samples :
  toString_base64 [x4d; x61; x6e] = lit "TWFu" /\
  toString_base64 [x4d; x61] = lit "TWE=" /\
  toString_base64 [x4d] = lit "TQ==" /\
  Scenario.decode_base64 (lit "TWFu") = [x4d; x61; x6e] /\
  Scenario.decode_base64 (lit "TQ==") = [x4d].
Proof. vm_compute. repeat split. Qed.

(** ** The format sniffer *)

Lemma strict_eq_at (buf : Buffer) (i : nat) (n : N) (c : byte) :
  Byte.of_N n = Some c ->
  strict_eq (at_index buf i) n = true <-> buf !! i = Some c.
Proof.
  intros Hc. unfold at_index.
  destruct (buf !! i) as [b|]; simpl; [|split; discriminate].
  rewrite N.eqb_eq. split.
  - intros <-. rewrite Byte.of_to_N in Hc. congruence.
  - intros [= ->]. now apply Byte.to_of_N.
Qed.

Lemma detect_unfold (buf : Buffer) :
  detectMimeTypeFromBuffer buf =
    if pngTest buf then lit "image/png"
    else if jpegTest buf then lit "image/jpeg"
    else lit "application/octet-stream".
Proof. reflexivity. Qed.

Ltac split_tests H :=
  repeat (let H' := fresh H in apply andb_prop in H as [H H']).

Lemma pngTest_true (buf : Buffer) :
  pngTest buf = true <-> take 8 buf = PNG_SIGNATURE.
Proof.
  unfold pngTest, PNG_SIGNATURE. split.
  - intros H. split_tests H.
    rewrite strict_eq_at in H0, H1, H2, H3, H4, H5, H6, H7 by reflexivity.
    do 8 (destruct buf as [|? buf]; [discriminate|]).
    simpl in *. rewrite take_0. congruence.
  - intros H.
    do 8 (destruct buf as [|? buf]; [discriminate|]).
    simpl in H. rewrite take_0 in H. injection H as -> -> -> -> -> -> -> ->.
    repeat (apply andb_true_intro; split); try reflexivity.
    apply N.leb_le. simpl length. lia.
Qed.

Lemma jpegTest_true (buf : Buffer) :
  jpegTest buf = true <-> take 3 buf = JPEG_SOI.
Proof.
  unfold jpegTest, JPEG_SOI. split.
  - intros H. split_tests H.
    rewrite strict_eq_at in H0, H1, H2 by reflexivity.
    do 3 (destruct buf as [|? buf]; [discriminate|]).
    simpl in *. rewrite take_0. congruence.
  - intros H.
    do 3 (destruct buf as [|? buf]; [discriminate|]).
    simpl in H. rewrite take_0 in H. injection H as -> -> ->.
    repeat (apply andb_true_intro; split); try reflexivity.
    apply N.leb_le. simpl length. lia.
Qed.

(** C9. [detectMimeTypeFromBuffer] (the spec's [classify]) answers
    ["image/png"] exactly for the buffers of at least 8 bytes whose first 8
    bytes are the PNG signature, ["image/jpeg"] for the buffers whose first
    3 bytes are FF D8 FF, and ["application/octet-stream"] for all others;
    a buffer shorter than 8 bytes is never PNG, whatever prefix it shares
    with the signature, and the empty buffer is unknown.  Being a function
    of the buffer alone, it is pure and total. *)
Theorem detectMimeType_classifies (buf : Buffer) :
  (detectMimeTypeFromBuffer buf = lit "image/png" <->
     (8 <= length buf)%nat /\ take 8 buf = PNG_SIGNATURE) /\
  (take 3 buf = JPEG_SOI -> detectMimeTypeFromBuffer buf = lit "image/jpeg") /\
  (take 8 buf <> PNG_SIGNATURE -> take 3 buf <> JPEG_SOI ->
     detectMimeTypeFromBuffer buf = lit "application/octet-stream") /\
  ((length buf < 8)%nat -> detectMimeTypeFromBuffer buf <> lit "image/png") /\
  detectMimeTypeFromBuffer [] = lit "application/octet-stream" /\
  (detectMimeTypeFromBuffer buf = lit "image/png" \/
   detectMimeTypeFromBuffer buf = lit "image/jpeg" \/
   detectMimeTypeFromBuffer buf = lit "application/octet-stream").
Proof.
  rewrite detect_unfold.
  pose proof (pngTest_true buf) as Hpng.
  pose proof (jpegTest_true buf) as Hjpeg.
  assert (Hlen : take 8 buf = PNG_SIGNATURE -> (8 <= length buf)%nat).
  { intros H. apply (f_equal length) in H. rewrite length_take in H.
    change (length PNG_SIGNATURE) with 8%nat in H. lia. }
  assert (Hexcl : take 8 buf = PNG_SIGNATURE -> take 3 buf = JPEG_SOI -> False).
  { unfold PNG_SIGNATURE, JPEG_SOI. intros H8 H3.
    destruct buf as [|b0 [|b1 [|b2 buf]]]; try discriminate.
    simpl in H8, H3. congruence. }
  destruct (pngTest buf) eqn:Ep.
  - assert (Hsig : take 8 buf = PNG_SIGNATURE) by now apply Hpng.
    refine (conj _ (conj _ (conj _ (conj _ (conj _ _))))).
    + split; [intros _; split; [now apply Hlen | exact Hsig] | reflexivity].
    + intros H3. destruct (Hexcl Hsig H3).
    + intros H. destruct (H Hsig).
    + intros Hshort. specialize (Hlen Hsig). lia.
    + reflexivity.
    + now left.
  - assert (Hnot : take 8 buf <> PNG_SIGNATURE).
    { intros H. apply Hpng in H. discriminate. }
    destruct (jpegTest buf) eqn:Ej.
    + refine (conj _ (conj _ (conj _ (conj _ (conj _ _))))).
      * split; [discriminate | intros [_ H]; destruct (Hnot H)].
      * reflexivity.
      * intros _ H. exfalso. apply H. now apply Hjpeg.
      * intros _. discriminate.
      * reflexivity.
      * right. now left.
    + refine (conj _ (conj _ (conj _ (conj _ (conj _ _))))).
      * split; [discriminate | intros [_ H]; destruct (Hnot H)].
      * intros H. apply Hjpeg in H. discriminate.
      * reflexivity.
      * intros _. discriminate.
      * reflexivity.
      * right. now right.
Qed.

Lemma detectMimeType_classifies_witness :
  detectMimeTypeFromBuffer (PNG_SIGNATURE ++ [x00; x01]) = lit "image/png" /\
  detectMimeTypeFromBuffer [xff; xd8; xff; xe0] = lit "image/jpeg" /\
  detectMimeTypeFromBuffer [x47; x49; x46] = lit "application/octet-stream" /\
  detectMimeTypeFromBuffer [x89; x50; x4e; x47; x0d; x0a; x1a] <> lit "image/png".
Proof.
  split; [|split; [|split]].
  - apply (detectMimeType_classifies (PNG_SIGNATURE ++ [x00; x01])).
    split; [simpl; lia | reflexivity].
  - apply (detectMimeType_classifies [xff; xd8; xff; xe0]). reflexivity.
  - apply (detectMimeType_classifies [x47; x49; x46]); discriminate.
  - apply (detectMimeType_classifies [x89; x50; x4e; x47; x0d; x0a; x1a]).
    simpl. lia.
Defined.

(** ** The comment prompt *)

Lemma trimStart_split (s : jsstring) :
  exists pre, s = pre ++ trimStart s /\ Forall blank pre.
Proof.
  induction s as [|c s [pre [Hs Hpre]]]; simpl.
  - exists []. split; [reflexivity | constructor].
  - destruct (isWhiteSpaceOrLineTerminator c) eqn:Ec.
    + exists (c :: pre). split; [simpl; congruence | now constructor].
    + exists []. split; [reflexivity | constructor].
Qed.

Lemma trimStart_head (s : jsstring) (c : N) :
  head (trimStart s) = Some c -> isWhiteSpaceOrLineTerminator c = false.
Proof.
  induction s as [|a s IH]; simpl; [discriminate|].
  destruct (isWhiteSpaceOrLineTerminator a) eqn:Ea; [exact IH|].
  simpl. congruence.
Qed.

Lemma trimStart_blank (s : jsstring) :
  Forall blank s -> trimStart s = [].
Proof.
  induction 1 as [|c s Hc _ IH]; simpl; [reflexivity|].
  now rewrite Hc.
Qed.

Lemma last_rev {A} (l : list A) : last (rev l) = head l.
Proof.
  destruct l as [|a l]; [reflexivity|].
  simpl. apply last_snoc.
Qed.

Lemma trim_split (s : jsstring) :
  exists pre post,
    s = pre ++ trim s ++ post /\ Forall blank pre /\ Forall blank post.
Proof.
  destruct (trimStart_split s) as [pre [Hs Hpre]].
  destruct (trimStart_split (rev (trimStart s))) as [q [Hq Hblank]].
  exists pre, (rev q). repeat split; [|exact Hpre|now apply List.Forall_rev].
  unfold trim, trimEnd. rewrite <- rev_app_distr, <- Hq, rev_involutive.
  exact Hs.
Qed.

Lemma trim_head (s : jsstring) (c : N) :
  head (trim s) = Some c -> isWhiteSpaceOrLineTerminator c = false.
Proof.
  intros H. apply (trimStart_head s).
  destruct (trimStart_split (rev (trimStart s))) as [q [Hq _]].
  apply (f_equal (@rev N)) in Hq.
  rewrite rev_involutive, rev_app_distr in Hq.
  fold (trimEnd (trimStart s)) in Hq. fold (trim s) in Hq.
  rewrite Hq. destruct (trim s); [discriminate | exact H].
Qed.

Lemma trim_last (s : jsstring) (c : N) :
  last (trim s) = Some c -> isWhiteSpaceOrLineTerminator c = false.
Proof.
  unfold trim, trimEnd. rewrite last_rev. apply trimStart_head.
Qed.

Lemma trim_blank (s : jsstring) : Forall blank s -> trim s = [].
Proof.
  intros H. unfold trim. now rewrite (trimStart_blank s H).
Qed.

(** ** The edit client's reading of a response *)

Section EditClient.

Variable env : Env.

Lemma firstInlineImage_cons (part : option Part) (rest : list (option Part)) :
  firstInlineImage env (part :: rest) =
    match inlinePayload part with
    | Some s => Some (Buffer_from_base64 env s)
    | None => firstInlineImage env rest
    end.
Proof.
  unfold inlinePayload. simpl.
  destruct (inlineData_of part) as [inline|]; [|reflexivity].
  destruct (data inline) as [[s|]|]; reflexivity.
Qed.

Lemma firstInlineImage_None (ps : list (option Part)) :
  firstInlineImage env ps = None <->
  Forall (fun q => inlinePayload q = None) ps.
Proof.
  induction ps as [|p ps IH].
  - split; [constructor | reflexivity].
  - rewrite firstInlineImage_cons, Forall_cons.
    destruct (inlinePayload p) as [s|]; [|tauto].
    split; [discriminate | intros [H _]; discriminate].
Qed.

Lemma firstInlineImage_Some (ps : list (option Part)) (b : Buffer) :
  firstInlineImage env ps = Some b <->
  exists pre p post s,
    ps = pre ++ p :: post /\
    Forall (fun q => inlinePayload q = None) pre /\
    inlinePayload p = Some s /\
    b = Buffer_from_base64 env s.
Proof.
  revert b. induction ps as [|p ps IH]; intros b.
  - split; [discriminate|].
    intros (pre & q & post & s & H & _). destruct pre; discriminate.
  - rewrite firstInlineImage_cons.
    destruct (inlinePayload p) as [s|] eqn:Ep.
    + split.
      * intros [= <-]. exists [], p, ps, s. repeat split; auto.
      * intros (pre & q & post & s' & H & Hpre & Hq & ->).
        destruct pre as [|p' pre]; simpl in H; injection H as -> ->.
        -- congruence.
        -- apply Forall_cons in Hpre as [Hp _]. congruence.
    + rewrite IH. split.
      * intros (pre & q & post & s & -> & Hpre & Hq & ->).
        exists (p :: pre), q, post, s. repeat split; auto.
      * intros (pre & q & post & s & H & Hpre & Hq & ->).
        destruct pre as [|p' pre]; simpl in H; injection H as -> ->.
        -- congruence.
        -- apply Forall_cons in Hpre as [_ Hpre].
           exists pre, q, post, s. repeat split; auto.
Qed.

(** The request that [sendImageAndGetReturnedImage] sends. *)
Lemma sendImage_unfold (promptText : jsstring) (imageBuffer : Buffer)
    (mime : jsstring) (w : World) :
  sendImageAndGetReturnedImage env promptText imageBuffer mime w =
    let w1 := mkWorld (files w)
                (events w ++ [EditCall promptText imageBuffer mime])
                (S (clock w)) in
    match generateContent env (clock w)
            (mkParameters MODEL_NAME
               [mkPart (Some promptText) None;
                mkPart None
                  (Some (mkInlineData (Some mime)
                           (Some (JsString (toString_base64 imageBuffer)))))])
    with
    | Normal result => (Normal (firstInlineImage env (responseParts result)), w1)
    | Throw e => (Throw e, w1)
    end.
Proof.
  unfold sendImageAndGetReturnedImage, bind, emit, tick, lift, ret, log_event.
  simpl. destruct (generateContent env _ _); reflexivity.
Qed.

(** C8. Whatever the edit service answers, the edit client returns what the
    parts of the first candidate give, read in order: the decoded bytes of
    the first part that has an [inlineData] with a string [data], and no
    image when the response has no candidate, the first candidate no
    content, the content no parts, or no part such a payload.  Candidates
    after the first are never looked at. *)
Theorem edit_client_returns_first_inline_image
    (promptText : jsstring) (imageBuffer : Buffer) (mime : jsstring)
    (w : World) (result : GenerateContentResponse) :
  generateContent env (clock w)
    (mkParameters MODEL_NAME
       [mkPart (Some promptText) None;
        mkPart None
          (Some (mkInlineData (Some mime)
                   (Some (JsString (toString_base64 imageBuffer)))))])
    = Normal result ->
  let returned :=
    fst (sendImageAndGetReturnedImage env promptText imageBuffer mime w) in
  (forall b, returned = Normal (Some b) <->
     exists pre p post s,
       responseParts result = pre ++ p :: post /\
       Forall (fun q => inlinePayload q = None) pre /\
       inlinePayload p = Some s /\
       b = Buffer_from_base64 env s) /\
  (returned = Normal None <->
     Forall (fun q => inlinePayload q = None) (responseParts result)) /\
  (candidates result = None -> returned = Normal None) /\
  (candidates result = Some [] -> returned = Normal None) /\
  (forall first others,
     candidates result = Some (first :: others) ->
     responseParts result = responseParts (mkResponse (Some [first])) /\
     (first = None -> returned = Normal None) /\
     (forall candidate, first = Some candidate ->
        (content candidate = None -> returned = Normal None) /\
        (forall c, content candidate = Some c ->
           responseParts result = default [] (parts c)))).
Proof.
  intros Hcall returned. subst returned.
  rewrite sendImage_unfold, Hcall. simpl.
  refine (conj _ (conj _ (conj _ (conj _ _)))).
  - intros b. rewrite <- firstInlineImage_Some.
    split; [now intros [= ->] | now intros ->].
  - rewrite <- firstInlineImage_None.
    split; [now intros [= ->] | now intros ->].
  - intros H. unfold responseParts. now rewrite H.
  - intros H. unfold responseParts. now rewrite H.
  - intros first others H. unfold responseParts. rewrite H. simpl.
    split; [reflexivity|]. split.
    + now intros ->.
    + intros candidate ->. split.
      * now intros ->.
      * intros c ->. now destruct (parts c).
Qed.

End EditClient.

Lemma edit_client_returns_first_inline_image_witness :
  fst (sendImageAndGetReturnedImage Scenario.healthy PROMPT_TEXT
         Scenario.original (lit "image/jpeg") Scenario.start)
    = Normal (Some (Scenario.edited 0)) /\
  fst (sendImageAndGetReturnedImage Scenario.noImage PROMPT_TEXT
         Scenario.original (lit "image/jpeg") Scenario.start)
    = Normal None.
Proof.
  split.
  - apply (edit_client_returns_first_inline_image Scenario.healthy PROMPT_TEXT
             Scenario.original (lit "image/jpeg") Scenario.start
             (Scenario.imageResponse (Scenario.edited 0)) eq_refl).
    exists [Some (mkPart (Some (lit "Here is the image")) None)],
      (Some (mkPart None
               (Some (mkInlineData (Some (lit "image/png"))
                        (Some (JsString (toString_base64 (Scenario.edited 0)))))))),
      [], (toString_base64 (Scenario.edited 0)).
    split; [reflexivity|]. split; [repeat constructor|].
    split; [reflexivity | vm_compute; reflexivity].
  - destruct (edit_client_returns_first_inline_image Scenario.noImage
                PROMPT_TEXT Scenario.original (lit "image/jpeg") Scenario.start
                Scenario.textResponse eq_refl) as (_ & Hnone & _).
    apply Hnone. repeat constructor.
Defined.

(** ** Traces only grow *)

Section Emits.

Context {A B : Type} (P : Event -> Prop).

Lemma emits_ret (a : A) : emits P (ret a).
Proof. intros w. exists []. now rewrite app_nil_r. Qed.

Lemma emits_throw (e : JsError) : emits P (@throw A e).
Proof. intros w. exists []. now rewrite app_nil_r. Qed.

Lemma emits_lift (c : Completion A) : emits P (lift c).
Proof. intros w. exists []. now rewrite app_nil_r. Qed.

Lemma emits_tick : emits P tick.
Proof. intros w. exists []. now rewrite app_nil_r. Qed.

Lemma emits_get_files : emits P get_files.
Proof. intros w. exists []. now rewrite app_nil_r. Qed.

Lemma emits_set_files (fs : gmap Path Buffer) : emits P (set_files fs).
Proof. intros w. exists []. now rewrite app_nil_r. Qed.

Lemma emits_emit (ev : Event) : P ev -> emits P (emit ev).
Proof. intros H w. exists [ev]. split; [reflexivity | now constructor]. Qed.

Lemma emits_bind (m : Async A) (k : A -> Async B) :
  emits P m -> (forall a, emits P (k a)) -> emits P (bind m k).
Proof.
  intros Hm Hk w. unfold bind.
  destruct (Hm w) as [new1 [E1 F1]].
  destruct (m w) as [[a|e] w1]; simpl in *.
  - destruct (Hk a w1) as [new2 [E2 F2]].
    exists (new1 ++ new2). rewrite E2, E1, app_assoc.
    split; [reflexivity | now apply Forall_app].
  - now exists new1.
Qed.

Lemma emits_try_catch (m : Async A) (h : JsError -> Async A) :
  emits P m -> (forall e, emits P (h e)) -> emits P (try_catch m h).
Proof.
  intros Hm Hh w. unfold try_catch.
  destruct (Hm w) as [new1 [E1 F1]].
  destruct (m w) as [[a|e] w1]; simpl in *.
  - now exists new1.
  - destruct (Hh e w1) as [new2 [E2 F2]].
    exists (new1 ++ new2). rewrite E2, E1, app_assoc.
    split; [reflexivity | now apply Forall_app].
Qed.

Lemma emits_weaken (Q : Event -> Prop) (m : Async A) :
  (forall ev, P ev -> Q ev) -> emits P m -> emits Q m.
Proof.
  intros HPQ Hm w. destruct (Hm w) as [new [E F]].
  exists new. split; [exact E|]. eapply Forall_impl; eauto.
Qed.

End Emits.

Lemma quiet_is_job (ev : Event) : quietEvent ev -> jobEvent ev.
Proof. now destruct ev. Qed.

Lemma editCalls_app (l1 l2 : list Event) :
  editCalls (l1 ++ l2) = editCalls l1 ++ editCalls l2.
Proof.
  induction l1 as [|ev l1 IH]; [reflexivity|].
  destruct ev; simpl; now rewrite ?IH.
Qed.

Lemma editCalls_quiet (l : list Event) : Forall quietEvent l -> editCalls l = [].
Proof.
  induction 1 as [|ev l Hev _ IH]; [reflexivity|].
  destruct ev; simpl; try exact IH; discriminate.
Qed.

Ltac emits_step :=
  first
    [ apply emits_bind; [|intros ?]
    | apply emits_try_catch; [|intros ?]
    | apply emits_ret | apply emits_throw | apply emits_lift
    | apply emits_tick | apply emits_get_files | apply emits_set_files
    | apply emits_emit; reflexivity
    | match goal with
      | |- emits _ (match ?x with _ => _ end) => destruct x
      end ].

Ltac solve_emits := repeat emits_step.

Section JobTraces.

Variable env : Env.

Lemma sendImage_emits (promptText : jsstring) (imageBuffer : Buffer)
    (mime : jsstring) :
  emits jobEvent (sendImageAndGetReturnedImage env promptText imageBuffer mime).
Proof. unfold sendImageAndGetReturnedImage. solve_emits. Qed.

Lemma writeFile_emits (p : Path) (contents : Buffer) :
  emits quietEvent (writeFile env p contents).
Proof. unfold writeFile. solve_emits. Qed.

Lemma copyAllExif_emits (src dest : Path) :
  emits quietEvent (copyAllExifFromTo env src dest).
Proof. unfold copyAllExifFromTo. solve_emits. Qed.

(** What follows the edit call in one turn of the loop. *)
Lemma save_emits (filename : jsstring) (returned : option Buffer) :
  emits quietEvent
    (match returned with
     | None =>
         console_warn
           [Str (lit "No image returned by model for: " ++ filename)] ;;;
         ret None
     | Some returnedBuffer =>
         jpegBuffer <- lift (sharp_jpeg env returnedBuffer) ;;
         writeFile env (path_join OUTPUT_DIR filename) jpegBuffer ;;;
         try_catch
           (copyAllExifFromTo env (path_join INPUT_DIR filename)
              (path_join OUTPUT_DIR filename))
           (fun err =>
              console_warn
                [Str (lit "Failed to copy EXIF for " ++ filename ++ lit ":");
                 Err err]) ;;;
         ret (Some returnedBuffer)
     end).
Proof.
  destruct returned as [returnedBuffer|].
  - apply emits_bind; [apply emits_lift|]. intros jpeg.
    apply emits_bind; [apply writeFile_emits|]. intros _.
    apply emits_bind; [|intros _; apply emits_ret].
    apply emits_try_catch; [apply copyAllExif_emits|].
    intros e. now apply emits_emit.
  - unfold console_warn. solve_emits.
Qed.

Lemma generateAndSave_emits (filename : jsstring) (ctx : Context) :
  emits jobEvent (generateAndSave env filename ctx).
Proof.
  unfold generateAndSave.
  apply emits_bind; [apply sendImage_emits|]. intros returned.
  eapply emits_weaken; [exact quiet_is_job | apply save_emits].
Qed.

Lemma skipFiles_emits (filename : jsstring) :
  emits quietEvent (skipFiles env filename).
Proof. unfold skipFiles, swallow, rm_force. solve_emits. Qed.

Lemma readFile_emits (p : Path) : emits quietEvent (readFile env p).
Proof. unfold readFile. solve_emits. Qed.

End JobTraces.

(** ** The review loop, turn by turn *)

Section ReviewLoop.

Variable env : Env.
Variable filename : jsstring.
Variable inputBuffer : Buffer.

#[local] Abbreviation loop := (reviewLoop env filename inputBuffer).
#[local] Abbreviation menu := (log_event (PromptMenu filename)).

Lemma reviewLoop_throw script ctx w e w1 :
  generateAndSave env filename ctx w = (Throw e, w1) ->
  loop script ctx w = (Finished (Throw e), script, w1).
Proof. intros H. destruct script; simpl; now rewrite H. Qed.

Lemma reviewLoop_no_image script ctx w w1 :
  generateAndSave env filename ctx w = (Normal None, w1) ->
  loop script ctx w = (Finished (Normal tt), script, w1).
Proof. intros H. destruct script; simpl; now rewrite H. Qed.

Lemma reviewLoop_unanswered ctx w returned w1 :
  generateAndSave env filename ctx w = (Normal (Some returned), w1) ->
  loop [] ctx w = (AwaitingOperator, [], menu w1).
Proof. intros H. simpl. now rewrite H. Qed.

Lemma reviewLoop_accept rest ctx w returned w1 :
  generateAndSave env filename ctx w = (Normal (Some returned), w1) ->
  loop (Accept :: rest) ctx w = (Finished (Normal tt), rest, menu w1).
Proof. intros H. simpl. now rewrite H. Qed.

Lemma reviewLoop_comment raw rest ctx w returned w1 :
  generateAndSave env filename ctx w = (Normal (Some returned), w1) ->
  loop (Comment raw :: rest) ctx w =
    loop rest (commentContext ctx returned (promptComment raw))
         (log_event PromptComment (menu w1)).
Proof. intros H. simpl. now rewrite H. Qed.

Lemma reviewLoop_retry rest ctx w returned w1 :
  generateAndSave env filename ctx w = (Normal (Some returned), w1) ->
  loop (Retry :: rest) ctx w =
    loop rest (initialContext filename inputBuffer) (menu w1).
Proof. intros H. simpl. now rewrite H. Qed.

Lemma reviewLoop_skip rest ctx w returned w1 :
  generateAndSave env filename ctx w = (Normal (Some returned), w1) ->
  loop (Skip :: rest) ctx w =
    (Finished (fst (skipFiles env filename (menu w1))), rest,
     snd (skipFiles env filename (menu w1))).
Proof.
  intros H. simpl. rewrite H.
  now destruct (skipFiles env filename _).
Qed.

(** Every turn starts with the edit call on the working context, and makes
    no other. *)
Lemma generateAndSave_first_event ctx w :
  exists tl,
    events (snd (generateAndSave env filename ctx w)) =
      events w ++
      EditCall (currentPrompt ctx) (workingBuffer ctx) (workingMime ctx) :: tl
    /\ Forall quietEvent tl.
Proof.
  unfold generateAndSave, bind at 1.
  rewrite sendImage_unfold. cbv zeta.
  set (w1 := mkWorld _ _ _).
  destruct (generateContent env _ _) as [result|e].
  - destruct (save_emits env filename
                (firstInlineImage env (responseParts result)) w1)
      as [tl [E F]].
    exists tl. split; [|exact F].
    rewrite E. subst w1. simpl. now rewrite <- app_assoc.
  - exists []. split; [reflexivity | constructor].
Qed.

(** The loop only adds job events to the trace. *)
Lemma reviewLoop_emits script : forall ctx w,
  exists new,
    events (snd (loop script ctx w)) = events w ++ new /\ Forall jobEvent new.
Proof.
 
  induction script as [|answer rest IH]; intros ctx w;
    destruct (generateAndSave_emits env filename ctx w) as [new1 [E1 F1]];
    simpl;
    destruct (generateAndSave env filename ctx w) as [[[returned|]|e] w1];
    simpl in *; try (now exists new1).
  - exists (new1 ++ [PromptMenu filename]).
    split; [rewrite E1, <- app_assoc; reflexivity|].
    apply Forall_app. split; [exact F1 | repeat constructor].
  - assert (Hmenu : events (log_event (PromptMenu filename) w1)
                    = events w ++ new1 ++ [PromptMenu filename]).
    { simpl. now rewrite E1, <- app_assoc. }
    assert (Fmenu : Forall jobEvent (new1 ++ [PromptMenu filename])).
    { apply Forall_app. split; [exact F1 | repeat constructor]. }
    destruct answer as [|raw| |].
    + now exists (new1 ++ [PromptMenu filename]).
    + destruct (IH (commentContext ctx returned (promptComment raw))
                   (log_event PromptComment
                      (log_event (PromptMenu filename) w1)))
        as [new2 [E2 F2]].
      exists ((new1 ++ [PromptMenu filename]) ++ PromptComment :: new2).
      split.
      * rewrite E2. simpl. rewrite E1, <- !app_assoc. reflexivity.
      * apply Forall_app. split; [exact Fmenu|].
        constructor; [reflexivity | exact F2].
    + destruct (IH (initialContext filename inputBuffer)
                   (log_event (PromptMenu filename) w1)) as [new2 [E2 F2]].
      exists ((new1 ++ [PromptMenu filename]) ++ new2).
      split; [rewrite E2, Hmenu, <- !app_assoc; reflexivity|].
      now apply Forall_app.
    + destruct (emits_weaken _ _ _ quiet_is_job
                  (skipFiles_emits env filename)
                  (log_event (PromptMenu filename) w1)) as [new2 [E2 F2]].
      destruct (skipFiles env filename _) as [c w3]. simpl in *.
      exists ((new1 ++ [PromptMenu filename]) ++ new2).
      split; [rewrite E2, E1, <- !app_assoc; reflexivity|].
      now apply Forall_app.
Qed.

(** The first thing the loop does from a working context is the edit call
    with that context's prompt, image and MIME type. *)
Lemma reviewLoop_first_call script ctx w :
  exists tl,
    events (snd (loop script ctx w)) =
      events w ++
      EditCall (currentPrompt ctx) (workingBuffer ctx) (workingMime ctx) :: tl.
Proof.
  destruct (generateAndSave_first_event ctx w) as [tl1 [E1 _]].
  pose proof (reviewLoop_emits script ctx w) as Hall.
 
  destruct script as [|answer rest]; simpl in *;
    destruct (generateAndSave env filename ctx w) as [[[returned|]|e] w1];
    simpl in *; try (now exists tl1).
  - exists (tl1 ++ [PromptMenu filename]).
    rewrite E1, <- app_assoc. reflexivity.
  - destruct answer as [|raw| |].
    + exists (tl1 ++ [PromptMenu filename]).
      simpl. rewrite E1, <- app_assoc. reflexivity.
    + destruct (reviewLoop_emits rest
                  (commentContext ctx returned (promptComment raw))
                  (log_event PromptComment
                     (log_event (PromptMenu filename) w1))) as [new2 [E2 _]].
      eexists. rewrite E2. simpl. rewrite E1, <- !app_assoc. simpl.
      reflexivity.
    + destruct (reviewLoop_emits rest (initialContext filename inputBuffer)
                  (log_event (PromptMenu filename) w1)) as [new2 [E2 _]].
      eexists. rewrite E2. simpl. rewrite E1, <- !app_assoc. simpl.
      reflexivity.
    + destruct (skipFiles_emits env filename
                  (log_event (PromptMenu filename) w1)) as [new2 [E2 _]].
      destruct (skipFiles env filename _) as [c w3]. simpl in *.
      eexists. rewrite E2, E1, <- !app_assoc. simpl. reflexivity.
Qed.

End ReviewLoop.

(** ** The outcomes of one turn *)

Section Turns.

Variable env : Env.
Variable filename : jsstring.

#[local] Abbreviation inputPath := (path_join INPUT_DIR filename).
#[local] Abbreviation outputPath := (path_join OUTPUT_DIR filename).
#[local] Abbreviation noImageWarning :=
  (ConsoleWarn [Str (lit "No image returned by model for: " ++ filename)]).

Lemma readFile_normal (p : Path) (w w0 : World) (contents : Buffer) :
  readFile env p w = (Normal contents, w0) ->
  w0 = mkWorld (files w) (events w ++ [ReadFile p]) (S (clock w)) /\
  files w !! p = Some contents.
Proof.
  unfold readFile, bind, tick, emit, get_files, throw, ret, log_event. simpl.
  destruct (fsp_readFile_error env (clock w) p); [discriminate|].
  cbn [files]. destruct (files w !! p) as [b|]; [|discriminate].
  intros [= <- <-]. split; reflexivity.
Qed.

Lemma sendImage_world promptText imageBuffer mime (w w1 : World) returned :
  sendImageAndGetReturnedImage env promptText imageBuffer mime w
    = (returned, w1) ->
  w1 = mkWorld (files w) (events w ++ [EditCall promptText imageBuffer mime])
               (S (clock w)).
Proof.
  rewrite sendImage_unfold. cbv zeta.
  destruct (generateContent env _ _); now intros [= _ <-].
Qed.

Lemma generateAndSave_no_image ctx (w w1 : World) :
  sendImageAndGetReturnedImage env (currentPrompt ctx) (workingBuffer ctx)
    (workingMime ctx) w = (Normal None, w1) ->
  generateAndSave env filename ctx w = (Normal None, log_event noImageWarning w1).
Proof.
  intros H. unfold generateAndSave, bind at 1. rewrite H. reflexivity.
Qed.

(** C4. When the edit call of a turn returns no image, the loop logs a
    warning and the job ends at once, normally: the trace of the turn is the
    edit call followed by the warning, so nothing is written and the menu is
    not presented, the operator's script is left untouched and the file
    system is as it was.  In particular a job whose first edit call returns
    no image reads its input, makes that call, warns and ends, leaving the
    file system as it found it. *)
Theorem no_image_ends_the_job :
  (forall inputBuffer script ctx w w1,
     sendImageAndGetReturnedImage env (currentPrompt ctx) (workingBuffer ctx)
       (workingMime ctx) w = (Normal None, w1) ->
     reviewLoop env filename inputBuffer script ctx w
       = (Finished (Normal tt), script, log_event noImageWarning w1) /\
     events (log_event noImageWarning w1)
       = events w ++
         [EditCall (currentPrompt ctx) (workingBuffer ctx) (workingMime ctx);
          noImageWarning] /\
     files (log_event noImageWarning w1) = files w) /\
  (forall inputBuffer script w w0 w1,
     readFile env inputPath w = (Normal inputBuffer, w0) ->
     sendImageAndGetReturnedImage env PROMPT_TEXT inputBuffer
       (chooseMimeTypeFromFilename filename) w0 = (Normal None, w1) ->
     processOneFile env filename script w
       = (Finished (Normal tt), script, log_event noImageWarning w1) /\
     events (log_event noImageWarning w1)
       = events w ++
         [ReadFile inputPath;
          EditCall PROMPT_TEXT inputBuffer (chooseMimeTypeFromFilename filename);
          noImageWarning] /\
     files (log_event noImageWarning w1) = files w /\
     (files w !! outputPath = None ->
      files (log_event noImageWarning w1) !! outputPath = None)).
Proof.
  assert (Hturn : forall inputBuffer script ctx w w1,
     sendImageAndGetReturnedImage env (currentPrompt ctx) (workingBuffer ctx)
       (workingMime ctx) w = (Normal None, w1) ->
     reviewLoop env filename inputBuffer script ctx w
       = (Finished (Normal tt), script, log_event noImageWarning w1) /\
     events (log_event noImageWarning w1)
       = events w ++
         [EditCall (currentPrompt ctx) (workingBuffer ctx) (workingMime ctx);
          noImageWarning] /\
     files (log_event noImageWarning w1) = files w).
  { intros inputBuffer script ctx w w1 H.
    split; [apply reviewLoop_no_image, generateAndSave_no_image, H|].
    apply sendImage_world in H. subst w1. simpl.
    now rewrite <- app_assoc. }
  split; [exact Hturn|].
  intros inputBuffer script w w0 w1 Hread Hsend.
  destruct (Hturn inputBuffer script (initialContext filename inputBuffer)
              w0 w1 Hsend) as (Hloop & Hev & Hfiles).
  apply readFile_normal in Hread as Hw0. destruct Hw0 as [Hw0 _].
  assert (Hfs : files (log_event noImageWarning w1) = files w).
  { rewrite Hfiles, Hw0. reflexivity. }
  refine (conj _ (conj _ (conj Hfs _))).
  - unfold processOneFile. rewrite Hread. exact Hloop.
  - rewrite Hev, Hw0. simpl. now rewrite <- app_assoc.
  - now rewrite Hfs.
Qed.

End Turns.

Lemma no_image_ends_the_job_witness :
  (let '(ending, script, w) :=
     processOneFile Scenario.noImage Scenario.a_jpg [Accept; Skip]
       Scenario.start in
   ending = Finished (Normal tt) /\ script = [Accept; Skip] /\
   files w = files Scenario.start /\
   files w !! path_join OUTPUT_DIR Scenario.a_jpg = None) /\
  fst (reviewLoop Scenario.noImage Scenario.a_jpg Scenario.original [Skip]
         (mkContext (Scenario.edited 1) (lit "image/png")
            (PROMPT_TEXT ++ [10] ++ lit "sharper"))
         Scenario.start)
    = (Finished (Normal tt), [Skip]).
Proof.
  split.
  - pose (w0 := snd (readFile Scenario.noImage
                       (path_join INPUT_DIR Scenario.a_jpg) Scenario.start)).
    pose (w1 := snd (sendImageAndGetReturnedImage Scenario.noImage PROMPT_TEXT
                       Scenario.original
                       (chooseMimeTypeFromFilename Scenario.a_jpg) w0)).
    destruct (proj2 (no_image_ends_the_job Scenario.noImage Scenario.a_jpg)
                Scenario.original [Accept; Skip] Scenario.start w0 w1
                eq_refl eq_refl) as (Hjob & _ & Hfiles & Habsent).
    rewrite Hjob. cbv beta iota zeta.
    refine (conj eq_refl (conj eq_refl (conj Hfiles (Habsent _)))).
    vm_compute. reflexivity.
  - destruct (proj1 (no_image_ends_the_job Scenario.noImage Scenario.a_jpg)
                Scenario.original [Skip]
                (mkContext (Scenario.edited 1) (lit "image/png")
                   (PROMPT_TEXT ++ [10] ++ lit "sharper"))
                Scenario.start
                (snd (sendImageAndGetReturnedImage Scenario.noImage
                        (PROMPT_TEXT ++ [10] ++ lit "sharper")
                        (Scenario.edited 1) (lit "image/png") Scenario.start))
                eq_refl) as (Hloop & _).
    rewrite Hloop. reflexivity.
Defined.

(** ** The operator's answers *)

Section Answers.

Variable env : Env.
Variable filename : jsstring.

#[local] Abbreviation inputPath' := (path_join INPUT_DIR filename).

Lemma generateAndSave_events ctx (w w1 : World) result :
  generateAndSave env filename ctx w = (result, w1) ->
  exists tl,
    events w1 =
      events w ++
      EditCall (currentPrompt ctx) (workingBuffer ctx) (workingMime ctx) :: tl
    /\ Forall quietEvent tl.
Proof.
  intros H. destruct (generateAndSave_first_event env filename ctx w)
    as [tl Htl].
  rewrite H in Htl. now exists tl.
Qed.

(** C2. When the operator answers [comment], the loop goes on with a working
    context whose image is the image the edit call just returned, whose MIME
    type is the type sniffed from that image, and whose prompt is the
    previous prompt, a newline and the comment; the next edit call is made
    with exactly these.  The previous prompt is whatever the context held,
    so comments pile up round after round: after a series of comment
    rounds the prompt is the one the series started with, followed by each
    comment in turn, each after a newline.  In particular, in a job whose
    operator first answers [comment] with "make it brighter", the first edit
    call carries the base prompt and the original image, and the second the
    base prompt, a newline and "make it brighter", with the image returned
    by the first call. *)
Theorem comment_continues_from_last_image :
  (forall inputBuffer raw rest ctx w returned w1,
     generateAndSave env filename ctx w = (Normal (Some returned), w1) ->
     let next := mkContext returned (detectMimeTypeFromBuffer returned)
                   (currentPrompt ctx ++ [10] ++ promptComment raw) in
     let w2 := log_event PromptComment (log_event (PromptMenu filename) w1) in
     reviewLoop env filename inputBuffer (Comment raw :: rest) ctx w
       = reviewLoop env filename inputBuffer rest next w2 /\
     exists tl,
       events (snd (reviewLoop env filename inputBuffer (Comment raw :: rest)
                      ctx w))
         = events w2 ++
           EditCall (currentPrompt ctx ++ [10] ++ promptComment raw) returned
             (detectMimeTypeFromBuffer returned) :: tl) /\
  (forall inputBuffer rest w w0 returned w1,
     readFile env inputPath' w = (Normal inputBuffer, w0) ->
     generateAndSave env filename (initialContext filename inputBuffer) w0
       = (Normal (Some returned), w1) ->
     exists new more,
       events (snd (processOneFile env filename
                      (Comment (Some (lit "make it brighter")) :: rest) w))
         = events w ++ new /\
       editCalls new =
         (PROMPT_TEXT, inputBuffer, chooseMimeTypeFromFilename filename) ::
         (PROMPT_TEXT ++ [10] ++ lit "make it brighter", returned,
          detectMimeTypeFromBuffer returned) :: more) /\
  (forall inputBuffer raws rest ctx w ctx' w',
     CommentRounds env filename ctx w raws ctx' w' ->
     reviewLoop env filename inputBuffer (map Comment raws ++ rest) ctx w
       = reviewLoop env filename inputBuffer rest ctx' w' /\
     currentPrompt ctx' = withComments (currentPrompt ctx) raws).
Proof.
  assert (Hround : forall inputBuffer raw rest ctx w returned w1,
     generateAndSave env filename ctx w = (Normal (Some returned), w1) ->
     let next := mkContext returned (detectMimeTypeFromBuffer returned)
                   (currentPrompt ctx ++ [10] ++ promptComment raw) in
     let w2 := log_event PromptComment (log_event (PromptMenu filename) w1) in
     reviewLoop env filename inputBuffer (Comment raw :: rest) ctx w
       = reviewLoop env filename inputBuffer rest next w2 /\
     exists tl,
       events (snd (reviewLoop env filename inputBuffer (Comment raw :: rest)
                      ctx w))
         = events w2 ++
           EditCall (currentPrompt ctx ++ [10] ++ promptComment raw) returned
             (detectMimeTypeFromBuffer returned) :: tl).
  { intros inputBuffer raw rest ctx w returned w1 H next w2.
    pose proof (reviewLoop_comment env filename inputBuffer raw rest ctx w
                  returned w1 H) as Hstep.
    split; [exact Hstep|].
    rewrite Hstep.
    apply (reviewLoop_first_call env filename inputBuffer rest
             (commentContext ctx returned (promptComment raw))). }
  split; [exact Hround|]. split; cycle 1.
  { intros inputBuffer raws rest ctx w ctx' w' Hrounds.
    induction Hrounds as [ctx w|ctx w returned w1 raw raws ctx' w' H _ IH].
    - split; reflexivity.
    - destruct IH as [IHloop IHprompt]. split.
      + simpl map. simpl app.
        rewrite (reviewLoop_comment env filename inputBuffer raw
                   (map Comment raws ++ rest) ctx w returned w1 H).
        exact IHloop.
      + rewrite IHprompt. reflexivity. }
  intros inputBuffer rest w w0 returned w1 Hread Hturn.
  destruct (Hround inputBuffer (Some (lit "make it brighter")) rest
              (initialContext filename inputBuffer) w0 returned w1 Hturn)
    as [_ [tl2 Hsecond]].
  destruct (generateAndSave_events _ _ _ _ Hturn) as [tl1 [Hfirst Hquiet]].
  assert (Hev0 : events w0 = events w ++ [ReadFile inputPath']).
  { apply readFile_normal in Hread as [-> _]. reflexivity. }
  assert (Htext : promptComment (Some (lit "make it brighter"))
                  = lit "make it brighter") by (vm_compute; reflexivity).
  rewrite Htext in Hsecond.
  unfold processOneFile. rewrite Hread, Hsecond.
  change (events (log_event PromptComment
                    (log_event (PromptMenu filename) w1)))
    with ((events w1 ++ [PromptMenu filename]) ++ [PromptComment]).
  rewrite Hfirst, Hev0.
  exists ([ReadFile inputPath'] ++
          (EditCall PROMPT_TEXT inputBuffer
             (chooseMimeTypeFromFilename filename) :: tl1) ++
          [PromptMenu filename] ++ [PromptComment] ++
          EditCall (PROMPT_TEXT ++ [10] ++ lit "make it brighter")
            returned (detectMimeTypeFromBuffer returned) :: tl2),
         (editCalls tl2).
  split.
  - rewrite <- !app_assoc. reflexivity.
  - rewrite !editCalls_app. simpl.
    rewrite (editCalls_quiet tl1 Hquiet). reflexivity.
Qed.

(** C3. When the operator answers [retry], whatever the working context
    had become, the loop goes on with the context the job started with: the
    bytes read from the input file, the MIME type chosen from the file name
    and the base prompt alone; the next edit call is made with exactly
    these.  That context is the one [processOneFile] enters the loop with,
    and its image is the content of the input file. *)
Theorem retry_restarts_from_the_original :
  (forall inputBuffer rest ctx w returned w1,
     generateAndSave env filename ctx w = (Normal (Some returned), w1) ->
     let initial := mkContext inputBuffer (chooseMimeTypeFromFilename filename)
                      PROMPT_TEXT in
     let w2 := log_event (PromptMenu filename) w1 in
     reviewLoop env filename inputBuffer (Retry :: rest) ctx w
       = reviewLoop env filename inputBuffer rest initial w2 /\
     exists tl,
       events (snd (reviewLoop env filename inputBuffer (Retry :: rest) ctx w))
         = events w2 ++
           EditCall PROMPT_TEXT inputBuffer
             (chooseMimeTypeFromFilename filename) :: tl) /\
  (forall inputBuffer script w w0,
     readFile env inputPath' w = (Normal inputBuffer, w0) ->
     files w !! inputPath' = Some inputBuffer /\
     processOneFile env filename script w
       = reviewLoop env filename inputBuffer script
           (mkContext inputBuffer (chooseMimeTypeFromFilename filename)
              PROMPT_TEXT) w0).
Proof.
  split.
  - intros inputBuffer rest ctx w returned w1 H initial w2.
    pose proof (reviewLoop_retry env filename inputBuffer rest ctx w
                  returned w1 H) as Hstep.
    split; [exact Hstep|].
    rewrite Hstep.
    apply (reviewLoop_first_call env filename inputBuffer rest
             (initialContext filename inputBuffer)).
  - intros inputBuffer script w w0 Hread.
    split; [now apply readFile_normal in Hread|].
    unfold processOneFile. now rewrite Hread.
Qed.

(** C10. What a [comment] answer appends to the prompt after the newline is
    [String(answers.comment ?? "").trim()]: the text typed (the empty string
    when there is none) without the blank code units at its two ends.  The
    loop goes on with the working context whose prompt is the previous
    prompt, a newline and that trimmed text, and its next edit call carries
    exactly this prompt.  The appended text neither starts nor ends with a
    blank, and it is empty when nothing or only blanks were typed, in which
    case the prompt just gains the newline. *)
Theorem comment_is_trimmed_before_it_is_appended
    (inputBuffer : Buffer) (raw : option jsstring) (rest : list Answer)
    (ctx : Context) (w : World) (returned : Buffer) (w1 : World) :
  generateAndSave env filename ctx w = (Normal (Some returned), w1) ->
  let appended := trim (default [] raw) in
  let next := mkContext returned (detectMimeTypeFromBuffer returned)
                (currentPrompt ctx ++ [10] ++ appended) in
  let w2 := log_event PromptComment (log_event (PromptMenu filename) w1) in
  promptComment raw = appended /\
  reviewLoop env filename inputBuffer (Comment raw :: rest) ctx w
    = reviewLoop env filename inputBuffer rest next w2 /\
  (exists tl,
     events (snd (reviewLoop env filename inputBuffer (Comment raw :: rest)
                    ctx w))
       = events w2 ++
         EditCall (currentPrompt ctx ++ [10] ++ appended) returned
           (detectMimeTypeFromBuffer returned) :: tl) /\
  (exists pre post,
     default [] raw = pre ++ appended ++ post /\
     Forall blank pre /\ Forall blank post) /\
  (forall c, head appended = Some c ->
     isWhiteSpaceOrLineTerminator c = false) /\
  (forall c, last appended = Some c ->
     isWhiteSpaceOrLineTerminator c = false) /\
  (raw = None -> currentPrompt next = currentPrompt ctx ++ [10]) /\
  (forall s, raw = Some s -> Forall blank s ->
     currentPrompt next = currentPrompt ctx ++ [10]).
Proof.
  intros H appended next w2.
  pose proof (reviewLoop_comment env filename inputBuffer raw rest ctx w
                returned w1 H) as Hstep.
  split; [reflexivity|]. split; [exact Hstep|]. split.
  { rewrite Hstep.
    apply (reviewLoop_first_call env filename inputBuffer rest
             (commentContext ctx returned (promptComment raw))). }
  split; [apply trim_split|].
  split; [apply trim_head|]. split; [apply trim_last|].
  split.
  - intros ->. reflexivity.
  - intros s -> Hs. subst next appended. simpl.
    now rewrite (trim_blank s Hs).
Qed.

End Answers.

(** The runs of the specification's scenarios. *)

Lemma comment_continues_from_last_image_witness :
  (exists more,
     editCalls (events (snd (processOneFile Scenario.healthy Scenario.a_jpg
                               [Comment (Some (lit "make it brighter")); Accept]
                               Scenario.start)))
       = (PROMPT_TEXT, Scenario.original, lit "image/jpeg") ::
         (PROMPT_TEXT ++ [10] ++ lit "make it brighter", Scenario.edited 1,
          lit "image/png") :: more) /\
  (exists tl,
     events (snd (reviewLoop Scenario.healthy Scenario.a_jpg Scenario.original
                    [Comment (Some (lit "sharper")); Accept]
                    (initialContext Scenario.a_jpg Scenario.original)
                    Scenario.start))
       = events (log_event PromptComment
                   (log_event (PromptMenu Scenario.a_jpg)
                      (snd (generateAndSave Scenario.healthy Scenario.a_jpg
                              (initialContext Scenario.a_jpg Scenario.original)
                              Scenario.start)))) ++
         EditCall (PROMPT_TEXT ++ [10] ++ lit "sharper") (Scenario.edited 0)
           (lit "image/png") :: tl) /\
  (exists ctx' w',
     reviewLoop Scenario.healthy Scenario.a_jpg Scenario.original
       [Comment (Some (lit "make it brighter"));
        Comment (Some (lit " more contrast ")); Accept]
       (initialContext Scenario.a_jpg Scenario.original) Scenario.start
       = reviewLoop Scenario.healthy Scenario.a_jpg Scenario.original [Accept]
           ctx' w' /\
     currentPrompt ctx'
       = PROMPT_TEXT ++ [10] ++ lit "make it brighter" ++ [10] ++
         lit "more contrast").
Proof.
  split; [|split].
  - pose (w0 := snd (readFile Scenario.healthy
                       (path_join INPUT_DIR Scenario.a_jpg) Scenario.start)).
    pose (w1 := snd (generateAndSave Scenario.healthy Scenario.a_jpg
                       (initialContext Scenario.a_jpg Scenario.original) w0)).
    destruct (proj1 (proj2 (comment_continues_from_last_image Scenario.healthy
                              Scenario.a_jpg))
                Scenario.original [Accept] Scenario.start w0
                (Scenario.edited 1) w1)
      as (new & more & Hev & Hcalls).
    + reflexivity.
    + vm_compute. reflexivity.
    + exists more. rewrite Hev. exact Hcalls.
  - destruct (proj1 (comment_continues_from_last_image Scenario.healthy
                       Scenario.a_jpg)
                Scenario.original (Some (lit "sharper")) [Accept]
                (initialContext Scenario.a_jpg Scenario.original)
                Scenario.start (Scenario.edited 0)
                (snd (generateAndSave Scenario.healthy Scenario.a_jpg
                        (initialContext Scenario.a_jpg Scenario.original)
                        Scenario.start)))
      as [_ [tl Htl]].
    + vm_compute. reflexivity.
    + exists tl. rewrite Htl. vm_compute. reflexivity.
  - pose (ctx0 := initialContext Scenario.a_jpg Scenario.original).
    pose (w1 := snd (generateAndSave Scenario.healthy Scenario.a_jpg ctx0
                       Scenario.start)).
    pose (ctx1 := commentContext ctx0 (Scenario.edited 0)
                    (promptComment (Some (lit "make it brighter")))).
    pose (w1' := log_event PromptComment
                   (log_event (PromptMenu Scenario.a_jpg) w1)).
    pose (w2 := snd (generateAndSave Scenario.healthy Scenario.a_jpg ctx1 w1')).
    pose (ctx2 := commentContext ctx1 (Scenario.edited 3)
                    (promptComment (Some (lit " more contrast ")))).
    pose (w2' := log_event PromptComment
                   (log_event (PromptMenu Scenario.a_jpg) w2)).
    destruct (proj2 (proj2 (comment_continues_from_last_image Scenario.healthy
                              Scenario.a_jpg))
                Scenario.original
                [Some (lit "make it brighter"); Some (lit " more contrast ")]
                [Accept] ctx0 Scenario.start ctx2 w2')
      as [Hloop Hprompt].
    + apply (rounds_more Scenario.healthy Scenario.a_jpg ctx0 Scenario.start
               (Scenario.edited 0) w1); [vm_compute; reflexivity|].
      apply (rounds_more Scenario.healthy Scenario.a_jpg ctx1 w1'
               (Scenario.edited 3) w2); [vm_compute; reflexivity|].
      apply rounds_done.
    + exists ctx2, w2'. split; [exact Hloop|].
      rewrite Hprompt. vm_compute. reflexivity.
Defined.

Lemma retry_restarts_from_the_original_witness :
  (exists tl,
     events (snd (reviewLoop Scenario.healthy Scenario.a_jpg Scenario.original
                    [Retry; Accept]
                    (mkContext (Scenario.edited 1) (lit "image/png")
                       (PROMPT_TEXT ++ [10] ++ lit "make it brighter"))
                    Scenario.start))
       = events (log_event (PromptMenu Scenario.a_jpg)
                   (snd (generateAndSave Scenario.healthy Scenario.a_jpg
                           (mkContext (Scenario.edited 1) (lit "image/png")
                              (PROMPT_TEXT ++ [10] ++ lit "make it brighter"))
                           Scenario.start))) ++
         EditCall PROMPT_TEXT Scenario.original (lit "image/jpeg") :: tl) /\
  files Scenario.start !! path_join INPUT_DIR Scenario.a_jpg
    = Some Scenario.original.
Proof.
  split.
  - apply (proj1 (retry_restarts_from_the_original Scenario.healthy
                    Scenario.a_jpg)
             Scenario.original [Accept]
             (mkContext (Scenario.edited 1) (lit "image/png")
                (PROMPT_TEXT ++ [10] ++ lit "make it brighter"))
             Scenario.start (Scenario.edited 0)).
    vm_compute. reflexivity.
  - apply (proj2 (retry_restarts_from_the_original Scenario.healthy
                    Scenario.a_jpg)
             Scenario.original [Retry; Accept] Scenario.start
             (snd (readFile Scenario.healthy
                     (path_join INPUT_DIR Scenario.a_jpg) Scenario.start))).
    reflexivity.
Defined.

Lemma comment_is_trimmed_before_it_is_appended_witness :
  promptComment (Some (lit "  warmer colours ")) = lit "warmer colours" /\
  exists tl,
    events (snd (reviewLoop Scenario.healthy Scenario.a_jpg Scenario.original
                   [Comment (Some (lit "  warmer colours ")); Accept]
                   (initialContext Scenario.a_jpg Scenario.original)
                   Scenario.start))
      = events (log_event PromptComment
                  (log_event (PromptMenu Scenario.a_jpg)
                     (snd (generateAndSave Scenario.healthy Scenario.a_jpg
                             (initialContext Scenario.a_jpg Scenario.original)
                             Scenario.start)))) ++
        EditCall (PROMPT_TEXT ++ [10] ++ lit "warmer colours")
          (Scenario.edited 0) (lit "image/png") :: tl.
Proof.
  destruct (comment_is_trimmed_before_it_is_appended Scenario.healthy
              Scenario.a_jpg Scenario.original
              (Some (lit "  warmer colours ")) [Accept]
              (initialContext Scenario.a_jpg Scenario.original) Scenario.start
              (Scenario.edited 0)
              (snd (generateAndSave Scenario.healthy Scenario.a_jpg
                      (initialContext Scenario.a_jpg Scenario.original)
                      Scenario.start)))
    as (Htext & _ & (tl & Htl) & _).
  - vm_compute. reflexivity.
  - split.
    + rewrite Htext. vm_compute. reflexivity.
    + exists tl. rewrite Htl. vm_compute. reflexivity.
Defined.

(** ** Writing, copying metadata, deleting *)

Section Files.

Variable env : Env.
Variable filename : jsstring.

#[local] Abbreviation source := (path_join INPUT_DIR filename).
#[local] Abbreviation target := (path_join OUTPUT_DIR filename).
#[local] Abbreviation exifWarning err :=
  (ConsoleWarn
     [Str (lit "Failed to copy EXIF for " ++ filename ++ lit ":"); Err err]).

Lemma writeFile_unfold (p : Path) (contents : Buffer) (w : World) :
  writeFile env p contents w =
    match fsp_writeFile_error env (clock w) p with
    | Some e =>
        (Throw e, mkWorld (files w) (events w ++ [WriteFile p contents])
                    (S (clock w)))
    | None =>
        (Normal tt, mkWorld (<[p := contents]> (files w))
                      (events w ++ [WriteFile p contents]) (S (clock w)))
    end.
Proof.
  unfold writeFile, bind, tick, emit, get_files, set_files, throw, log_event.
  simpl. now destruct (fsp_writeFile_error env (clock w) p).
Qed.

Lemma copyAllExif_unfold (src dest : Path) (w : World) :
  copyAllExifFromTo env src dest w =
    match exiftool_write env (clock w) (files w) src dest with
    | Normal contents =>
        (Normal tt, mkWorld (<[dest := contents]> (files w))
                      (events w ++ [ExifWrite src dest]) (S (clock w)))
    | Throw e =>
        (Throw e, mkWorld (files w) (events w ++ [ExifWrite src dest])
                    (S (clock w)))
    end.
Proof.
  unfold copyAllExifFromTo, bind, tick, emit, get_files, set_files, lift,
    log_event.
  simpl. now destruct (exiftool_write env (clock w) (files w) src dest).
Qed.

Lemma rm_force_unfold (p : Path) (w : World) :
  swallow (rm_force env p) w =
    (Normal tt,
     mkWorld (removed (fsp_rm_error env (clock w) p) p (files w))
             (events w ++ [Rm p]) (S (clock w))).
Proof.
  unfold swallow, try_catch, rm_force, bind, tick, emit, get_files, set_files,
    throw, ret, log_event, removed.
  simpl. now destruct (fsp_rm_error env (clock w) p).
Qed.

Lemma skipFiles_unfold (w : World) :
  skipFiles env filename w =
    (Normal tt,
     mkWorld
       (removed (fsp_rm_error env (S (clock w)) source) source
          (removed (fsp_rm_error env (clock w) target) target (files w)))
       (events w ++ [Rm target; Rm source]) (S (S (clock w)))).
Proof.
  unfold skipFiles, bind at 1. rewrite rm_force_unfold, rm_force_unfold.
  simpl. now rewrite <- app_assoc.
Qed.

Lemma source_target_differ : source <> target.
Proof. discriminate. Qed.

Lemma removed_lookup_same (failure : option JsError) (p : Path) (fs : gmap Path Buffer) :
  removed failure p fs !! p = match failure with
                              | Some _ => fs !! p
                              | None => None
                              end.
Proof. destruct failure; simpl; [reflexivity | apply lookup_delete_eq]. Qed.

Lemma removed_lookup_other (failure : option JsError) (p q : Path) (fs : gmap Path Buffer) :
  p <> q -> removed failure p fs !! q = fs !! q.
Proof.
  intros H. destruct failure; simpl; [reflexivity|].
  now apply lookup_delete_ne.
Qed.

(** The [skip] branch, in full: the menu, the two deletions, the end. *)
Lemma reviewLoop_skip_world
    (inputBuffer : Buffer) (rest : list Answer) (ctx : Context)
    (w : World) (returned : Buffer) (w1 : World) :
  generateAndSave env filename ctx w = (Normal (Some returned), w1) ->
  reviewLoop env filename inputBuffer (Skip :: rest) ctx w
    = (Finished (Normal tt), rest,
       mkWorld
         (removed (fsp_rm_error env (S (clock w1)) source) source
            (removed (fsp_rm_error env (clock w1) target) target (files w1)))
         (events w1 ++ [PromptMenu filename; Rm target; Rm source])
         (S (S (clock w1)))).
Proof.
  intros H.
  rewrite (reviewLoop_skip env filename inputBuffer rest ctx w returned w1 H).
  rewrite skipFiles_unfold. cbn [fst snd log_event events files clock].
  now rewrite <- app_assoc.
Qed.

(** C5, as the code has it.  When the operator answers [skip], the job
    ends normally and the loop makes no further edit call: after the menu it
    only attempts the two deletions, the output file first and the input
    file next.  Each of the two files is absent afterwards provided its
    deletion did not fail; a failed deletion is ignored and leaves that file
    as it was. *)
Theorem skip_deletes_unless_rm_fails
    (inputBuffer : Buffer) (rest : list Answer) (ctx : Context)
    (w : World) (returned : Buffer) (w1 : World) :
  generateAndSave env filename ctx w = (Normal (Some returned), w1) ->
  exists w',
    reviewLoop env filename inputBuffer (Skip :: rest) ctx w
      = (Finished (Normal tt), rest, w') /\
    events w' = events w1 ++ [PromptMenu filename; Rm target; Rm source] /\
    (fsp_rm_error env (clock w1) target = None ->
       files w' !! target = None) /\
    (fsp_rm_error env (S (clock w1)) source = None ->
       files w' !! source = None) /\
    (fsp_rm_error env (clock w1) target <> None ->
       files w' !! target = files w1 !! target) /\
    (fsp_rm_error env (S (clock w1)) source <> None ->
       files w' !! source = files w1 !! source).
Proof.
  intros H. eexists. split.
  - exact (reviewLoop_skip_world inputBuffer rest ctx w returned w1 H).
  - cbn [events files clock].
    split; [reflexivity|].
    rewrite removed_lookup_same.
    rewrite (removed_lookup_other _ source target) by discriminate.
    rewrite removed_lookup_same.
    rewrite (removed_lookup_other _ target source) by discriminate.
    repeat split.
    + now intros ->.
    + now intros ->.
    + destruct (fsp_rm_error env (clock w1) target); [reflexivity|].
      now intros [].
    + destruct (fsp_rm_error env (S (clock w1)) source); [reflexivity|].
      now intros [].
Qed.

(** C6, as the code has it.  A failure of the write of the output file
    leaves the loop as that error: the job ends throwing it, before the menu
    and with the operator's script untouched, and the batch driver reports
    it for that file and goes on.  A failure of a deletion in the [skip]
    branch does not: it is swallowed where it occurs, nothing is logged, and
    the job ends normally. *)
Theorem write_failure_propagates_but_rm_failure_is_swallowed :
  (forall inputBuffer script ctx w returned w1 jpegBuffer err,
     sendImageAndGetReturnedImage env (currentPrompt ctx) (workingBuffer ctx)
       (workingMime ctx) w = (Normal (Some returned), w1) ->
     sharp_jpeg env returned = Normal jpegBuffer ->
     fsp_writeFile_error env (clock w1) target = Some err ->
     exists w2,
       reviewLoop env filename inputBuffer script ctx w
         = (Finished (Throw err), script, w2) /\
       events w2 = events w1 ++ [WriteFile target jpegBuffer] /\
       files w2 = files w) /\
  (forall more script w err script' w2,
     processOneFile env filename script w = (Finished (Throw err), script', w2) ->
     processFiles env (filename :: more) script w
       = processFiles env more script'
           (log_event
              (ConsoleError
                 [Str (lit "Error processing " ++ filename ++ lit ":");
                  Err err]) w2)) /\
  (forall inputBuffer rest ctx w returned w1 err,
     generateAndSave env filename ctx w = (Normal (Some returned), w1) ->
     fsp_rm_error env (clock w1) target = Some err \/
     fsp_rm_error env (S (clock w1)) source = Some err ->
     exists w2,
       reviewLoop env filename inputBuffer (Skip :: rest) ctx w
         = (Finished (Normal tt), rest, w2) /\
       events w2 = events w1 ++ [PromptMenu filename; Rm target; Rm source]).
Proof.
  refine (conj _ (conj _ _)).
  - intros inputBuffer script ctx w returned w1 jpegBuffer err Hsend Hjpeg Herr.
    eexists. split.
    + apply reviewLoop_throw.
      unfold generateAndSave, bind at 1. rewrite Hsend.
      unfold bind at 1, lift. rewrite Hjpeg.
      unfold bind at 1. rewrite writeFile_unfold, Herr. reflexivity.
    + split; [reflexivity|]. simpl.
      apply sendImage_world in Hsend. now subst w1.
  - intros more script w err script' w2 H. simpl. now rewrite H.
  - intros inputBuffer rest ctx w returned w1 err H _.
    eexists. split.
    + exact (reviewLoop_skip_world inputBuffer rest ctx w returned w1 H).
    + reflexivity.
Qed.

(** C7. When the metadata copy of a turn fails, after an edit call that
    returned an image, a re-encoding and a write that succeeded, the failure
    is logged as a warning and the turn goes on: the output file holds the
    re-encoded image and the menu is presented.  If the operator then
    accepts, the job ends normally with the output file in place, and the
    batch driver reports the file as processed and goes on with the files
    that remain; it goes on in the same way however the job finishes. *)
Theorem exif_failure_is_logged_and_ignored
    (inputBuffer : Buffer) (ctx : Context) (w : World) (returned : Buffer)
    (w1 : World) (jpegBuffer : Buffer) (w2 : World) (err : JsError)
    (w3 : World) :
  sendImageAndGetReturnedImage env (currentPrompt ctx) (workingBuffer ctx)
    (workingMime ctx) w = (Normal (Some returned), w1) ->
  sharp_jpeg env returned = Normal jpegBuffer ->
  writeFile env target jpegBuffer w1 = (Normal tt, w2) ->
  copyAllExifFromTo env source target w2 = (Throw err, w3) ->
  let w4 := log_event (exifWarning err) w3 in
  generateAndSave env filename ctx w = (Normal (Some returned), w4) /\
  files w4 !! target = Some jpegBuffer /\
  events w4 = events w1 ++
              [WriteFile target jpegBuffer; ExifWrite source target;
               exifWarning err] /\
  reviewLoop env filename inputBuffer [] ctx w
    = (AwaitingOperator, [], log_event (PromptMenu filename) w4) /\
  (forall rest,
     reviewLoop env filename inputBuffer (Accept :: rest) ctx w
       = (Finished (Normal tt), rest, log_event (PromptMenu filename) w4)) /\
  (forall more rest w0,
     readFile env source w0 = (Normal inputBuffer, w) ->
     ctx = initialContext filename inputBuffer ->
     let w5 := log_event (ConsoleLog [Str (lit "Processed: " ++ filename)])
                 (log_event (PromptMenu filename) w4) in
     processFiles env (filename :: more) (Accept :: rest) w0
       = processFiles env more rest w5 /\
     files w5 !! target = Some jpegBuffer) /\
  (forall more script w0 c script' w',
     processOneFile env filename script w0 = (Finished c, script', w') ->
     processFiles env (filename :: more) script w0
       = processFiles env more script' (log_event (report filename c) w')).
Proof.
  intros Hsend Hjpeg Hwrite Hexif w4.
  assert (Hturn : generateAndSave env filename ctx w
                  = (Normal (Some returned), w4)).
  { unfold generateAndSave, bind at 1. rewrite Hsend.
    unfold bind at 1, lift. rewrite Hjpeg.
    unfold bind at 1. rewrite Hwrite.
    unfold bind at 1, try_catch. rewrite Hexif. reflexivity. }
  assert (Hfile : files w4 !! target = Some jpegBuffer).
  { rewrite writeFile_unfold in Hwrite. rewrite copyAllExif_unfold in Hexif.
    destruct (fsp_writeFile_error env (clock w1) target); [discriminate|].
    injection Hwrite as <-.
    destruct (exiftool_write env _ _ source target); [discriminate|].
    injection Hexif as _ <-. simpl. apply lookup_insert_eq. }
  refine (conj Hturn (conj Hfile (conj _ (conj _ (conj _ (conj _ _)))))).
  - rewrite writeFile_unfold in Hwrite. rewrite copyAllExif_unfold in Hexif.
    destruct (fsp_writeFile_error env (clock w1) target); [discriminate|].
    injection Hwrite as <-.
    destruct (exiftool_write env _ _ source target); [discriminate|].
    injection Hexif as _ <-. simpl. now rewrite <- !app_assoc.
  - now apply reviewLoop_unanswered with (returned := returned).
  - intros rest. now apply reviewLoop_accept with (returned := returned).
  - intros more rest w0 Hread -> w5. split; [|exact Hfile].
    simpl. unfold processOneFile. rewrite Hread.
    now rewrite (reviewLoop_accept env filename inputBuffer rest _ w returned
                   w4 Hturn).
  - intros more script w0 c script' w' H. simpl. now rewrite H.
Qed.

End Files.

Lemma skip_claim_counterexample :
  let '(ending, script, w) :=
    processOneFile Scenario.rmFails Scenario.a_jpg [Skip] Scenario.start in
  ending = Finished (Normal tt) /\ script = [] /\
  files w !! path_join INPUT_DIR Scenario.a_jpg = Some Scenario.original /\
  files w !! path_join OUTPUT_DIR Scenario.a_jpg
    = Some (JPEG_SOI ++ Scenario.edited 1 ++ [x45]).
Proof. vm_compute. repeat split. Qed.

Lemma skip_deletes_unless_rm_fails_witness :
  exists w',
    reviewLoop Scenario.healthy Scenario.a_jpg Scenario.original [Skip; Accept]
      (initialContext Scenario.a_jpg Scenario.original) Scenario.start
      = (Finished (Normal tt), [Accept], w') /\
    files w' !! path_join OUTPUT_DIR Scenario.a_jpg = None /\
    files w' !! path_join INPUT_DIR Scenario.a_jpg = None.
Proof.
  destruct (skip_deletes_unless_rm_fails Scenario.healthy Scenario.a_jpg
              Scenario.original [Accept]
              (initialContext Scenario.a_jpg Scenario.original) Scenario.start
              (Scenario.edited 0)
              (snd (generateAndSave Scenario.healthy Scenario.a_jpg
                      (initialContext Scenario.a_jpg Scenario.original)
                      Scenario.start)))
    as (w' & Hloop & _ & Hout & Hin & _).
  - vm_compute. reflexivity.
  - exists w'. split; [exact Hloop|].
    split; [apply Hout | apply Hin]; reflexivity.
Defined.

Lemma rm_failure_claim_counterexample :
  fsp_rm_error Scenario.rmFails 4 (path_join OUTPUT_DIR Scenario.a_jpg)
    = Some (Error (lit "EPERM: operation not permitted")) /\
  fsp_rm_error Scenario.rmFails 5 (path_join INPUT_DIR Scenario.a_jpg)
    = Some (Error (lit "EPERM: operation not permitted")) /\
  let '(ending, script, w) :=
    processOneFile Scenario.rmFails Scenario.a_jpg [Skip] Scenario.start in
  ending = Finished (Normal tt) /\
  drop 5 (events w)
    = [Rm (path_join OUTPUT_DIR Scenario.a_jpg);
       Rm (path_join INPUT_DIR Scenario.a_jpg)] /\
  clock w = 6%nat.
Proof. vm_compute. repeat split. Qed.

Lemma write_failure_propagates_but_rm_failure_is_swallowed_witness :
  (exists w2,
     reviewLoop Scenario.writeFails Scenario.a_jpg Scenario.original [Accept]
       (initialContext Scenario.a_jpg Scenario.original) Scenario.start
       = (Finished (Throw (Error (lit "ENOSPC: no space left on device"))),
          [Accept], w2) /\
     files w2 = files Scenario.start) /\
  (exists w2,
     reviewLoop Scenario.rmFails Scenario.a_jpg Scenario.original [Skip]
       (initialContext Scenario.a_jpg Scenario.original) Scenario.start
       = (Finished (Normal tt), [], w2)) /\
  (exists w2,
     processFiles Scenario.writeFails [Scenario.a_jpg; Scenario.b_jpeg]
       [Accept] Scenario.start
       = processFiles Scenario.writeFails [Scenario.b_jpeg] [Accept] w2).
Proof.
  split; [|split]; cycle 2.
  - eexists.
    apply (proj1 (proj2 (write_failure_propagates_but_rm_failure_is_swallowed
                           Scenario.writeFails Scenario.a_jpg))
             [Scenario.b_jpeg] [Accept] Scenario.start
             (Error (lit "ENOSPC: no space left on device")) [Accept]
             (snd (processOneFile Scenario.writeFails Scenario.a_jpg [Accept]
                     Scenario.start))).
    vm_compute. reflexivity.
  - destruct (proj1 (write_failure_propagates_but_rm_failure_is_swallowed
                        Scenario.writeFails Scenario.a_jpg)
                Scenario.original [Accept]
                (initialContext Scenario.a_jpg Scenario.original)
                Scenario.start (Scenario.edited 0)
                (snd (sendImageAndGetReturnedImage Scenario.writeFails
                        PROMPT_TEXT Scenario.original (lit "image/jpeg")
                        Scenario.start))
                (JPEG_SOI ++ Scenario.edited 0)
                (Error (lit "ENOSPC: no space left on device")))
      as (w2 & Hloop & _ & Hfiles).
    + vm_compute. reflexivity.
    + reflexivity.
    + reflexivity.
    + exists w2. split; [exact Hloop | exact Hfiles].
  - destruct (proj2 (proj2 (write_failure_propagates_but_rm_failure_is_swallowed
                               Scenario.rmFails Scenario.a_jpg))
                Scenario.original [] 
                (initialContext Scenario.a_jpg Scenario.original)
                Scenario.start (Scenario.edited 0)
                (snd (generateAndSave Scenario.rmFails Scenario.a_jpg
                        (initialContext Scenario.a_jpg Scenario.original)
                        Scenario.start))
                (Error (lit "EPERM: operation not permitted")))
      as (w2 & Hloop & _).
    + vm_compute. reflexivity.
    + left. reflexivity.
    + exists w2. exact Hloop.
Defined.

Lemma exif_failure_is_logged_and_ignored_witness :
  exists w5,
    processFiles Scenario.exifBroken [Scenario.a_jpg; Scenario.b_jpeg]
      [Accept; Accept] Scenario.start
      = processFiles Scenario.exifBroken [Scenario.b_jpeg] [Accept] w5 /\
    files w5 !! path_join OUTPUT_DIR Scenario.a_jpg
      = Some (JPEG_SOI ++ Scenario.edited 1).
Proof.
  pose (w := snd (readFile Scenario.exifBroken
                    (path_join INPUT_DIR Scenario.a_jpg) Scenario.start)).
  pose (w1 := snd (sendImageAndGetReturnedImage Scenario.exifBroken
                     PROMPT_TEXT Scenario.original (lit "image/jpeg") w)).
  pose (w2 := snd (writeFile Scenario.exifBroken
                     (path_join OUTPUT_DIR Scenario.a_jpg)
                     (JPEG_SOI ++ Scenario.edited 1) w1)).
  pose (w3 := snd (copyAllExifFromTo Scenario.exifBroken
                     (path_join INPUT_DIR Scenario.a_jpg)
                     (path_join OUTPUT_DIR Scenario.a_jpg) w2)).
  destruct (exif_failure_is_logged_and_ignored Scenario.exifBroken
              Scenario.a_jpg Scenario.original
              (initialContext Scenario.a_jpg Scenario.original)
              w (Scenario.edited 1) w1 (JPEG_SOI ++ Scenario.edited 1) w2
              (Error (lit "exiftool: spawn ENOENT")) w3)
    as (_ & _ & _ & _ & _ & Hbatch & _).
  - vm_compute. reflexivity.
  - reflexivity.
  - vm_compute. reflexivity.
  - vm_compute. reflexivity.
  - destruct (Hbatch [Scenario.b_jpeg] [Accept] Scenario.start)
      as [Hgo Hfile].
    + vm_compute. reflexivity.
    + reflexivity.
    + eexists. split; [exact Hgo | exact Hfile].
Defined.

(** ** The batch driver and the process *)

Section Batch.

Variable env : Env.

Lemma reviewLoop_awaiting filename inputBuffer script : forall ctx w,
  fst (fst (reviewLoop env filename inputBuffer script ctx w))
    = AwaitingOperator ->
  snd (fst (reviewLoop env filename inputBuffer script ctx w)) = [].
Proof.
  induction script as [|answer rest IH]; intros ctx w; simpl;
    destruct (generateAndSave env filename ctx w) as [[[returned|]|e] w1];
    simpl; try discriminate; try reflexivity.
  destruct answer as [|raw| |]; simpl; try discriminate; try apply IH.
  now destruct (skipFiles env filename _).
Qed.

Lemma processOneFile_awaiting filename script w :
  fst (fst (processOneFile env filename script w)) = AwaitingOperator ->
  snd (fst (processOneFile env filename script w)) = [].
Proof.
  unfold processOneFile.
  destruct (readFile env _ w) as [[inputBuffer|e] w0]; [|discriminate].
  apply reviewLoop_awaiting.
Qed.

Lemma processOneFile_emits filename script w :
  exists new,
    events (snd (processOneFile env filename script w)) = events w ++ new /\
    Forall jobEvent new.
Proof.
  unfold processOneFile.
  destruct (emits_weaken _ _ _ quiet_is_job
              (readFile_emits env (path_join INPUT_DIR filename)) w)
    as [new0 [E0 F0]].
  destruct (readFile env _ w) as [[inputBuffer|e] w0]; simpl in *.
  - destruct (reviewLoop_emits env filename inputBuffer script
                (initialContext filename inputBuffer) w0) as [new1 [E1 F1]].
    exists (new0 ++ new1).
    split; [now rewrite E1, E0, app_assoc | now apply Forall_app].
  - now exists new0.
Qed.

Lemma reports_app (l1 l2 : list Event) :
  reports (l1 ++ l2) = reports l1 ++ reports l2.
Proof. apply List.filter_app. Qed.

Lemma reports_job (l : list Event) : Forall jobEvent l -> reports l = [].
Proof.
  induction 1 as [|ev l Hev _ IH]; [reflexivity|].
  unfold reports in *. simpl. unfold jobEvent in Hev. now rewrite Hev.
Qed.

Lemma reports_report (file : jsstring) (c : Completion unit) :
  reports [report file c] = [report file c].
Proof. now destruct c. Qed.

(** The batch driver either waits for an answer that the script does not
    have, or ends normally with one report per file, in order. *)
Lemma processFiles_reports fileList : forall script w,
  (fst (fst (processFiles env fileList script w)) = AwaitingOperator /\
   snd (fst (processFiles env fileList script w)) = []) \/
  (fst (fst (processFiles env fileList script w)) = Finished (Normal tt) /\
   exists new outcomes,
     events (snd (processFiles env fileList script w)) = events w ++ new /\
     reports new = zip_with report fileList outcomes /\
     length outcomes = length fileList).
Proof.
  induction fileList as [|file rest IH]; intros script w.
  - right. split; [reflexivity|]. exists [], []. simpl.
    now rewrite app_nil_r.
  - simpl.
    pose proof (processOneFile_awaiting file script w) as Hwait.
    destruct (processOneFile_emits file script w) as [new1 [E1 F1]].
    destruct (processOneFile env file script w) as [[[c|] script1] w1];
      simpl in *.
    + destruct (IH script1 (log_event (report file c) w1))
        as [Hblocked | [Hdone (new2 & outcomes & E2 & R2 & L2)]];
        [now left | right].
      split; [exact Hdone|].
      exists (new1 ++ [report file c] ++ new2), (c :: outcomes).
      split; [|split].
      * rewrite E2. simpl. rewrite E1, <- !app_assoc. reflexivity.
      * rewrite !reports_app, (reports_job new1 F1), reports_report, R2.
        reflexivity.
      * simpl. now rewrite L2.
    + left. split; [reflexivity | now apply Hwait].
Qed.

Lemma inventoryOf_emits : emits jobEvent (inventoryOf env).
Proof.
  unfold inventoryOf, ensureDirExists, swallow, mkdir_recursive, listJpegs,
    readdir.
  solve_emits.
Qed.

Lemma main_unfold script w :
  main env script w =
    if falsy (GEMINI_API_KEY env)
    then (Finished (Throw (Error (lit "GEMINI_API_KEY is not set"))), script, w)
    else
      match inventoryOf env w with
      | (Throw e, w1) => (Finished (Throw e), script, w1)
      | (Normal fileList, w1) =>
          if (length fileList =? 0)%nat
          then (Finished (Normal tt), script,
                log_event
                  (ConsoleLog
                     [Str (lit "No JPEG files found in input folder.")]) w1)
          else processFiles env fileList script w1
      end.
Proof. reflexivity. Qed.

(** What the top level adds once [main] has settled: the error, if [main]
    threw, then the shutdown of the metadata tool. *)
Lemma program_unfold script w :
  program env script w =
    match main env script w with
    | (AwaitingOperator, script1, w1) => (AwaitingOperator, script1, w1)
    | (Finished c, script1, w1) =>
        (Finished (Normal tt), script1,
         mkWorld (files w1)
           (events w1 ++
            match c with
            | Normal _ => []
            | Throw err => [ConsoleError [Err err]]
            end ++ [ExifEnd])
           (S (clock w1)))
    end.
Proof.
  unfold program.
  destruct (main env script w) as [[[c|] script1] w1]; [|reflexivity].
  unfold swallow, try_catch, exiftool_end, console_error, bind, tick, emit,
    throw, ret, log_event.
  destruct c as [[]|err]; simpl;
    destruct (exiftool_end_error env (clock w1)); simpl;
    rewrite <- ?app_assoc; reflexivity.
Qed.

(** C1, as the code has it.  When [GEMINI_API_KEY] is unset or empty, [main]
    throws before anything else: the top level prints that error, shuts the
    metadata tool down, and no job has run; the promise chain is fulfilled,
    so the process exits with code 0.  In every run the process either
    exits with code 0 or is still waiting for an answer the operator has not
    given.  With the credential and a non-empty inventory, a run that ends
    has printed exactly one report per inventory file, in order, a
    "Processed" line or an "Error processing" line, and still exits with
    code 0. *)
Theorem process_exits_with_code_zero :
  (forall script w,
     falsy (GEMINI_API_KEY env) = true ->
     exists w',
       program env script w = (Finished (Normal tt), script, w') /\
       events w' = events w ++
                   [ConsoleError [Err (Error (lit "GEMINI_API_KEY is not set"))];
                    ExifEnd] /\
       files w' = files w /\
       exitCode (fst (fst (program env script w))) = Some 0%Z) /\
  (forall script w,
     exitCode (fst (fst (program env script w))) = Some 0%Z \/
     (fst (fst (program env script w)) = AwaitingOperator /\
      snd (fst (program env script w)) = [])) /\
  (forall script w fileList w1,
     falsy (GEMINI_API_KEY env) = false ->
     inventoryOf env w = (Normal fileList, w1) ->
     fileList <> [] ->
     fst (fst (program env script w)) <> AwaitingOperator ->
     exitCode (fst (fst (program env script w))) = Some 0%Z /\
     exists new outcomes,
       events (snd (program env script w)) = events w ++ new /\
       reports new = zip_with report fileList outcomes /\
       length outcomes = length fileList).
Proof.
  refine (conj _ (conj _ _)).
  - intros script w Hkey. rewrite program_unfold, main_unfold, Hkey.
    eexists. repeat split.
  - intros script w. rewrite program_unfold, main_unfold.
    destruct (falsy (GEMINI_API_KEY env)); [now left|].
    destruct (inventoryOf env w) as [[fileList|e] w1]; [|now left].
    destruct (length fileList =? 0)%nat; [now left|].
    destruct (processFiles_reports fileList script w1)
      as [[Hwait Hscript] | [Hdone _]];
      destruct (processFiles env fileList script w1) as [[ending s1] w2];
      simpl in *; subst; [right | left]; now split.
  - intros script w fileList w1 Hkey Hinv Hne.
    rewrite program_unfold, main_unfold, Hkey, Hinv.
    destruct (inventoryOf_emits w) as [new0 [E0 F0]].
    rewrite Hinv in E0. simpl in E0.
    destruct fileList as [|file rest]; [contradiction|].
    cbn [length Nat.eqb].
    destruct (processFiles_reports (file :: rest) script w1)
      as [[Hwait _] | [Hdone (new1 & outcomes & E1 & R1 & L1)]];
      destruct (processFiles env (file :: rest) script w1)
        as [[ending s1] w2];
      cbn [fst snd] in *; subst ending; [contradiction|].
    intros _. split; [reflexivity|].
    exists (new0 ++ new1 ++ [ExifEnd]), outcomes.
    split; [|split; [|exact L1]].
    + cbn [events]. rewrite E1, E0, <- !app_assoc. reflexivity.
    + rewrite !reports_app, (reports_job new0 F0), R1. simpl.
      now rewrite app_nil_r.
Qed.

End Batch.

Lemma missing_key_exit_code_counterexample :
  falsy (GEMINI_API_KEY Scenario.noKey) = true /\
  exitCode (fst (fst (program Scenario.noKey [Accept] Scenario.start)))
    = Some 0%Z /\
  events (snd (program Scenario.noKey [Accept] Scenario.start))
    = [ConsoleError [Err (Error (lit "GEMINI_API_KEY is not set"))]; ExifEnd].
Proof. vm_compute. repeat split. Qed.

Lemma process_exits_with_code_zero_witness :
  exitCode (fst (fst (program Scenario.noKey [Accept] Scenario.start)))
    = Some 0%Z /\
  exitCode (fst (fst (program Scenario.writeFails [] Scenario.start)))
    = Some 0%Z /\
  exists outcomes,
    reports (events (snd (program Scenario.writeFails [] Scenario.start)))
      = zip_with report [Scenario.a_jpg; Scenario.b_jpeg] outcomes.
Proof.
  split; [|split].
  - destruct (proj1 (process_exits_with_code_zero Scenario.noKey)
                [Accept] Scenario.start eq_refl) as (w' & _ & _ & _ & Hexit).
    exact Hexit.
  - destruct (proj2 (proj2 (process_exits_with_code_zero Scenario.writeFails))
                [] Scenario.start [Scenario.a_jpg; Scenario.b_jpeg]
                (snd (inventoryOf Scenario.writeFails Scenario.start)))
      as (Hexit & _).
    + reflexivity.
    + vm_compute. reflexivity.
    + discriminate.
    + vm_compute. discriminate.
    + exact Hexit.
  - destruct (proj2 (proj2 (process_exits_with_code_zero Scenario.writeFails))
                [] Scenario.start [Scenario.a_jpg; Scenario.b_jpeg]
                (snd (inventoryOf Scenario.writeFails Scenario.start)))
      as (_ & new & outcomes & Hev & Hreports & _).
    + reflexivity.
    + vm_compute. reflexivity.
    + discriminate.
    + vm_compute. discriminate.
    + exists outcomes. rewrite Hev. exact Hreports.
Defined.

(** * Further properties of the program *)

(** ** The inventory *)

Section Inventory.

Variable env : Env.

Lemma listJpegs_unfold (dir : Dir) (w : World) :
  listJpegs env dir w =
    let w1 := mkWorld (files w) (events w ++ [Readdir dir]) (S (clock w)) in
    match fsp_readdir env (clock w) dir with
    | Normal entries =>
        (Normal (map name
                   (List.filter
                      (fun e => isFile e && isJpegFilename (name e)) entries)),
         w1)
    | Throw e => (Throw e, w1)
    end.
Proof.
  unfold listJpegs, readdir, bind, tick, emit, lift, ret, log_event. simpl.
  now destruct (fsp_readdir env (clock w) dir).
Qed.

Lemma filtered_names_sublist (keep : Dirent -> bool) (entries : list Dirent) :
  sublist (map name (List.filter keep entries)) (map name entries).
Proof.
  induction entries as [|e entries IH]; simpl; [constructor|].
  destruct (keep e); simpl; now constructor.
Qed.

(** [listJpegs] returns the names of the directory entries that are regular
    files with a JPEG extension, and only those, in the order in which the
    file system reported them; it changes no file.  When the directory
    cannot be read, the error of [readdir] is thrown on. *)
Theorem listJpegs_keeps_jpeg_files_in_order (dir : Dir) (w : World) :
  (forall entries,
     fsp_readdir env (clock w) dir = Normal entries ->
     exists names,
       fst (listJpegs env dir w) = Normal names /\
       (forall f, f ∈ names <->
          exists e, e ∈ entries /\ name e = f /\ isFile e = true /\
                    isJpegFilename f = true) /\
       sublist names (map name entries) /\
       files (snd (listJpegs env dir w)) = files w) /\
  (forall err,
     fsp_readdir env (clock w) dir = Throw err ->
     fst (listJpegs env dir w) = Throw err /\
     files (snd (listJpegs env dir w)) = files w).
Proof.
  rewrite listJpegs_unfold. cbv zeta. split.
  - intros entries ->. eexists. split; [reflexivity|]. split; [|split].
    + intros f. rewrite list_elem_of_In, in_map_iff. split.
      * intros (e & <- & He). apply List.filter_In in He as [He Hkeep].
        apply andb_prop in Hkeep as [Hfile Hjpeg].
        exists e. now rewrite list_elem_of_In.
      * intros (e & He & <- & Hfile & Hjpeg).
        exists e. split; [reflexivity|].
        apply List.filter_In. rewrite list_elem_of_In in He.
        split; [exact He|]. now rewrite Hfile, Hjpeg.
    + apply filtered_names_sublist.
    + reflexivity.
  - intros err ->. now split.
Qed.

(** The two tests on the extension agree: a file name gets the MIME type
    ["image/jpeg"] exactly when [isJpegFilename] accepts it, and
    ["application/octet-stream"] otherwise.  So every job of the inventory
    starts from a working context of type ["image/jpeg"]: the other branch
    of [chooseMimeTypeFromFilename] is never taken for a listed file. *)
Theorem inventory_files_are_sent_as_jpeg :
  (forall f,
     (chooseMimeTypeFromFilename f = lit "image/jpeg" <->
      isJpegFilename f = true) /\
     (isJpegFilename f = false ->
      chooseMimeTypeFromFilename f = lit "application/octet-stream")) /\
  (forall dir w names f inputBuffer,
     fst (listJpegs env dir w) = Normal names ->
     f ∈ names ->
     workingMime (initialContext f inputBuffer) = lit "image/jpeg").
Proof.
  assert (Hagree : forall f,
     (chooseMimeTypeFromFilename f = lit "image/jpeg" <->
      isJpegFilename f = true) /\
     (isJpegFilename f = false ->
      chooseMimeTypeFromFilename f = lit "application/octet-stream")).
  { intros f. unfold chooseMimeTypeFromFilename, isJpegFilename.
    destruct (_ || _); split; try tauto; try discriminate.
    split; [intros H; vm_compute in H; discriminate | discriminate]. }
  split; [exact Hagree|].
  intros dir w names f inputBuffer Hlist Hf.
  simpl. apply Hagree.
  rewrite listJpegs_unfold in Hlist. cbv zeta in Hlist.
  destruct (fsp_readdir env (clock w) dir) as [entries|]; [|discriminate].
  injection Hlist as <-.
  rewrite list_elem_of_In, in_map_iff in Hf. destruct Hf as (e & <- & He).
  apply List.filter_In in He as [_ Hkeep].
  now apply andb_prop in Hkeep as [_ Hjpeg].
Qed.

End Inventory.

Lemma listJpegs_keeps_jpeg_files_in_order_witness :
  fst (listJpegs Scenario.healthy INPUT_DIR Scenario.start)
    = Normal [Scenario.a_jpg; Scenario.b_jpeg] /\
  fst (listJpegs Faults.noDirectory INPUT_DIR Scenario.start)
    = Throw (Error (lit "EACCES: permission denied, scandir")).
Proof.
  split.
  - destruct (proj1 (listJpegs_keeps_jpeg_files_in_order Scenario.healthy
                       INPUT_DIR Scenario.start)
                [mkDirent Scenario.a_jpg true; mkDirent (lit "c.png") true;
                 mkDirent (lit "d.jpg") false; mkDirent Scenario.b_jpeg true]
                eq_refl) as (names & Hnames & _).
    rewrite Hnames. vm_compute in Hnames. injection Hnames as <-.
    vm_compute. reflexivity.
  - apply (proj2 (listJpegs_keeps_jpeg_files_in_order Faults.noDirectory
                    INPUT_DIR Scenario.start)).
    reflexivity.
Defined.

Lemma inventory_files_are_sent_as_jpeg_witness :
  workingMime (initialContext Scenario.b_jpeg Scenario.original)
    = lit "image/jpeg" /\
  chooseMimeTypeFromFilename (lit "c.png") = lit "application/octet-stream".
Proof.
  split.
  - apply (proj2 (inventory_files_are_sent_as_jpeg Scenario.healthy)
             INPUT_DIR Scenario.start [Scenario.a_jpg; Scenario.b_jpeg]).
    + vm_compute. reflexivity.
    + apply list_elem_of_In. right. left. reflexivity.
  - apply (proj1 (inventory_files_are_sent_as_jpeg Scenario.healthy)
             (lit "c.png")).
    vm_compute. reflexivity.
Defined.

(** ** The sniffer reads a prefix *)

Lemma bool_eq_of_iff (a b : bool) : (a = true <-> b = true) -> a = b.
Proof. destruct a, b; intuition congruence. Qed.

(** [detectMimeTypeFromBuffer] looks at no more than the first 8 bytes: two
    buffers that agree on their first 8 bytes get the same type, so the
    type of a buffer is the type of its 8-byte prefix. *)
Theorem detectMimeType_reads_first_8_bytes (a b : Buffer) :
  take 8 a = take 8 b ->
  detectMimeTypeFromBuffer a = detectMimeTypeFromBuffer b.
Proof.
  intros H. rewrite !detect_unfold.
  assert (Hpng : pngTest a = pngTest b).
  { apply bool_eq_of_iff. rewrite !pngTest_true. now rewrite H. }
  assert (Hjpeg : jpegTest a = jpegTest b).
  { apply bool_eq_of_iff. rewrite !jpegTest_true.
    assert (H3 : take 3 a = take 3 b).
    { change (take 3 a) with (take (3 `min` 8) a).
      change (take 3 b) with (take (3 `min` 8) b).
      now rewrite <- !take_take, H. }
    now rewrite H3. }
  now rewrite Hpng, Hjpeg.
Qed.

Lemma detectMimeType_reads_first_8_bytes_witness :
  detectMimeTypeFromBuffer (PNG_SIGNATURE ++ [x00; x01; x02])
    = detectMimeTypeFromBuffer (PNG_SIGNATURE ++ [xff]).
Proof.
  apply (detectMimeType_reads_first_8_bytes (PNG_SIGNATURE ++ [x00; x01; x02])
           (PNG_SIGNATURE ++ [xff])).
  reflexivity.
Defined.

(** ** One turn of the loop, in full *)

Section TurnInFull.

Variable env : Env.
Variable filename : jsstring.

#[local] Abbreviation src := (path_join INPUT_DIR filename).
#[local] Abbreviation dst := (path_join OUTPUT_DIR filename).

(** Every way a turn can go, with the world it leaves. *)
Lemma generateAndSave_unfold (ctx : Context) (w : World) :
  generateAndSave env filename ctx w =
    let t := clock w in
    let call :=
      EditCall (currentPrompt ctx) (workingBuffer ctx) (workingMime ctx) in
    match generateContent env t
            (editRequest (currentPrompt ctx) (workingBuffer ctx)
               (workingMime ctx)) with
    | Throw e => (Throw e, mkWorld (files w) (events w ++ [call]) (S t))
    | Normal result =>
        match firstInlineImage env (responseParts result) with
        | None =>
            (Normal None,
             mkWorld (files w)
               (events w ++ [call; noImageWarningFor filename]) (S t))
        | Some returned =>
            match sharp_jpeg env returned with
            | Throw e =>
                (Throw e, mkWorld (files w) (events w ++ [call]) (S t))
            | Normal jpegBuffer =>
                match fsp_writeFile_error env (S t) dst with
                | Some e =>
                    (Throw e,
                     mkWorld (files w)
                       (events w ++ [call; WriteFile dst jpegBuffer])
                       (S (S t)))
                | None =>
                    match exiftool_write env (S (S t))
                            (<[dst := jpegBuffer]> (files w)) src dst with
                    | Normal tagged =>
                        (Normal (Some returned),
                         mkWorld
                           (<[dst := tagged]> (<[dst := jpegBuffer]> (files w)))
                           (events w ++
                            [call; WriteFile dst jpegBuffer; ExifWrite src dst])
                           (S (S (S t))))
                    | Throw e =>
                        (Normal (Some returned),
                         mkWorld (<[dst := jpegBuffer]> (files w))
                           (events w ++
                            [call; WriteFile dst jpegBuffer; ExifWrite src dst;
                             exifWarningFor filename e])
                           (S (S (S t))))
                    end
                end
            end
        end
    end.
Proof.
  unfold generateAndSave, bind at 1. rewrite sendImage_unfold. cbv zeta.
  fold (editRequest (currentPrompt ctx) (workingBuffer ctx) (workingMime ctx)).
  destruct (generateContent env _ _) as [result|e]; [|reflexivity].
  destruct (firstInlineImage env (responseParts result)) as [returned|];
    [|unfold bind, console_warn, emit, ret, log_event, noImageWarningFor;
      simpl; now rewrite <- app_assoc].
  unfold bind at 1, lift.
  destruct (sharp_jpeg env returned) as [jpegBuffer|e]; [|reflexivity].
  unfold bind at 1. rewrite writeFile_unfold. cbn [clock files events].
  destruct (fsp_writeFile_error env _ _) as [e|];
    [now rewrite <- app_assoc|].
  unfold bind at 1, try_catch. rewrite copyAllExif_unfold.
  cbn [clock files events].
  destruct (exiftool_write env _ _ _ _) as [tagged|e].
  - unfold ret. now rewrite <- !app_assoc.
  - unfold console_warn, emit, ret, log_event, exifWarningFor. simpl.
    now rewrite <- !app_assoc.
Qed.

Lemma readFile_unfold (p : Path) (w : World) :
  readFile env p w =
    let w1 := mkWorld (files w) (events w ++ [ReadFile p]) (S (clock w)) in
    match fsp_readFile_error env (clock w) p with
    | Some e => (Throw e, w1)
    | None =>
        match files w !! p with
        | Some contents => (Normal contents, w1)
        | None =>
            (Throw (Error (lit "ENOENT: no such file or directory")), w1)
        end
    end.
Proof.
  unfold readFile, bind, tick, emit, get_files, throw, ret, log_event. simpl.
  destruct (fsp_readFile_error env (clock w) p); [reflexivity|].
  cbn [files]. now destruct (files w !! p).
Qed.

(** A job whose input file cannot be read, because the read fails or the
    file is not there, ends with that error at once: it makes no edit call,
    shows no menu, consumes no answer and changes no file. *)
Theorem unreadable_input_fails_the_job_before_any_call
    (script : list Answer) (w : World) :
  let w1 := mkWorld (files w) (events w ++ [ReadFile src]) (S (clock w)) in
  (forall err,
     fsp_readFile_error env (clock w) src = Some err ->
     processOneFile env filename script w = (Finished (Throw err), script, w1)) /\
  (fsp_readFile_error env (clock w) src = None ->
   files w !! src = None ->
   processOneFile env filename script w
     = (Finished (Throw (Error (lit "ENOENT: no such file or directory"))),
        script, w1)).
Proof.
  intros w1. unfold processOneFile. rewrite readFile_unfold. cbv zeta. split.
  - now intros err ->.
  - now intros -> ->.
Qed.

(** When the edit service fails, the job fails with the service's error
    after that single call: nothing is retried, nothing is written, the
    menu is not shown and the operator's answers are left for the next job.
    The batch driver prints the error for that file and goes on. *)
Theorem edit_service_error_fails_the_job
    (inputBuffer : Buffer) (script : list Answer) (ctx : Context) (w : World)
    (err : JsError) :
  generateContent env (clock w)
    (editRequest (currentPrompt ctx) (workingBuffer ctx) (workingMime ctx))
    = Throw err ->
  let w1 :=
    mkWorld (files w)
      (events w ++
       [EditCall (currentPrompt ctx) (workingBuffer ctx) (workingMime ctx)])
      (S (clock w)) in
  reviewLoop env filename inputBuffer script ctx w
    = (Finished (Throw err), script, w1) /\
  (forall more w0,
     readFile env src w0 = (Normal inputBuffer, w) ->
     ctx = initialContext filename inputBuffer ->
     processFiles env (filename :: more) script w0
       = processFiles env more script
           (log_event
              (ConsoleError
                 [Str (lit "Error processing " ++ filename ++ lit ":");
                  Err err]) w1)).
Proof.
  intros Hcall w1.
  assert (Hloop : reviewLoop env filename inputBuffer script ctx w
                  = (Finished (Throw err), script, w1)).
  { apply reviewLoop_throw. rewrite generateAndSave_unfold. cbv zeta.
    now rewrite Hcall. }
  split; [exact Hloop|].
  intros more w0 Hread ->. simpl. unfold processOneFile.
  now rewrite Hread, Hloop.
Qed.

(** When the returned image cannot be re-encoded, the job fails with the
    re-encoder's error: no file is written, the metadata tool is not run,
    the menu is not shown and no answer is consumed. *)
Theorem reencoding_error_fails_the_job
    (inputBuffer : Buffer) (script : list Answer) (ctx : Context) (w : World)
    (result : GenerateContentResponse) (returned : Buffer) (err : JsError) :
  generateContent env (clock w)
    (editRequest (currentPrompt ctx) (workingBuffer ctx) (workingMime ctx))
    = Normal result ->
  firstInlineImage env (responseParts result) = Some returned ->
  sharp_jpeg env returned = Throw err ->
  reviewLoop env filename inputBuffer script ctx w
    = (Finished (Throw err), script,
       mkWorld (files w)
         (events w ++
          [EditCall (currentPrompt ctx) (workingBuffer ctx) (workingMime ctx)])
         (S (clock w))).
Proof.
  intros Hcall Himage Hjpeg.
  apply reviewLoop_throw. rewrite generateAndSave_unfold. cbv zeta.
  now rewrite Hcall, Himage, Hjpeg.
Qed.

(** A turn in which everything works, answered with [accept]: the job ends
    normally, having made one edit call, written the re-encoded image and
    run the metadata tool, in that order, before the menu.  The output path
    then holds what the metadata tool produced, replacing whatever was
    there, and every other file, the input included, is as it was. *)
Theorem accept_keeps_the_output_with_metadata
    (inputBuffer : Buffer) (rest : list Answer) (ctx : Context) (w : World)
    (result : GenerateContentResponse) (returned jpegBuffer tagged : Buffer) :
  generateContent env (clock w)
    (editRequest (currentPrompt ctx) (workingBuffer ctx) (workingMime ctx))
    = Normal result ->
  firstInlineImage env (responseParts result) = Some returned ->
  sharp_jpeg env returned = Normal jpegBuffer ->
  fsp_writeFile_error env (S (clock w)) dst = None ->
  exiftool_write env (S (S (clock w))) (<[dst := jpegBuffer]> (files w)) src dst
    = Normal tagged ->
  exists w',
    reviewLoop env filename inputBuffer (Accept :: rest) ctx w
      = (Finished (Normal tt), rest, w') /\
    events w' = events w ++
                [EditCall (currentPrompt ctx) (workingBuffer ctx)
                   (workingMime ctx);
                 WriteFile dst jpegBuffer; ExifWrite src dst;
                 PromptMenu filename] /\
    files w' = <[dst := tagged]> (files w) /\
    files w' !! dst = Some tagged /\
    (forall p, p <> dst -> files w' !! p = files w !! p).
Proof.
  intros Hcall Himage Hjpeg Hwrite Hexif.
  eexists. split.
  - eapply reviewLoop_accept. rewrite generateAndSave_unfold. cbv zeta.
    rewrite Hcall, Himage, Hjpeg, Hwrite, Hexif. reflexivity.
  - cbn [events files log_event]. rewrite insert_insert_eq.
    split; [now rewrite <- app_assoc|]. split; [reflexivity|].
    split; [apply lookup_insert_eq|].
    intros p Hp. now apply lookup_insert_ne.
Qed.

End TurnInFull.

Lemma unreadable_input_fails_the_job_before_any_call_witness :
  fst (processOneFile Scenario.healthy (lit "missing.jpg") [Accept]
         Scenario.start)
    = (Finished (Throw (Error (lit "ENOENT: no such file or directory"))),
       [Accept]).
Proof.
  rewrite (proj2 (unreadable_input_fails_the_job_before_any_call
                    Scenario.healthy (lit "missing.jpg") [Accept]
                    Scenario.start) eq_refl eq_refl).
  reflexivity.
Defined.

Lemma edit_service_error_fails_the_job_witness :
  fst (reviewLoop Faults.serviceDown Scenario.a_jpg Scenario.original [Accept]
         (initialContext Scenario.a_jpg Scenario.original) Scenario.start)
    = (Finished (Throw (Error (lit "503 Service Unavailable"))), [Accept]).
Proof.
  rewrite (proj1 (edit_service_error_fails_the_job Faults.serviceDown
                    Scenario.a_jpg
                    Scenario.original [Accept]
                    (initialContext Scenario.a_jpg Scenario.original)
                    Scenario.start (Error (lit "503 Service Unavailable"))
                    eq_refl)).
  reflexivity.
Defined.

Lemma reencoding_error_fails_the_job_witness :
  fst (reviewLoop Faults.reencodeFails Scenario.a_jpg Scenario.original [Accept]
         (initialContext Scenario.a_jpg Scenario.original) Scenario.start)
    = (Finished
         (Throw (Error (lit "Input buffer contains unsupported image format"))),
       [Accept]).
Proof.
  rewrite (reencoding_error_fails_the_job Faults.reencodeFails Scenario.a_jpg
             Scenario.original [Accept]
             (initialContext Scenario.a_jpg Scenario.original)
             Scenario.start (Scenario.imageResponse (Scenario.edited 0))
             (Scenario.edited 0)
             (Error (lit "Input buffer contains unsupported image format"))
             eq_refl).
  - reflexivity.
  - vm_compute. reflexivity.
  - reflexivity.
Defined.

Lemma accept_keeps_the_output_with_metadata_witness :
  exists w',
    reviewLoop Scenario.healthy Scenario.a_jpg Scenario.original [Accept]
      (initialContext Scenario.a_jpg Scenario.original) Scenario.start
      = (Finished (Normal tt), [], w') /\
    files w' !! path_join OUTPUT_DIR Scenario.a_jpg
      = Some (JPEG_SOI ++ Scenario.edited 0 ++ [x45]) /\
    files w' !! path_join INPUT_DIR Scenario.a_jpg = Some Scenario.original.
Proof.
  destruct (accept_keeps_the_output_with_metadata Scenario.healthy
              Scenario.a_jpg Scenario.original []
              (initialContext Scenario.a_jpg Scenario.original)
              Scenario.start (Scenario.imageResponse (Scenario.edited 0))
              (Scenario.edited 0) (JPEG_SOI ++ Scenario.edited 0)
              (JPEG_SOI ++ Scenario.edited 0 ++ [x45]))
    as (w' & Hloop & _ & _ & Hout & Hframe).
  - reflexivity.
  - vm_compute. reflexivity.
  - reflexivity.
  - reflexivity.
  - vm_compute. reflexivity.
  - exists w'. split; [exact Hloop|]. split; [exact Hout|].
    rewrite Hframe by discriminate. vm_compute. reflexivity.
Defined.

(** ** What a job does and does not do *)

Section JobAlphabet.

Variable env : Env.
Variable filename : jsstring.

#[local] Abbreviation own := (jobEventOf filename).

Ltac own_event :=
  apply emits_emit; unfold jobEventOf; simpl;
  rewrite ?bool_decide_eq_true_2 by reflexivity; reflexivity.

Ltac solve_own := repeat first [own_event | emits_step].

Lemma generateAndSave_own ctx : emits own (generateAndSave env filename ctx).
Proof.
  unfold generateAndSave, sendImageAndGetReturnedImage, writeFile,
    copyAllExifFromTo, console_warn.
  solve_own.
Qed.

Lemma skipFiles_own : emits own (skipFiles env filename).
Proof. unfold skipFiles, swallow, rm_force. solve_own. Qed.

Lemma readFile_own : emits own (readFile env (path_join INPUT_DIR filename)).
Proof. unfold readFile. solve_own. Qed.

(** The loop adds to the trace only events that satisfy [P], when its turns,
    its deletions and its prompts do. *)
Lemma reviewLoop_emits_all (P : Event -> Prop) (inputBuffer : Buffer) :
  (forall ctx, emits P (generateAndSave env filename ctx)) ->
  emits P (skipFiles env filename) ->
  P (PromptMenu filename) -> P PromptComment ->
  forall script ctx w,
    exists new,
      events (snd (reviewLoop env filename inputBuffer script ctx w))
        = events w ++ new /\ Forall P new.
Proof.
  intros Hturn Hskip Hmenu Hcomment.
  induction script as [|answer rest IH]; intros ctx w;
    destruct (Hturn ctx w) as [new1 [E1 F1]];
    simpl;
    destruct (generateAndSave env filename ctx w) as [[[returned|]|e] w1];
    simpl in *; try (now exists new1).
  - exists (new1 ++ [PromptMenu filename]).
    split; [rewrite E1, <- app_assoc; reflexivity|].
    apply Forall_app. split; [exact F1 | now repeat constructor].
  - assert (Fmenu : Forall P (new1 ++ [PromptMenu filename])).
    { apply Forall_app. split; [exact F1 | now repeat constructor]. }
    destruct answer as [|raw| |].
    + exists (new1 ++ [PromptMenu filename]).
      split; [simpl; rewrite E1, <- app_assoc; reflexivity | exact Fmenu].
    + destruct (IH (commentContext ctx returned (promptComment raw))
                   (log_event PromptComment
                      (log_event (PromptMenu filename) w1)))
        as [new2 [E2 F2]].
      exists ((new1 ++ [PromptMenu filename]) ++ PromptComment :: new2).
      split.
      * rewrite E2. simpl. rewrite E1, <- !app_assoc. reflexivity.
      * apply Forall_app. split; [exact Fmenu | now constructor].
    + destruct (IH (initialContext filename inputBuffer)
                   (log_event (PromptMenu filename) w1)) as [new2 [E2 F2]].
      exists ((new1 ++ [PromptMenu filename]) ++ new2).
      split; [rewrite E2; simpl; rewrite E1, <- !app_assoc; reflexivity|].
      now apply Forall_app.
    + destruct (Hskip (log_event (PromptMenu filename) w1))
        as [new2 [E2 F2]].
      destruct (skipFiles env filename _) as [c w3]. simpl in *.
      exists ((new1 ++ [PromptMenu filename]) ++ new2).
      split; [rewrite E2, E1, <- !app_assoc; reflexivity|].
      now apply Forall_app.
Qed.

Lemma processOneFile_own (script : list Answer) (w : World) :
  exists new,
    events (snd (processOneFile env filename script w)) = events w ++ new /\
    Forall (jobEventOf filename) new.
Proof.
  unfold processOneFile.
  destruct (readFile_own w) as [new0 [E0 F0]].
  destruct (readFile env _ w) as [[inputBuffer|e] w0]; simpl in *.
  - destruct (reviewLoop_emits_all own inputBuffer generateAndSave_own
                skipFiles_own) with (script := script)
      (ctx := initialContext filename inputBuffer) (w := w0)
      as [new1 [E1 F1]].
    + unfold jobEventOf. simpl. now apply bool_decide_eq_true_2.
    + reflexivity.
    + exists (new0 ++ new1).
      split; [now rewrite E1, E0, app_assoc | now apply Forall_app].
  - now exists new0.
Qed.

(** A job acts on nothing but its own two files and its own prompts: it
    reads [input/filename], writes [output/filename], copies metadata from
    the first to the second, deletes only these two, and warns.  It never
    creates or lists a directory, never prints a report or an error line,
    and never shuts the metadata tool down. *)
Theorem job_acts_only_on_its_own_files (script : list Answer) (w : World) :
  exists new,
    events (snd (processOneFile env filename script w)) = events w ++ new /\
    Forall (jobEventOf filename) new.
Proof. apply processOneFile_own. Qed.

End JobAlphabet.

(** ** The files a job leaves *)

Section JobFrame.

Variable env : Env.
Variable filename : jsstring.

#[local] Abbreviation src := (path_join INPUT_DIR filename).
#[local] Abbreviation dst := (path_join OUTPUT_DIR filename).

Lemma generateAndSave_frame ctx w (p : Path) :
  p <> dst ->
  files (snd (generateAndSave env filename ctx w)) !! p = files w !! p.
Proof.
  intros Hp. rewrite generateAndSave_unfold. cbv zeta.
  repeat match goal with
         | |- context [match ?x with _ => _ end] => destruct x
         end;
    cbn [snd files]; rewrite ?lookup_insert_ne by congruence; reflexivity.
Qed.

Lemma skipFiles_frame w (p : Path) :
  p <> src -> p <> dst ->
  files (snd (skipFiles env filename w)) !! p = files w !! p.
Proof.
  intros Hs Hd. rewrite skipFiles_unfold. cbn [snd files].
  now rewrite !removed_lookup_other by congruence.
Qed.

Lemma reviewLoop_frame inputBuffer script (p : Path) :
  p <> src -> p <> dst ->
  forall ctx w,
    files (snd (reviewLoop env filename inputBuffer script ctx w)) !! p
      = files w !! p.
Proof.
  intros Hs Hd.
  induction script as [|answer rest IH]; intros ctx w;
    pose proof (generateAndSave_frame ctx w p Hd) as Hturn;
    simpl;
    destruct (generateAndSave env filename ctx w) as [[[returned|]|e] w1];
    simpl in *; try exact Hturn.
  destruct answer as [|raw| |]; simpl.
  - exact Hturn.
  - rewrite IH. exact Hturn.
  - rewrite IH. exact Hturn.
  - pose proof (skipFiles_frame (log_event (PromptMenu filename) w1) p Hs Hd)
      as Hskip.
    destruct (skipFiles env filename _) as [c w3]. simpl in *.
    now rewrite Hskip.
Qed.

Lemma reviewLoop_input inputBuffer script : forall ctx w,
  (Forall (fun a => a <> Skip) script ->
   files (snd (reviewLoop env filename inputBuffer script ctx w)) !! src
     = files w !! src) /\
  (files (snd (reviewLoop env filename inputBuffer script ctx w)) !! src
     = files w !! src \/
   files (snd (reviewLoop env filename inputBuffer script ctx w)) !! src
     = None).
Proof.
  induction script as [|answer rest IH]; intros ctx w;
    pose proof (generateAndSave_frame ctx w src ltac:(discriminate)) as Hturn;
    simpl;
    destruct (generateAndSave env filename ctx w) as [[[returned|]|e] w1];
    simpl in *; try (split; [intros _|left]; exact Hturn).
  destruct answer as [|raw| |]; simpl.
  - split; [intros _|left]; exact Hturn.
  - destruct (IH (commentContext ctx returned (promptComment raw))
                (log_event PromptComment (log_event (PromptMenu filename) w1)))
      as [IHkeep IHany].
    simpl in *. rewrite Hturn in IHkeep, IHany. split; [|exact IHany].
    intros H. apply Forall_cons in H as [_ H]. now apply IHkeep.
  - destruct (IH (initialContext filename inputBuffer)
                (log_event (PromptMenu filename) w1)) as [IHkeep IHany].
    simpl in *. rewrite Hturn in IHkeep, IHany. split; [|exact IHany].
    intros H. apply Forall_cons in H as [_ H]. now apply IHkeep.
  - split.
    + intros H. apply Forall_cons in H as [H _]. now destruct H.
    + rewrite skipFiles_unfold. cbn [snd files log_event].
      rewrite removed_lookup_same.
      rewrite removed_lookup_other by discriminate.
      destruct (fsp_rm_error env _ src); [left; exact Hturn | now right].
Qed.

Lemma processOneFile_frame (script : list Answer) (w : World) :
  let w' := snd (processOneFile env filename script w) in
  (forall p, p <> src -> p <> dst -> files w' !! p = files w !! p) /\
  (files w' !! src = files w !! src \/ files w' !! src = None) /\
  (Forall (fun a => a <> Skip) script -> files w' !! src = files w !! src).
Proof.
  unfold processOneFile. rewrite readFile_unfold. cbv zeta.
  destruct (fsp_readFile_error env (clock w) src);
    [cbn [snd files]; now repeat split; try left|].
  destruct (files w !! src) as [inputBuffer|] eqn:Hsrc;
    [|cbn [snd files]; rewrite ?Hsrc; now repeat split; try left].
  set (w0 := mkWorld _ _ _). change (files w) with (files w0).
  fold src in Hsrc. change (files w) with (files w0) in Hsrc.
  rewrite <- Hsrc.
  destruct (reviewLoop_input inputBuffer script
              (initialContext filename inputBuffer) w0) as [Hkeep Hany].
  split; [|split; [exact Hany | exact Hkeep]].
  intros p Hs Hd. now apply reviewLoop_frame.
Qed.

(** A job changes no file but its own two.  Every file other than
    [input/filename] and [output/filename] is after the job as it was
    before.  The input file is never rewritten: after the job it has its
    former content or is gone, and it can only be gone if the operator
    answered [skip]. *)
Theorem job_leaves_other_files_alone (script : list Answer) (w : World) :
  let w' := snd (processOneFile env filename script w) in
  (forall p, p <> src -> p <> dst -> files w' !! p = files w !! p) /\
  (files w' !! src = files w !! src \/ files w' !! src = None) /\
  (Forall (fun a => a <> Skip) script -> files w' !! src = files w !! src).
Proof. apply processOneFile_frame. Qed.

End JobFrame.

Lemma job_leaves_other_files_alone_witness :
  let w' := snd (processOneFile Scenario.healthy Scenario.a_jpg
                   [Comment None; Retry; Accept] Scenario.start) in
  files w' !! path_join INPUT_DIR Scenario.a_jpg = Some Scenario.original /\
  files w' !! path_join INPUT_DIR Scenario.b_jpeg = Some Scenario.original.
Proof.
  destruct (job_leaves_other_files_alone Scenario.healthy Scenario.a_jpg
              [Comment None; Retry; Accept] Scenario.start)
    as (Hother & _ & Hinput).
  split.
  - rewrite Hinput; [reflexivity|]. repeat constructor; discriminate.
  - rewrite Hother; [reflexivity | discriminate | discriminate].
Defined.

(** ** The edit calls of a job *)

Section JobCalls.

Variable env : Env.
Variable filename : jsstring.
Variable inputBuffer : Buffer.

#[local] Abbreviation run := (reviewLoop env filename inputBuffer).
#[local] Abbreviation callOf ctx :=
  (currentPrompt ctx, workingBuffer ctx, workingMime ctx).

(** A turn makes exactly one edit call, the one of its working context. *)
Lemma turn_calls ctx (w w1 : World) result :
  generateAndSave env filename ctx w = (result, w1) ->
  exists tl, events w1 = events w ++ tl /\ editCalls tl = [callOf ctx].
Proof.
  intros H. destruct (generateAndSave_events env filename ctx w w1 result H)
    as [tl [E F]].
  eexists. split; [exact E|]. simpl. now rewrite (editCalls_quiet tl F).
Qed.

Lemma skipFiles_calls (w : World) :
  exists tl,
    skipFiles env filename w = (Normal tt, snd (skipFiles env filename w)) /\
    events (snd (skipFiles env filename w)) = events w ++ tl /\
    editCalls tl = [].
Proof.
  rewrite skipFiles_unfold. eexists. split; [reflexivity|].
  split; reflexivity.
Qed.

Lemma withComments_snoc (promptText : jsstring) raws raw :
  withComments promptText (raws ++ [raw])
    = withComments promptText raws ++ [10] ++ promptComment raw.
Proof.
  revert promptText. induction raws as [|r raws IH]; intros promptText.
  - reflexivity.
  - simpl. apply IH.
Qed.

Lemma lineage_initial :
  lineage filename inputBuffer (callOf (initialContext filename inputBuffer)).
Proof. left. repeat split. Qed.

Lemma lineage_comment ctx returned raw :
  lineage filename inputBuffer (callOf ctx) ->
  lineage filename inputBuffer
    (callOf (commentContext ctx returned (promptComment raw))).
Proof.
  intros [(Hp & _ & _) | (raws & Hne & Hp & _)]; right; simpl in *.
  - exists [raw]. rewrite Hp. repeat split. discriminate.
  - exists (raws ++ [raw]). rewrite withComments_snoc, Hp.
    repeat split. now destruct raws.
Qed.

Lemma reviewLoop_lineage (script : list Answer) :
  forall ctx w,
    lineage filename inputBuffer (callOf ctx) ->
    exists new,
      events (snd (run script ctx w)) = events w ++ new /\
      Forall (lineage filename inputBuffer) (editCalls new).
Proof.
  induction script as [|answer rest IH]; intros ctx w Hctx;
    destruct (generateAndSave env filename ctx w) as [result w1] eqn:Hturn;
    destruct (turn_calls ctx w w1 result Hturn) as [tl [E C]];
    assert (Htl : Forall (lineage filename inputBuffer) (editCalls tl))
      by (rewrite C; constructor; [exact Hctx | constructor]);
    simpl; rewrite Hturn;
    destruct result as [[returned|]|e]; simpl; try (now exists tl).
  - exists (tl ++ [PromptMenu filename]).
    split; [now rewrite E, <- app_assoc|].
    rewrite editCalls_app, app_nil_r. exact Htl.
  - destruct answer as [|raw| |].
    + exists (tl ++ [PromptMenu filename]).
      split; [simpl; now rewrite E, <- app_assoc|].
      rewrite editCalls_app, app_nil_r. exact Htl.
    + destruct (IH (commentContext ctx returned (promptComment raw))
                   (log_event PromptComment
                      (log_event (PromptMenu filename) w1))
                   (lineage_comment ctx returned raw Hctx))
        as [new2 [E2 F2]].
      exists (tl ++ [PromptMenu filename; PromptComment] ++ new2).
      split; [rewrite E2; simpl; rewrite E, <- !app_assoc; reflexivity|].
      rewrite !editCalls_app. apply Forall_app. split; [exact Htl | exact F2].
    + destruct (IH (initialContext filename inputBuffer)
                   (log_event (PromptMenu filename) w1) lineage_initial)
        as [new2 [E2 F2]].
      exists (tl ++ [PromptMenu filename] ++ new2).
      split; [rewrite E2; simpl; rewrite E, <- !app_assoc; reflexivity|].
      rewrite !editCalls_app. apply Forall_app. split; [exact Htl | exact F2].
    + destruct (skipFiles_calls (log_event (PromptMenu filename) w1))
        as (tl2 & Hskip & E2 & C2).
      rewrite Hskip. cbn [snd].
      exists (tl ++ [PromptMenu filename] ++ tl2).
      split; [rewrite E2; simpl; rewrite E, <- !app_assoc; reflexivity|].
      rewrite !editCalls_app, C2, !app_nil_r. exact Htl.
Qed.

(** Every edit call of a job is of one of two kinds, never a mix: the
    content of the input file with the base prompt and the MIME type of the
    file name, or a later image with the base prompt followed by one or more
    comments and the MIME type sniffed from that image. *)
Theorem edit_calls_follow_one_of_two_lineages
    (script : list Answer) (w : World) :
  files w !! path_join INPUT_DIR filename = Some inputBuffer ->
  exists new,
    events (snd (processOneFile env filename script w)) = events w ++ new /\
    Forall (lineage filename inputBuffer) (editCalls new).
Proof.
  intros Hfile. unfold processOneFile. rewrite readFile_unfold. cbv zeta.
  destruct (fsp_readFile_error env (clock w) _).
  - exists [ReadFile (path_join INPUT_DIR filename)].
    split; [reflexivity | constructor].
  - rewrite Hfile.
    destruct (reviewLoop_lineage script (initialContext filename inputBuffer)
                (mkWorld (files w)
                   (events w ++ [ReadFile (path_join INPUT_DIR filename)])
                   (S (clock w))) lineage_initial) as [new [E F]].
    exists (ReadFile (path_join INPUT_DIR filename) :: new).
    split; [rewrite E; simpl; now rewrite <- app_assoc | exact F].
Qed.

(** The loop runs a turn only at the start of the job and after an answer
    [comment] or [retry], and each turn makes exactly one edit call.  The
    answers a job consumes are a prefix of the operator's script.  Either
    the last of them is [accept] or [skip], none before it is, the job ends
    normally and it made as many edit calls as it consumed answers; or none
    of them is [accept] or [skip] and the job made one edit call more, the
    one of the turn in which it stopped or waits. *)
Theorem one_edit_call_per_turn (script : list Answer) :
  forall ctx w ending remaining w',
    run script ctx w = (ending, remaining, w') ->
    exists consumed new,
      script = consumed ++ remaining /\
      events w' = events w ++ new /\
      ((exists before a,
          consumed = before ++ [a] /\ stops a = true /\
          Forall (fun x => stops x = false) before /\
          ending = Finished (Normal tt) /\
          length (editCalls new) = length consumed) \/
       (Forall (fun x => stops x = false) consumed /\
        length (editCalls new) = S (length consumed))).
Proof.
  induction script as [|answer rest IH]; intros ctx w ending remaining w';
    destruct (generateAndSave env filename ctx w) as [result w1] eqn:Hturn;
    destruct (turn_calls ctx w w1 result Hturn) as [tl [E C]];
    simpl; rewrite Hturn;
    destruct result as [[returned|]|e];
    try (intros [= <- <- <-]; exists [], tl;
         split; [reflexivity|]; split; [exact E|]; right;
         split; [constructor | now rewrite C]).
  - intros [= <- <- <-]. exists [], (tl ++ [PromptMenu filename]).
    split; [reflexivity|]. split; [simpl; now rewrite E, <- app_assoc|].
    right. split; [constructor|].
    now rewrite editCalls_app, C.
  - destruct answer as [|raw| |].
    + intros [= <- <- <-]. exists [Accept], (tl ++ [PromptMenu filename]).
      split; [reflexivity|]. split; [simpl; now rewrite E, <- app_assoc|].
      left. exists [], Accept. repeat split; [constructor|].
      now rewrite editCalls_app, C.
    + intros Hrest.
      destruct (IH _ _ _ _ _ Hrest)
        as (consumed & new2 & -> & E2 & Hshape).
      exists (Comment raw :: consumed),
             (tl ++ [PromptMenu filename; PromptComment] ++ new2).
      split; [reflexivity|].
      split; [rewrite E2; simpl; rewrite E, <- !app_assoc; reflexivity|].
      rewrite !editCalls_app, C. simpl.
      destruct Hshape as [(before & a & -> & Ha & Hbefore & Hend & Hlen)
                         | [Hnone Hlen]].
      * left. exists (Comment raw :: before), a.
        repeat split; auto; simpl; now rewrite Hlen.
      * right. split; [now constructor | now rewrite Hlen].
    + intros Hrest.
      destruct (IH _ _ _ _ _ Hrest)
        as (consumed & new2 & -> & E2 & Hshape).
      exists (Retry :: consumed), (tl ++ [PromptMenu filename] ++ new2).
      split; [reflexivity|].
      split; [rewrite E2; simpl; rewrite E, <- !app_assoc; reflexivity|].
      rewrite !editCalls_app, C. simpl.
      destruct Hshape as [(before & a & -> & Ha & Hbefore & Hend & Hlen)
                         | [Hnone Hlen]].
      * left. exists (Retry :: before), a.
        repeat split; auto; simpl; now rewrite Hlen.
      * right. split; [now constructor | now rewrite Hlen].
    + destruct (skipFiles_calls (log_event (PromptMenu filename) w1))
        as (tl2 & Hskip & E2 & C2).
      rewrite Hskip. intros [= <- <- <-].
      exists [Skip], (tl ++ [PromptMenu filename] ++ tl2).
      split; [reflexivity|].
      split; [rewrite E2; simpl; rewrite E, <- !app_assoc; reflexivity|].
      left. exists [], Skip. repeat split; [constructor|].
      now rewrite !editCalls_app, C, C2.
Qed.

End JobCalls.

Lemma edit_calls_follow_one_of_two_lineages_witness :
  exists new,
    events (snd (processOneFile Scenario.healthy Scenario.a_jpg
                   [Comment (Some (lit "sharper")); Retry; Accept]
                   Scenario.start)) = new /\
    Forall (lineage Scenario.a_jpg Scenario.original) (editCalls new).
Proof.
  destruct (edit_calls_follow_one_of_two_lineages Scenario.healthy
              Scenario.a_jpg Scenario.original
              [Comment (Some (lit "sharper")); Retry; Accept] Scenario.start
              eq_refl) as (new & E & F).
  exists new. split; [exact E | exact F].
Defined.

Lemma one_edit_call_per_turn_witness :
  exists consumed new,
    [Comment None; Accept; Skip] = consumed ++ [Skip] /\
    events (snd (reviewLoop Scenario.healthy Scenario.a_jpg Scenario.original
                   [Comment None; Accept; Skip]
                   (initialContext Scenario.a_jpg Scenario.original)
                   Scenario.start)) = new /\
    length (editCalls new) = 2%nat.
Proof.
  destruct (one_edit_call_per_turn Scenario.healthy Scenario.a_jpg
              Scenario.original [Comment None; Accept; Skip]
              (initialContext Scenario.a_jpg Scenario.original) Scenario.start
              (Finished (Normal tt)) [Skip]
              (snd (reviewLoop Scenario.healthy Scenario.a_jpg
                      Scenario.original [Comment None; Accept; Skip]
                      (initialContext Scenario.a_jpg Scenario.original)
                      Scenario.start)))
    as (consumed & new & Hscript & E & Hshape).
  - vm_compute. reflexivity.
  - exists consumed, new. split; [exact Hscript|]. split; [exact E|].
    assert (Hlen : length consumed = 2%nat).
    { apply (f_equal length) in Hscript. rewrite length_app in Hscript.
      simpl in Hscript. lia. }
    destruct Hshape as [(_ & _ & _ & _ & _ & _ & H) | [Hnone H]].
    + now rewrite H.
    + exfalso. destruct consumed as [|a [|b [|c consumed]]];
        try discriminate.
      simpl in Hscript. injection Hscript as <- <-.
      apply Forall_cons in Hnone as [_ Hnone].
      apply Forall_cons in Hnone as [Hb _]. discriminate.
Defined.

(** ** The run as a whole *)

Section Run.

Variable env : Env.

Lemma inventoryOf_unfold (w : World) :
  inventoryOf env w =
    listJpegs env INPUT_DIR
      (mkWorld (files w)
         (events w ++ [Mkdir INPUT_DIR; Mkdir OUTPUT_DIR]) (S (S (clock w)))).
Proof.
  unfold inventoryOf, ensureDirExists, swallow, try_catch, mkdir_recursive,
    bind, tick, emit, throw, ret, log_event.
  cbn [clock files events].
  destruct (fsp_mkdir_error env (clock w) INPUT_DIR);
    cbn [clock files events];
    destruct (fsp_mkdir_error env (S (clock w)) OUTPUT_DIR);
    cbn [clock files events]; now rewrite <- app_assoc.
Qed.

Lemma filter_none {A} (keep : A -> bool) (l : list A) :
  Forall (fun x => keep x = false) l -> List.filter keep l = [].
Proof.
  induction 1 as [|x l Hx _ IH]; simpl; [reflexivity|]. now rewrite Hx.
Qed.

(** When the credential is there but the input directory cannot be read,
    the run stops there: the error is printed, the metadata tool is shut
    down, no job runs and no file changes; the process still exits with
    code 0.  Failures to create the two directories do not matter: they are
    ignored before the directory is listed. *)
Theorem unreadable_directory_ends_the_run
    (script : list Answer) (w : World) (err : JsError) :
  falsy (GEMINI_API_KEY env) = false ->
  fsp_readdir env (S (S (clock w))) INPUT_DIR = Throw err ->
  program env script w
    = (Finished (Normal tt), script,
       mkWorld (files w)
         (events w ++
          [Mkdir INPUT_DIR; Mkdir OUTPUT_DIR; Readdir INPUT_DIR;
           ConsoleError [Err err]; ExifEnd])
         (S (S (S (S (clock w)))))) /\
  exitCode (fst (fst (program env script w))) = Some 0%Z.
Proof.
  intros Hkey Hdir.
  rewrite program_unfold, main_unfold, Hkey, inventoryOf_unfold,
    listJpegs_unfold.
  cbv zeta. cbn [clock files events]. rewrite Hdir.
  split; [|reflexivity]. cbn [clock files events].
  now rewrite <- !app_assoc.
Qed.

(** When the input directory holds no regular file with a JPEG name, the
    run says so and ends: no job runs, no answer is consumed, no file
    changes, and the metadata tool is shut down. *)
Theorem empty_inventory_ends_the_run
    (script : list Answer) (w : World) (entries : list Dirent) :
  falsy (GEMINI_API_KEY env) = false ->
  fsp_readdir env (S (S (clock w))) INPUT_DIR = Normal entries ->
  Forall (fun e => isFile e && isJpegFilename (name e) = false) entries ->
  program env script w
    = (Finished (Normal tt), script,
       mkWorld (files w)
         (events w ++
          [Mkdir INPUT_DIR; Mkdir OUTPUT_DIR; Readdir INPUT_DIR;
           ConsoleLog [Str (lit "No JPEG files found in input folder.")];
           ExifEnd])
         (S (S (S (S (clock w)))))).
Proof.
  intros Hkey Hdir Hnone.
  rewrite program_unfold, main_unfold, Hkey, inventoryOf_unfold,
    listJpegs_unfold.
  cbv zeta. cbn [clock files events]. rewrite Hdir.
  rewrite (filter_none _ entries Hnone).
  cbn [map length Nat.eqb log_event clock files events app].
  now rewrite <- !app_assoc.
Qed.

Lemma processFiles_emits_all (P : Event -> Prop) :
  (forall f script w,
     exists new,
       events (snd (processOneFile env f script w)) = events w ++ new /\
       Forall P new) ->
  (forall f c, P (report f c)) ->
  forall fileList script w,
    exists new,
      events (snd (processFiles env fileList script w)) = events w ++ new /\
      Forall P new.
Proof.
  intros Hjob Hreport.
  induction fileList as [|file rest IH]; intros script w; simpl.
  - exists []. now rewrite app_nil_r.
  - destruct (Hjob file script w) as [new1 [E1 F1]].
    destruct (processOneFile env file script w) as [[[c|] script1] w1];
      simpl in *; [|now exists new1].
    destruct (IH script1 (log_event (report file c) w1)) as [new2 [E2 F2]].
    exists (new1 ++ report file c :: new2). split.
    + rewrite E2. simpl. rewrite E1, <- !app_assoc. reflexivity.
    + apply Forall_app. split; [exact F1 | now constructor].
Qed.

Lemma main_never_ends_tool (script : list Answer) (w : World) :
  exists new,
    events (snd (main env script w)) = events w ++ new /\
    Forall (fun ev => ev <> ExifEnd) new.
Proof.
  rewrite main_unfold.
  destruct (falsy (GEMINI_API_KEY env));
    [exists []; now rewrite app_nil_r|].
  rewrite inventoryOf_unfold, listJpegs_unfold. cbv zeta.
  cbn [clock files events].
  destruct (fsp_readdir env _ _) as [entries|err].
  - set (fileList := map name _).
    set (w1 := mkWorld _ _ _).
    assert (E1 : events w1 = events w ++
                   [Mkdir INPUT_DIR; Mkdir OUTPUT_DIR; Readdir INPUT_DIR])
      by (unfold w1; simpl; now rewrite <- app_assoc).
    destruct (length fileList =? 0)%nat.
    + eexists. split.
      * simpl. rewrite <- !app_assoc. reflexivity.
      * repeat constructor; discriminate.
    + destruct (processFiles_emits_all (fun ev => ev <> ExifEnd))
        with (fileList := fileList) (script := script) (w := w1)
        as [new [E F]].
      * intros f s w0. destruct (processOneFile_own env f s w0) as [new [E F]].
        exists new. split; [exact E|].
        eapply Forall_impl; [exact F|]. intros ev Hev ->. discriminate.
      * intros f [|]; discriminate.
      * exists ([Mkdir INPUT_DIR; Mkdir OUTPUT_DIR; Readdir INPUT_DIR] ++ new).
        split; [now rewrite E, E1, <- app_assoc|].
        apply Forall_app. split; [repeat constructor; discriminate | exact F].
  - eexists. split.
    + simpl. rewrite <- !app_assoc. reflexivity.
    + repeat constructor; discriminate.
Qed.

(** The metadata tool is shut down exactly once, as the last thing a run
    does, on every path by which the run ends: missing credential,
    unreadable directory, empty inventory, or all jobs done, whether jobs
    failed or not and whether or not the shutdown itself fails.  A run that
    still waits for the operator has not shut it down. *)
Theorem metadata_tool_is_shut_down_once_at_the_end
    (script : list Answer) (w : World) :
  (fst (fst (program env script w)) = Finished (Normal tt) /\
   exists before,
     events (snd (program env script w)) = events w ++ before ++ [ExifEnd] /\
     Forall (fun ev => ev <> ExifEnd) before) \/
  (fst (fst (program env script w)) = AwaitingOperator /\
   exists new,
     events (snd (program env script w)) = events w ++ new /\
     Forall (fun ev => ev <> ExifEnd) new).
Proof.
  rewrite program_unfold.
  destruct (main_never_ends_tool script w) as [new [E F]].
  destruct (main env script w) as [[[c|] script1] w1]; simpl in *.
  - left. split; [reflexivity|].
    exists (new ++ match c with
                   | Normal _ => []
                   | Throw err => [ConsoleError [Err err]]
                   end).
    split; [rewrite E, <- !app_assoc; reflexivity|].
    apply Forall_app. split; [exact F|].
    destruct c; repeat constructor; discriminate.
  - right. split; [reflexivity|]. now exists new.
Qed.

Lemma processFiles_frame (p : Path) (fileList : list jsstring) :
  (forall f, f ∈ fileList ->
     p <> path_join INPUT_DIR f /\ p <> path_join OUTPUT_DIR f) ->
  forall script w,
    files (snd (processFiles env fileList script w)) !! p = files w !! p.
Proof.
  induction fileList as [|file rest IH]; intros Hp script w; simpl;
    [reflexivity|].
  destruct (Hp file) as [Hs Hd]; [now left|].
  destruct (processOneFile_frame env file script w) as [Hother _].
  specialize (Hother p Hs Hd).
  destruct (processOneFile env file script w) as [[[c|] script1] w1];
    simpl in *; [|exact Hother].
  rewrite IH; [exact Hother|].
  intros f Hf. apply Hp. now right.
Qed.

(** A run changes no file outside its inventory: a path whose file name is
    not among the names listed from the input directory, in the input or in
    the output directory, holds after the run what it held before.  In
    particular no file without a JPEG name is ever written or deleted. *)
Theorem run_changes_only_inventory_files
    (script : list Answer) (w : World) (p : Path) :
  (forall fileList w1,
     inventoryOf env w = (Normal fileList, w1) -> snd p ∉ fileList ->
     files (snd (program env script w)) !! p = files w !! p) /\
  (isJpegFilename (snd p) = false ->
   files (snd (program env script w)) !! p = files w !! p).
Proof.
  assert (Hlisted : forall fileList w1,
     inventoryOf env w = (Normal fileList, w1) -> snd p ∉ fileList ->
     files (snd (program env script w)) !! p = files w !! p).
  { intros fileList w1 Hinv Hf.
    rewrite program_unfold, main_unfold.
    destruct (falsy (GEMINI_API_KEY env)); [reflexivity|].
    rewrite Hinv.
    assert (Hw1 : files w1 = files w).
    { rewrite inventoryOf_unfold, listJpegs_unfold in Hinv. cbv zeta in Hinv.
      destruct (fsp_readdir env _ _); [|discriminate].
      now injection Hinv as _ <-. }
    destruct (length fileList =? 0)%nat; [simpl; now rewrite Hw1|].
    pose proof (processFiles_frame p fileList) as Hframe.
    specialize (Hframe ltac:(intros g Hg; split; intros ->; tauto)
                  script w1).
    destruct (processFiles env fileList script w1) as [[[c|] s1] w2];
      simpl in *; now rewrite Hframe, Hw1. }
  split; [exact Hlisted|].
  intros Hjpeg.
  destruct (inventoryOf env w) as [[fileList|err] w1] eqn:Hinv.
  - apply (Hlisted fileList w1 eq_refl).
    intros Hf.
    rewrite inventoryOf_unfold, listJpegs_unfold in Hinv. cbv zeta in Hinv.
    destruct (fsp_readdir env _ _) as [entries|]; [|discriminate].
    injection Hinv as <- _.
    rewrite list_elem_of_In, in_map_iff in Hf. destruct Hf as (e & He' & He).
    apply List.filter_In in He as [_ Hkeep].
    apply andb_prop in Hkeep as [_ Hkeep]. congruence.
  - rewrite program_unfold, main_unfold.
    destruct (falsy (GEMINI_API_KEY env)); [reflexivity|].
    rewrite Hinv. simpl.
    rewrite inventoryOf_unfold, listJpegs_unfold in Hinv. cbv zeta in Hinv.
    destruct (fsp_readdir env _ _); [discriminate|].
    now injection Hinv as _ <-.
Qed.

End Run.

Lemma unreadable_directory_ends_the_run_witness :
  events (snd (program Faults.noDirectory [Accept] Scenario.start))
    = [Mkdir INPUT_DIR; Mkdir OUTPUT_DIR; Readdir INPUT_DIR;
       ConsoleError [Err (Error (lit "EACCES: permission denied, scandir"))];
       ExifEnd].
Proof.
  rewrite (proj1 (unreadable_directory_ends_the_run Faults.noDirectory
                    [Accept] Scenario.start
                    (Error (lit "EACCES: permission denied, scandir"))
                    eq_refl eq_refl)).
  reflexivity.
Defined.

Lemma empty_inventory_ends_the_run_witness :
  fst (program Faults.emptyInventory [Accept] Scenario.start)
    = (Finished (Normal tt), [Accept]).
Proof.
  rewrite (empty_inventory_ends_the_run Faults.emptyInventory [Accept]
             Scenario.start
             [mkDirent (lit "notes.txt") true; mkDirent (lit "old.jpg") false]
             eq_refl eq_refl).
  - reflexivity.
  - repeat constructor.
Defined.

Lemma run_changes_only_inventory_files_witness :
  files (snd (program Scenario.healthy [Skip; Skip]
                (mkWorld (<[path_join INPUT_DIR (lit "notes.txt") := [x68; x69]]>
                            (files Scenario.start)) [] 0)))
    !! path_join INPUT_DIR (lit "notes.txt") = Some [x68; x69].
Proof.
  rewrite (proj2 (run_changes_only_inventory_files Scenario.healthy
                    [Skip; Skip]
                    (mkWorld (<[path_join INPUT_DIR (lit "notes.txt")
                                := [x68; x69]]> (files Scenario.start)) [] 0)
                    (path_join INPUT_DIR (lit "notes.txt")))).
  - reflexivity.
  - vm_compute. reflexivity.
Defined.

(** ** The single-shot variant *)

Section SingleShotJob.

Variable env : Env.
Variable filename : jsstring.

#[local] Abbreviation src := (path_join INPUT_DIR filename).

(** The single-shot job is the reading of the input followed by one turn of
    the review loop from the initial working context. *)
Lemma singleShot_job_unfold (w : World) :
  SingleShot.processOneFile env filename w =
    match readFile env src w with
    | (Throw e, w0) => (Throw e, w0)
    | (Normal inputBuffer, w0) =>
        match generateAndSave env filename
                (initialContext filename inputBuffer) w0 with
        | (Normal _, w1) => (Normal tt, w1)
        | (Throw e, w1) => (Throw e, w1)
        end
    end.
Proof.
  unfold SingleShot.processOneFile, bind at 1.
  destruct (readFile env src w) as [[inputBuffer|e] w0]; [|reflexivity].
  rewrite generateAndSave_unfold. cbv zeta.
  unfold SingleShot.sendImageAndGetReturnedImage, initialContext, editRequest.
  cbn [currentPrompt workingBuffer workingMime].
  unfold bind at 1. unfold bind at 1. unfold emit, log_event.
  unfold bind at 1. unfold tick. cbn [clock files events].
  unfold bind at 1. unfold lift at 1.
  destruct (generateContent env _ _) as [result|e]; [|reflexivity].
  unfold ret at 1.
  destruct (firstInlineImage env (responseParts result)) as [returned|];
    [|unfold console_warn, emit, log_event, noImageWarningFor; simpl;
      now rewrite <- app_assoc].
  unfold bind at 1. unfold lift.
  destruct (sharp_jpeg env returned) as [jpegBuffer|e]; [|reflexivity].
  unfold bind at 1. rewrite writeFile_unfold. cbn [clock files events].
  destruct (fsp_writeFile_error env _ _) as [e|];
    [now rewrite <- app_assoc|].
  unfold try_catch. rewrite copyAllExif_unfold. cbn [clock files events].
  destruct (exiftool_write env _ _ _ _) as [tagged|e].
  - now rewrite <- !app_assoc.
  - unfold console_warn, emit, log_event, exifWarningFor. simpl.
    now rewrite <- !app_assoc.
Qed.

(** What a turn leaves on disk: an output file when it reached the menu,
    the files as they were otherwise. *)
Lemma generateAndSave_saved ctx (w w1 : World) result :
  generateAndSave env filename ctx w = (result, w1) ->
  match result with
  | Normal (Some _) => is_Some (files w1 !! path_join OUTPUT_DIR filename)
  | _ => files w1 = files w
  end.
Proof.
  rewrite generateAndSave_unfold. cbv zeta.
  repeat match goal with
         | |- context [match ?x with _ => _ end] => destruct x
         end;
    intros Heq; simplify_eq; cbn [files]; try reflexivity;
    rewrite lookup_insert_eq; eauto.
Qed.

(** The single-shot variant of a job does what the interactive job does
    when the operator accepts the first result.  When the input cannot be
    read, when the turn throws, and when no image comes back, both end in
    the same way and in the same world, with nothing saved, and the
    interactive job shows no menu and keeps the operator's answer.  When an
    image was saved, both end normally with the output file in place, and
    the world of the interactive job is that of the single-shot job with
    the menu shown after it, the [accept] answer being consumed. *)
Theorem single_shot_job_is_an_accepted_first_turn
    (rest : list Answer) (w : World) :
  (forall e w0,
     readFile env src w = (Throw e, w0) ->
     SingleShot.processOneFile env filename w = (Throw e, w0) /\
     processOneFile env filename (Accept :: rest) w
       = (Finished (Throw e), Accept :: rest, w0) /\
     files w0 = files w) /\
  (forall inputBuffer w0 e w1,
     readFile env src w = (Normal inputBuffer, w0) ->
     generateAndSave env filename (initialContext filename inputBuffer) w0
       = (Throw e, w1) ->
     SingleShot.processOneFile env filename w = (Throw e, w1) /\
     processOneFile env filename (Accept :: rest) w
       = (Finished (Throw e), Accept :: rest, w1) /\
     files w1 = files w) /\
  (forall inputBuffer w0 w1,
     readFile env src w = (Normal inputBuffer, w0) ->
     generateAndSave env filename (initialContext filename inputBuffer) w0
       = (Normal None, w1) ->
     SingleShot.processOneFile env filename w = (Normal tt, w1) /\
     processOneFile env filename (Accept :: rest) w
       = (Finished (Normal tt), Accept :: rest, w1) /\
     files w1 = files w) /\
  (forall inputBuffer w0 returned w1,
     readFile env src w = (Normal inputBuffer, w0) ->
     generateAndSave env filename (initialContext filename inputBuffer) w0
       = (Normal (Some returned), w1) ->
     SingleShot.processOneFile env filename w = (Normal tt, w1) /\
     processOneFile env filename (Accept :: rest) w
       = (Finished (Normal tt), rest, log_event (PromptMenu filename) w1) /\
     is_Some (files w1 !! path_join OUTPUT_DIR filename)).
Proof.
  rewrite singleShot_job_unfold. unfold processOneFile.
  refine (conj _ (conj _ (conj _ _))).
  - intros e w0 Hread. rewrite Hread. repeat split.
    rewrite readFile_unfold in Hread. cbv zeta in Hread.
    destruct (fsp_readFile_error env _ _);
      [|destruct (files w !! src)]; now injection Hread as _ <-.
  - intros inputBuffer w0 e w1 Hread Hturn. rewrite Hread. simpl.
    rewrite Hturn. repeat split.
    apply generateAndSave_saved in Hturn. rewrite Hturn.
    now apply readFile_normal in Hread as [-> _].
  - intros inputBuffer w0 w1 Hread Hturn. rewrite Hread. simpl.
    rewrite Hturn. repeat split.
    apply generateAndSave_saved in Hturn. rewrite Hturn.
    now apply readFile_normal in Hread as [-> _].
  - intros inputBuffer w0 returned w1 Hread Hturn. rewrite Hread. simpl.
    rewrite Hturn. repeat split.
    now apply generateAndSave_saved in Hturn.
Qed.

End SingleShotJob.

Lemma single_shot_job_is_an_accepted_first_turn_witness :
  (exists w1,
     SingleShot.processOneFile Scenario.healthy Scenario.a_jpg Scenario.start
       = (Normal tt, w1) /\
     processOneFile Scenario.healthy Scenario.a_jpg [Accept; Skip]
       Scenario.start
       = (Finished (Normal tt), [Skip],
          log_event (PromptMenu Scenario.a_jpg) w1) /\
     files w1 !! path_join OUTPUT_DIR Scenario.a_jpg
       = Some (JPEG_SOI ++ Scenario.edited 1 ++ [x45])) /\
  (exists w1,
     SingleShot.processOneFile Scenario.noImage Scenario.a_jpg Scenario.start
       = (Normal tt, w1) /\
     processOneFile Scenario.noImage Scenario.a_jpg [Accept; Skip]
       Scenario.start
       = (Finished (Normal tt), [Accept; Skip], w1) /\
     files w1 = files Scenario.start) /\
  (exists w1,
     SingleShot.processOneFile Scenario.writeFails Scenario.a_jpg
       Scenario.start
       = (Throw (Error (lit "ENOSPC: no space left on device")), w1) /\
     processOneFile Scenario.writeFails Scenario.a_jpg [Accept; Skip]
       Scenario.start
       = (Finished (Throw (Error (lit "ENOSPC: no space left on device"))),
          [Accept; Skip], w1)) /\
  (exists w0,
     SingleShot.processOneFile Scenario.healthy (lit "missing.jpg")
       Scenario.start
       = (Throw (Error (lit "ENOENT: no such file or directory")), w0) /\
     processOneFile Scenario.healthy (lit "missing.jpg") [Accept; Skip]
       Scenario.start
       = (Finished (Throw (Error (lit "ENOENT: no such file or directory"))),
          [Accept; Skip], w0)).
Proof.
  refine (conj _ (conj _ (conj _ _))).
  - pose (w0 := snd (readFile Scenario.healthy
                       (path_join INPUT_DIR Scenario.a_jpg) Scenario.start)).
    pose (w1 := snd (generateAndSave Scenario.healthy Scenario.a_jpg
                       (initialContext Scenario.a_jpg Scenario.original) w0)).
    destruct (proj2 (proj2 (proj2 (single_shot_job_is_an_accepted_first_turn
                                     Scenario.healthy Scenario.a_jpg [Skip]
                                     Scenario.start)))
                Scenario.original w0 (Scenario.edited 1) w1)
      as (Hsingle & Hjob & _).
    + reflexivity.
    + vm_compute. reflexivity.
    + exists w1. split; [exact Hsingle|]. split; [exact Hjob|].
      vm_compute. reflexivity.
  - pose (w0 := snd (readFile Scenario.noImage
                       (path_join INPUT_DIR Scenario.a_jpg) Scenario.start)).
    pose (w1 := snd (generateAndSave Scenario.noImage Scenario.a_jpg
                       (initialContext Scenario.a_jpg Scenario.original) w0)).
    destruct (proj1 (proj2 (proj2 (single_shot_job_is_an_accepted_first_turn
                                     Scenario.noImage Scenario.a_jpg [Skip]
                                     Scenario.start)))
                Scenario.original w0 w1)
      as (Hsingle & Hjob & Hfiles).
    + reflexivity.
    + vm_compute. reflexivity.
    + exists w1. split; [exact Hsingle|]. split; [exact Hjob | exact Hfiles].
  - pose (w0 := snd (readFile Scenario.writeFails
                       (path_join INPUT_DIR Scenario.a_jpg) Scenario.start)).
    pose (w1 := snd (generateAndSave Scenario.writeFails Scenario.a_jpg
                       (initialContext Scenario.a_jpg Scenario.original) w0)).
    destruct (proj1 (proj2 (single_shot_job_is_an_accepted_first_turn
                              Scenario.writeFails Scenario.a_jpg [Skip]
                              Scenario.start))
                Scenario.original w0
                (Error (lit "ENOSPC: no space left on device")) w1)
      as (Hsingle & Hjob & _).
    + reflexivity.
    + vm_compute. reflexivity.
    + exists w1. split; [exact Hsingle | exact Hjob].
  - pose (w0 := snd (readFile Scenario.healthy
                       (path_join INPUT_DIR (lit "missing.jpg"))
                       Scenario.start)).
    destruct (proj1 (single_shot_job_is_an_accepted_first_turn
                       Scenario.healthy (lit "missing.jpg") [Skip]
                       Scenario.start)
                (Error (lit "ENOENT: no such file or directory")) w0)
      as (Hsingle & Hjob & _).
    + vm_compute. reflexivity.
    + exists w0. split; [exact Hsingle | exact Hjob].
Defined.

Section SingleShotRun.

Variable env : Env.

Lemma withoutPrompts_app (l1 l2 : list Event) :
  withoutPrompts (l1 ++ l2) = withoutPrompts l1 ++ withoutPrompts l2.
Proof. apply List.filter_app. Qed.

Lemma samePrompts_refl (w : World) : samePrompts w w.
Proof. repeat split. Qed.

Lemma samePrompts_log (ev : Event) (w w' : World) :
  samePrompts w w' -> samePrompts (log_event ev w) (log_event ev w').
Proof.
  intros (Hf & Hc & He). repeat split; simpl; try assumption.
  now rewrite !withoutPrompts_app, He.
Qed.

Lemma samePrompts_menu (f : jsstring) (w w' : World) :
  samePrompts w w' -> samePrompts w (log_event (PromptMenu f) w').
Proof.
  intros (Hf & Hc & He). repeat split; simpl; try assumption.
  rewrite withoutPrompts_app, He. simpl. now rewrite app_nil_r.
Qed.

Ltac same_worlds He :=
  repeat split; cbn [snd files clock events]; try reflexivity;
  rewrite !withoutPrompts_app, He; reflexivity.

Lemma readFile_sim (p : Path) (w w' : World) :
  samePrompts w w' ->
  fst (readFile env p w) = fst (readFile env p w') /\
  samePrompts (snd (readFile env p w)) (snd (readFile env p w')).
Proof.
  intros (Hf & Hc & He). rewrite !readFile_unfold. cbv zeta.
  rewrite Hf, Hc.
  destruct (fsp_readFile_error env (clock w') p); [same_worlds He|].
  destruct (files w' !! p); same_worlds He.
Qed.

Lemma generateAndSave_sim (filename : jsstring) ctx (w w' : World) :
  samePrompts w w' ->
  fst (generateAndSave env filename ctx w)
    = fst (generateAndSave env filename ctx w') /\
  samePrompts (snd (generateAndSave env filename ctx w))
              (snd (generateAndSave env filename ctx w')).
Proof.
  intros (Hf & Hc & He). rewrite !generateAndSave_unfold. cbv zeta.
  rewrite Hf, Hc.
  repeat match goal with
         | |- context [match ?x with _ => _ end] => destruct x
         end;
    same_worlds He.
Qed.

(** The single-shot job and the interactive job answered with [accept],
    from worlds that differ only in their prompts. *)
Lemma job_sim (filename : jsstring) (rest : list Answer) (w w' : World) :
  samePrompts w w' ->
  exists remaining w2,
    processOneFile env filename (Accept :: rest) w'
      = (Finished (fst (SingleShot.processOneFile env filename w)),
         remaining, w2) /\
    samePrompts (snd (SingleShot.processOneFile env filename w)) w2 /\
    (remaining = rest \/ remaining = Accept :: rest).
Proof.
  intros Hsame. rewrite singleShot_job_unfold. unfold processOneFile.
  destruct (readFile_sim (path_join INPUT_DIR filename) w w' Hsame)
    as [Hread Hsame0].
  destruct (readFile env _ w) as [r0 w0].
  destruct (readFile env _ w') as [r0' w0']. simpl in Hread, Hsame0.
  subst r0'. destruct r0 as [inputBuffer|e];
    [|exists (Accept :: rest), w0';
      split; [reflexivity | split; [exact Hsame0 | now right]]].
  simpl.
  destruct (generateAndSave_sim filename
              (initialContext filename inputBuffer) w0 w0' Hsame0)
    as [Hturn Hsame1].
  destruct (generateAndSave env filename _ w0) as [r1 w1].
  destruct (generateAndSave env filename _ w0') as [r1' w1'].
  simpl in Hturn, Hsame1. subst r1'.
  destruct r1 as [[returned|]|e].
  - exists rest, (log_event (PromptMenu filename) w1').
    split; [reflexivity|]. split; [now apply samePrompts_menu | now left].
  - exists (Accept :: rest), w1'.
    split; [reflexivity | split; [exact Hsame1 | now right]].
  - exists (Accept :: rest), w1'.
    split; [reflexivity | split; [exact Hsame1 | now right]].
Qed.

Lemma singleShot_processFiles_cons (file : jsstring) (rest : list jsstring)
    (w : World) :
  SingleShot.processFiles env (file :: rest) w =
    SingleShot.processFiles env rest
      (log_event (report file (fst (SingleShot.processOneFile env file w)))
         (snd (SingleShot.processOneFile env file w))).
Proof.
  simpl. unfold bind at 1, try_catch, bind at 1.
  destruct (SingleShot.processOneFile env file w) as [[[]|e] w1];
    reflexivity.
Qed.

Lemma batch_sim (fileList : list jsstring) :
  forall (n : nat) w w',
    (length fileList <= n)%nat ->
    samePrompts w w' ->
    exists m w2,
      processFiles env fileList (replicate n Accept) w'
        = (Finished (fst (SingleShot.processFiles env fileList w)),
           replicate m Accept, w2) /\
      samePrompts (snd (SingleShot.processFiles env fileList w)) w2 /\
      fst (SingleShot.processFiles env fileList w) = Normal tt.
Proof.
  induction fileList as [|file rest IH]; intros n w w' Hn Hsame.
  - exists n, w'. split; [reflexivity | split; [exact Hsame | reflexivity]].
  - destruct n as [|n]; [simpl in Hn; lia|].
    rewrite singleShot_processFiles_cons.
    destruct (job_sim file (replicate n Accept) w w' Hsame)
      as (remaining & w1' & Hjob & Hsame1 & Hremaining).
    simpl processFiles. cbn [replicate]. rewrite Hjob.
    set (c := fst (SingleShot.processOneFile env file w)) in *.
    set (w1 := snd (SingleShot.processOneFile env file w)) in *.
    assert (Hk : exists k,
               remaining = replicate k Accept /\ (length rest <= k)%nat).
    { simpl in Hn. destruct Hremaining as [-> | ->].
      - exists n. split; [reflexivity | lia].
      - exists (S n). split; [reflexivity | lia]. }
    destruct Hk as (k & -> & Hk).
    apply (IH k (log_event (report file c) w1)
             (log_event (report file c) w1') Hk).
    now apply samePrompts_log.
Qed.

Lemma singleShot_program_unfold (w : World) :
  SingleShot.program env w =
    (Normal tt,
     mkWorld (files (snd (SingleShot.main env w)))
       (events (snd (SingleShot.main env w)) ++
        match fst (SingleShot.main env w) with
        | Normal _ => []
        | Throw err => [ConsoleError [Err err]]
        end ++ [ExifEnd])
       (S (clock (snd (SingleShot.main env w))))).
Proof.
  unfold SingleShot.program, bind at 1, try_catch at 1.
  destruct (SingleShot.main env w) as [[[]|err] w1];
    unfold swallow, try_catch, exiftool_end, console_error, bind, tick, emit,
      throw, ret, log_event; cbn [fst snd clock files events];
    destruct (exiftool_end_error env (clock w1)); simpl;
    rewrite <- ?app_assoc; reflexivity.
Qed.

Lemma singleShot_main_unfold (w : World) :
  SingleShot.main env w =
    if falsy (GEMINI_API_KEY env)
    then (Throw (Error (lit "GEMINI_API_KEY is not set")), w)
    else
      match inventoryOf env w with
      | (Throw e, w0) => (Throw e, w0)
      | (Normal fileList, w0) =>
          if (length fileList =? 0)%nat
          then (Normal tt,
                log_event
                  (ConsoleLog
                     [Str (lit "No JPEG files found in input folder.")]) w0)
          else SingleShot.processFiles env fileList w0
      end.
Proof.
  unfold SingleShot.main.
  destruct (falsy (GEMINI_API_KEY env)); [reflexivity|].
  unfold bind.
  destruct (inventoryOf env w) as [[fileList|e] w0]; [|reflexivity].
  now destruct (length fileList =? 0)%nat.
Qed.

(** The single-shot variant of the program is the interactive program run
    with an operator who accepts every result.  Given at least as many
    [accept] answers as there are files in the inventory, the interactive
    run ends as the single-shot run does, with the same files, at the same
    time and with the same trace apart from the menus it showed; the
    answers left over are [accept] answers not asked for. *)
Theorem single_shot_run_is_the_run_of_an_accepting_operator
    (n : nat) (w : World) :
  (forall fileList w0,
     inventoryOf env w = (Normal fileList, w0) ->
     (length fileList <= n)%nat) ->
  exists m w2,
    program env (replicate n Accept) w
      = (Finished (fst (SingleShot.program env w)), replicate m Accept, w2) /\
    samePrompts (snd (SingleShot.program env w)) w2.
Proof.
  intros Hn. rewrite program_unfold, main_unfold, singleShot_program_unfold.
  rewrite singleShot_main_unfold.
  destruct (falsy (GEMINI_API_KEY env)).
  - exists n. eexists. split; [reflexivity|]. apply samePrompts_refl.
  - destruct (inventoryOf env w) as [[fileList|err] w0] eqn:Hinv.
    + specialize (Hn fileList w0 eq_refl).
      destruct (length fileList =? 0)%nat.
      * exists n. eexists. split; [reflexivity|]. apply samePrompts_refl.
      * destruct (batch_sim fileList n w0 w0 Hn (samePrompts_refl w0))
          as (m & w2 & Hbatch & (Hf & Hc & He) & Hok).
        rewrite Hbatch, Hok. exists m. eexists. split; [reflexivity|].
        cbn [fst snd]. repeat split; cbn [files clock events].
        -- exact Hf.
        -- now rewrite Hc.
        -- now rewrite !withoutPrompts_app, He.
    + exists n. eexists. split; [reflexivity|]. apply samePrompts_refl.
Qed.

End SingleShotRun.

Lemma single_shot_run_is_the_run_of_an_accepting_operator_witness :
  exists m w2,
    program Scenario.healthy [Accept; Accept; Accept] Scenario.start
      = (Finished (Normal tt), replicate m Accept, w2) /\
    files w2 = files (snd (SingleShot.program Scenario.healthy Scenario.start)).
Proof.
  destruct (single_shot_run_is_the_run_of_an_accepting_operator
              Scenario.healthy 3 Scenario.start)
    as (m & w2 & Hrun & Hfiles & _).
  - intros fileList w0 Hinv. vm_compute in Hinv.
    injection Hinv as <- _. simpl. lia.
  - exists m, w2. split; [exact Hrun | now rewrite Hfiles].
Defined.

(** ** Which file names are JPEG names *)

Section Extension.

Local Open Scope Z_scope.

Lemma extname_step_inv (n : Z) (st : ExtState) (i : Z) (c : N) :
  extInv n st i -> 0 <= i <= n - 1 -> c <> 47%N ->
  extInv n (extname_step st i c) (i - 1).
Proof.
  intros (Hstop & Hpart & Hend0 & Hend & Hdot0 & Hdot & Hpre) Hi Hc.
  unfold extname_step. rewrite Hstop.
  destruct (N.eqb_spec c 47) as [|_]; [contradiction|].
  destruct (Z.eqb_spec (endPos st) (-1)) as [He|He];
    destruct (N.eqb_spec c 46) as [Hc46|Hc46]; cbn [startDot endPos preDotState
      matchedSlash startPart stopped];
    destruct (Z.eqb_spec (startDot st) (-1)) as [Hs|Hs];
    cbn [negb startDot endPos preDotState matchedSlash startPart stopped];
    try (destruct (Z.eqb_spec (preDotState st) 1) as [Hp|Hp];
         cbn [negb startDot endPos preDotState matchedSlash startPart stopped]);
    unfold extInv;
    cbn [startDot endPos preDotState matchedSlash startPart stopped];
    repeat split; intros; try assumption; try lia;
    try (specialize (Hend0 He)); try (specialize (Hend He));
    try (specialize (Hdot0 Hs)); try (specialize (Hdot Hs)); lia.
Qed.

Lemma extname_loop_inv (n : Z) (l : list N) : forall st i,
  Forall (fun c => c <> 47%N) l ->
  i = Z.of_nat (length l) - 1 -> i <= n - 1 ->
  extInv n st i ->
  extInv n (extname_loop l i st) (-1).
Proof.
  induction l as [|c l IH]; intros st i Hl Hi Hn Hinv; simpl.
  - simpl in Hi. now subst i.
  - apply Forall_cons in Hl as [Hc Hl].
    simpl length in Hi.
    apply IH; [exact Hl | lia | lia|].
    apply extname_step_inv; [exact Hinv | lia | exact Hc].
Qed.

(** On a name without ['/'], a non-empty extension is a proper suffix of the
    name: something comes before it. *)
Lemma extname_suffix (f : jsstring) :
  Forall (fun c => c <> 47%N) f ->
  extname f <> [] ->
  exists stem, f = stem ++ extname f /\ stem <> [].
Proof.
  intros Hf Hext. unfold extname in *.
  set (n := Z.of_nat (length f)) in *.
  set (st := extname_loop (rev f) (n - 1) (mkExtState (-1) 0 (-1) true 0 false))
    in *.
  assert (Hinv : extInv n st (-1)).
  { apply extname_loop_inv.
    - now apply List.Forall_rev.
    - rewrite length_rev. reflexivity.
    - lia.
    - unfold extInv. simpl. repeat split; intros; lia. }
  destruct Hinv as (_ & _ & _ & Hend & _ & Hdot & Hpre).
  destruct (Z.eqb_spec (startDot st) (-1)) as [|Hs]; [now destruct Hext|].
  destruct (Z.eqb_spec (endPos st) (-1)) as [|He]; [now destruct Hext|].
  destruct (Z.eqb_spec (preDotState st) 0) as [|Hp]; [now destruct Hext|].
  simpl orb in *.
  destruct (_ && _); [now destruct Hext|].
  specialize (Hend He). destruct (Hdot Hs) as [Hrange _].
  assert (Hpos : 0 < startDot st) by (destruct (Z.eq_dec (startDot st) 0); lia).
  unfold slice. rewrite Hend.
  exists (take (Z.to_nat (startDot st)) f).
  assert (Hlen : (Z.to_nat (startDot st) < length f)%nat) by lia.
  split.
  - rewrite (take_ge (drop (Z.to_nat (startDot st)) f))
      by (rewrite length_drop; lia).
    now rewrite take_drop.
  - intros H. apply (f_equal length) in H. rewrite length_take in H.
    simpl in H. lia.
Qed.

Lemma extname_loop_letters (l rest : list N) : forall i st,
  Forall (fun c => c <> 46%N /\ c <> 47%N) l ->
  stopped st = false -> startDot st = -1 -> endPos st <> -1 ->
  extname_loop (l ++ rest) i st
    = extname_loop rest (i - Z.of_nat (length l)) st.
Proof.
  induction l as [|c l IH]; intros i st Hl Hstop Hdot Hend.
  - simpl. now rewrite Z.sub_0_r.
  - apply Forall_cons in Hl as [[Hc46 Hc47] Hl].
    assert (Hstep : extname_step st i c = st).
    { unfold extname_step. rewrite Hstop.
      destruct (N.eqb_spec c 47) as [|_]; [contradiction|].
      destruct (Z.eqb_spec (endPos st) (-1)) as [|_]; [contradiction|].
      destruct (N.eqb_spec c 46) as [|_]; [contradiction|].
      now rewrite Hdot. }
    simpl. rewrite Hstep, IH by assumption.
    f_equal. simpl length. lia.
Qed.

Lemma extname_loop_stem (l : list N) : forall i st,
  Forall (fun c => c <> 47%N) l ->
  stopped st = false -> startDot st <> -1 -> endPos st <> -1 ->
  let st' := extname_loop l i st in
  startDot st' = startDot st /\ startPart st' = startPart st /\
  endPos st' = endPos st /\
  (l <> [] \/ preDotState st <> 0 -> preDotState st' <> 0).
Proof.
  induction l as [|c l IH]; intros i st Hl Hstop Hdot Hend; simpl.
  - repeat split. now intros [|].
  - apply Forall_cons in Hl as [Hc Hl].
    set (st1 := extname_step st i c).
    assert (H1 : stopped st1 = false /\ startDot st1 = startDot st /\
                 startPart st1 = startPart st /\ endPos st1 = endPos st /\
                 preDotState st1 <> 0).
    { unfold st1, extname_step. rewrite Hstop.
      destruct (N.eqb_spec c 47) as [|_]; [contradiction|].
      destruct (Z.eqb_spec (endPos st) (-1)) as [|_]; [contradiction|].
      destruct (Z.eqb_spec (startDot st) (-1)) as [|_]; [contradiction|].
      destruct (N.eqb_spec c 46) as [_|_]; simpl;
        [destruct (Z.eqb_spec (preDotState st) 1) as [Hp|Hp]; simpl|];
        repeat split; try assumption; lia. }
    destruct H1 as (Hstop1 & Hdot1 & Hpart1 & Hend1 & Hpre1).
    destruct (IH (i - 1) st1 Hl Hstop1) as (IHdot & IHpart & IHend & IHpre);
      [congruence | congruence|].
    repeat split; try congruence.
    intros _. apply IHpre. now right.
Qed.

(** On a name without ['/'] that ends in a dot followed by one or more
    characters other than ['.'], with something before that dot,
    [extname] returns the dot and what follows it. *)
Lemma extname_of_dotted (stem letters : list N) :
  stem <> [] -> letters <> [] ->
  Forall (fun c => c <> 47%N) stem ->
  Forall (fun c => c <> 46%N /\ c <> 47%N) letters ->
  extname (stem ++ 46%N :: letters) = 46%N :: letters.
Proof.
  intros Hstem Hletters Hs Hl. unfold extname.
  set (f := stem ++ 46%N :: letters).
  set (n := Z.of_nat (length f)).
  assert (Hn : n = Z.of_nat (length stem) + 1 + Z.of_nat (length letters)).
  { unfold n, f. rewrite length_app. simpl length. lia. }
  assert (Hrev : rev f = rev letters ++ 46%N :: rev stem).
  { unfold f. rewrite rev_app_distr. simpl. now rewrite <- app_assoc. }
  rewrite Hrev.
  destruct (rev letters) as [|c l] eqn:Hrl.
  { apply (f_equal (@rev N)) in Hrl. rewrite rev_involutive in Hrl.
    now destruct Hletters. }
  assert (Hcl : Forall (fun c => c <> 46%N /\ c <> 47%N) (c :: l)).
  { rewrite <- Hrl. now apply List.Forall_rev. }
  assert (Hlen : Z.of_nat (length letters) = 1 + Z.of_nat (length l)).
  { rewrite <- (rev_involutive letters), Hrl, length_rev. simpl length. lia. }
  apply Forall_cons in Hcl as [[Hc46 Hc47] Hcl].
  simpl extname_loop.
  assert (Hfirst : extname_step (mkExtState (-1) 0 (-1) true 0 false) (n - 1) c
                   = mkExtState (-1) 0 n false 0 false).
  { unfold extname_step. simpl.
    destruct (N.eqb_spec c 47) as [|_]; [contradiction|].
    destruct (N.eqb_spec c 46) as [|_]; [contradiction|].
    simpl. f_equal. lia. }
  rewrite Hfirst.
  rewrite extname_loop_letters; [|exact Hcl|reflexivity|reflexivity|simpl; lia].
  simpl extname_loop.
  set (i := n - 1 - 1 - Z.of_nat (length l)).
  assert (Hi : i = Z.of_nat (length stem)) by (unfold i; lia).
  assert (Hdot : extname_step (mkExtState (-1) 0 n false 0 false) i 46%N
                 = mkExtState i 0 n false 0 false).
  { unfold extname_step. simpl.
    destruct (Z.eqb_spec n (-1)) as [|_]; [lia | reflexivity]. }
  rewrite Hdot.
  destruct (extname_loop_stem (rev stem) (i - 1)
              (mkExtState i 0 n false 0 false))
    as (Hsd & Hsp & Hep & Hpre); simpl; try lia; try reflexivity.
  { now apply List.Forall_rev. }
  set (st := extname_loop (rev stem) (i - 1) _) in *.
  simpl in Hsd, Hsp, Hep.
  assert (Hp : preDotState st <> 0).
  { apply Hpre. left. intros H. apply (f_equal (@rev N)) in H.
    rewrite rev_involutive in H. now destruct Hstem. }
  rewrite Hsd, Hsp, Hep.
  destruct (Z.eqb_spec i (-1)) as [|_]; [lia|].
  destruct (Z.eqb_spec n (-1)) as [|_]; [lia|].
  destruct (Z.eqb_spec (preDotState st) 0) as [|_]; [contradiction|].
  destruct (Z.eqb_spec i (n - 1)) as [|_]; [lia|].
  rewrite andb_false_r, andb_false_l. simpl orb. cbv iota.
  unfold slice, f. rewrite Hi, Nat2Z.id.
  rewrite drop_app_length.
  apply take_ge. unfold n. rewrite Nat2Z.id.
  unfold f. rewrite length_app. lia.
Qed.

Lemma toLowerCase_dot (c : N) :
  (if (65 <=? c)%N && (c <=? 90)%N then c + 32 else c)%N = 46%N -> c = 46%N.
Proof.
  destruct (N.leb_spec 65 c), (N.leb_spec c 90); simpl; lia.
Qed.

Lemma toLowerCase_letter (c y : N) :
  (if (65 <=? c)%N && (c <=? 90)%N then c + 32 else c)%N = y ->
  y <> 46%N -> y <> 47%N -> c <> 46%N /\ c <> 47%N.
Proof.
  destruct (N.leb_spec 65 c), (N.leb_spec c 90); simpl; lia.
Qed.

Lemma jpeg_extension_shape (ext : jsstring) :
  toLowerCase ext = lit ".jpg" \/ toLowerCase ext = lit ".jpeg" ->
  exists letters,
    ext = 46%N :: letters /\ letters <> [] /\
    Forall (fun c => c <> 46%N /\ c <> 47%N) letters.
Proof.
  unfold toLowerCase. intros [H | H]; vm_compute (lit _) in H.
  - destruct ext as [|d [|a [|b [|c [|]]]]]; try discriminate.
    simpl in H. injection H as Hd Ha Hb Hc.
    apply toLowerCase_dot in Hd as ->.
    exists [a; b; c]. split; [reflexivity|]. split; [discriminate|].
    repeat constructor;
      eapply toLowerCase_letter; try eassumption; discriminate.
  - destruct ext as [|d [|a [|b [|c [|e [|]]]]]]; try discriminate.
    simpl in H. injection H as Hd Ha Hb Hc He.
    apply toLowerCase_dot in Hd as ->.
    exists [a; b; c; e]. split; [reflexivity|]. split; [discriminate|].
    repeat constructor;
      eapply toLowerCase_letter; try eassumption; discriminate.
Qed.

(** The names [isJpegFilename] accepts, among names without ['/'] such as
    directory entries have: exactly those made of a non-empty stem followed
    by [.jpg] or [.jpeg] in any mix of upper and lower case.  A file called
    just [.jpg] is not accepted. *)
Theorem isJpegFilename_accepts_stem_and_jpeg_extension (f : jsstring) :
  Forall (fun c => c <> 47%N) f ->
  (isJpegFilename f = true <->
   exists stem ext,
     f = stem ++ ext /\ stem <> [] /\
     (toLowerCase ext = lit ".jpg" \/ toLowerCase ext = lit ".jpeg")).
Proof.
  intros Hf. unfold isJpegFilename, jsstring_eqb. split.
  - intros H.
    assert (Hext : toLowerCase (extname f) = lit ".jpg" \/
                   toLowerCase (extname f) = lit ".jpeg").
    { apply orb_prop in H as [H | H]; apply bool_decide_eq_true_1 in H;
        [now left | now right]. }
    destruct (extname_suffix f Hf) as (stem & Hsplit & Hstem).
    + intros Hnil. rewrite Hnil in Hext. now destruct Hext.
    + now exists stem, (extname f).
  - intros (stem & ext & -> & Hstem & Hext).
    destruct (jpeg_extension_shape ext Hext) as (letters & -> & Hne & Hl).
    apply Forall_app in Hf as [Hs _].
    rewrite (extname_of_dotted stem letters Hstem Hne Hs Hl).
    destruct Hext as [-> | ->]; reflexivity.
Qed.

End Extension.

Lemma isJpegFilename_accepts_stem_and_jpeg_extension_witness :
  isJpegFilename (lit "holiday.photo.JpEg") = true /\
  ~ (exists stem ext,
       lit ".jpg" = stem ++ ext /\ stem <> [] /\
       (toLowerCase ext = lit ".jpg" \/ toLowerCase ext = lit ".jpeg")).
Proof.
  split.
  - apply (isJpegFilename_accepts_stem_and_jpeg_extension
             (lit "holiday.photo.JpEg")).
    + vm_compute. repeat constructor; discriminate.
    + exists (lit "holiday.photo"), (lit ".JpEg").
      split; [reflexivity|]. split; [discriminate|]. right. reflexivity.
  - intros H.
    apply (isJpegFilename_accepts_stem_and_jpeg_extension (lit ".jpg")) in H.
    + vm_compute in H. discriminate.
    + vm_compute. repeat constructor; discriminate.
Defined.

(** ** Jobs run one after another *)

Section Sequence.

Variable env : Env.

Lemma processFiles_sequential (fileList : list jsstring) : forall script w,
  fst (fst (processFiles env fileList script w)) <> AwaitingOperator ->
  exists segments,
    length segments = length fileList /\
    Forall2 (fun f s => Forall (jobEventOf f) (fst s)) fileList segments /\
    events (snd (processFiles env fileList script w))
      = events w ++ concat (zip_with jobBlock fileList segments).
Proof.
  induction fileList as [|file rest IH]; intros script w Hend.
  - exists []. simpl. rewrite app_nil_r. repeat split. constructor.
  - simpl in *.
    destruct (processOneFile_own env file script w) as [new [E F]].
    destruct (processOneFile env file script w) as [[[c|] script1] w1];
      simpl in *; [|now destruct Hend].
    destruct (IH script1 (log_event (report file c) w1) Hend)
      as (segments & Hlen & Hall & Hev).
    exists ((new, c) :: segments). split; [simpl; now rewrite Hlen|].
    split; [now constructor|].
    rewrite Hev. unfold jobBlock at 2. simpl.
    rewrite E, <- !app_assoc. reflexivity.
Qed.

(** A run with the credential and a non-empty inventory that comes to its
    end has this trace: the two directories are ensured, the input
    directory is listed, then for each inventory file in order come the
    actions of its job, all on that file alone, followed by the report for
    that file, and last the metadata tool is shut down.  Jobs never
    interleave. *)
Theorem jobs_run_one_after_another
    (script : list Answer) (w : World) (fileList : list jsstring)
    (w1 : World) :
  falsy (GEMINI_API_KEY env) = false ->
  inventoryOf env w = (Normal fileList, w1) ->
  fileList <> [] ->
  fst (fst (program env script w)) <> AwaitingOperator ->
  exists segments,
    length segments = length fileList /\
    Forall2 (fun f s => Forall (jobEventOf f) (fst s)) fileList segments /\
    events (snd (program env script w))
      = events w ++
        [Mkdir INPUT_DIR; Mkdir OUTPUT_DIR; Readdir INPUT_DIR] ++
        concat (zip_with jobBlock fileList segments) ++ [ExifEnd].
Proof.
  intros Hkey Hinv Hne.
  rewrite program_unfold, main_unfold, Hkey, Hinv.
  assert (Hw1 : events w1 = events w ++
                  [Mkdir INPUT_DIR; Mkdir OUTPUT_DIR; Readdir INPUT_DIR]).
  { rewrite inventoryOf_unfold, listJpegs_unfold in Hinv. cbv zeta in Hinv.
    destruct (fsp_readdir env _ _); [|discriminate].
    injection Hinv as _ <-. simpl. now rewrite <- app_assoc. }
  destruct fileList as [|file rest]; [contradiction|].
  cbn [length Nat.eqb].
  pose proof (processFiles_sequential (file :: rest) script w1) as Hseq.
  pose proof (processFiles_reports env (file :: rest) script w1) as Hrep.
  destruct (processFiles env (file :: rest) script w1) as [[[c|] s1] w2];
    cbn [fst snd] in *; [|intros H; now destruct H].
  intros _.
  destruct Hrep as [[Hwait _] | [Hdone _]]; [discriminate|].
  injection Hdone as ->.
  destruct Hseq as (segments & Hlen & Hall & Hev); [discriminate|].
  exists segments. split; [exact Hlen|]. split; [exact Hall|].
  cbn [events]. rewrite Hev, Hw1, <- !app_assoc. reflexivity.
Qed.

End Sequence.

Lemma jobs_run_one_after_another_witness :
  exists segments,
    length segments = 2%nat /\
    events (snd (program Scenario.healthy [Accept; Skip] Scenario.start))
      = [Mkdir INPUT_DIR; Mkdir OUTPUT_DIR; Readdir INPUT_DIR] ++
        concat (zip_with jobBlock [Scenario.a_jpg; Scenario.b_jpeg] segments)
        ++ [ExifEnd].
Proof.
  destruct (jobs_run_one_after_another Scenario.healthy [Accept; Skip]
              Scenario.start [Scenario.a_jpg; Scenario.b_jpeg]
              (snd (inventoryOf Scenario.healthy Scenario.start)))
    as (segments & Hlen & _ & Hev).
  - reflexivity.
  - vm_compute. reflexivity.
  - discriminate.
  - vm_compute. discriminate.
  - exists segments. split; [exact Hlen | exact Hev].
Defined.
